(** * Dexter / liquidity-baking CPMM calculations

    A shallow embedding of [DexCalculations] (index.ts) and of the older
    closure variant [dexterCalculations] (index-raw.js).  The two variants
    hold the same formulas; they differ in where the subsidy flag comes from
    (the constructor field [isLbContract] against a trailing [includeSubsidy]
    argument), so one [Section] variable stands for both.

    The program computes with bignumber.js values.  [Module BN] models the
    part of that library the program calls, with the library's default
    configuration (the program never calls [BigNumber.config]):
    - [plus], [minus], [times] are exact;
    - [dividedBy] rounds the quotient to [DECIMAL_PLACES] = 20 decimal
      places with [ROUNDING_MODE] = 4 (ROUND_HALF_UP: nearest, ties away
      from zero);
    - [mod] is the remainder of the truncated quotient ([MODULO_MODE] = 1)
      and carries the sign of the dividend;
    - a value is NaN, plus or minus Infinity, or a finite decimal with a
      sign (so zero is signed, as in the library);
    - the constructor never throws ([BigNumber.DEBUG] is unset): a string
      that is not a number becomes NaN.
    A finite value is kept as a sign and a rational magnitude, so the
    statements below range over all rationals, of which the decimals a
    caller can write are a part; the exponent limits of the library
    (1e+-1000000000) are not modelled. *)

From Stdlib Require Import ZArith QArith Qabs Qround Qpower Bool Lia Lqa.
From Stdlib Require Import Setoid Morphisms.

Local Open Scope Z_scope.
Local Open Scope Q_scope.

(** ** bignumber.js values *)

Module BN.

Inductive t : Type :=
| NaN
| Infinity (neg : bool)
| Finite (neg : bool) (mag : Q).

(** [new BigNumber(q)] for a rational [q]: sign and magnitude. *)
Definition of_Q (q : Q) : t :=
  if Qle_bool 0 q then Finite false q else Finite true (- q).

Definition of_Z (z : Z) : t := of_Q (inject_Z z).

(** The signed value of a finite number. *)
Definition value (neg : bool) (mag : Q) : Q := if neg then - mag else mag.

(** The [s] field: [None] for NaN. *)
Definition sign (x : t) : option bool :=
  match x with
  | NaN => None
  | Infinity s => Some s
  | Finite s _ => Some s
  end.

Definition negated (x : t) : t :=
  match x with
  | NaN => NaN
  | Infinity s => Infinity (negb s)
  | Finite s m => Finite (negb s) m
  end.

Definition Qeqb (a b : Q) : bool := Qeq_bool a b.
Definition Qltb (a b : Q) : bool := negb (Qle_bool b a).

Definition is_zero_mag (m : Q) : bool := Qeqb m 0.

(** [compare(x, y)]: [None] when either is NaN. *)
Definition comparedTo (x y : t) : option comparison :=
  match x, y with
  | NaN, _ | _, NaN => None
  | Infinity a, Infinity b =>
      Some (if a then (if b then Eq else Lt) else (if b then Gt else Eq))
  | Infinity a, Finite _ _ => Some (if a then Lt else Gt)
  | Finite _ _, Infinity b => Some (if b then Gt else Lt)
  | Finite a m, Finite b n => Some (value a m ?= value b n)
  end.

Definition isGreaterThan (x y : t) : bool :=
  match comparedTo x y with Some Gt => true | _ => false end.

Definition isGreaterThanOrEqualTo (x y : t) : bool :=
  match comparedTo x y with Some Gt | Some Eq => true | _ => false end.

Definition isLessThanOrEqualTo (x y : t) : bool :=
  match comparedTo x y with Some Lt | Some Eq => true | _ => false end.

Definition isZero (x : t) : bool :=
  match x with
  | Finite _ m => is_zero_mag m
  | _ => false
  end.

(** [x.times(y)]: exact; zero times Infinity is NaN. *)
Definition times (x y : t) : t :=
  match x, y with
  | NaN, _ | _, NaN => NaN
  | Infinity a, Infinity b => Infinity (xorb a b)
  | Infinity a, Finite b n =>
      if is_zero_mag n then NaN else Infinity (xorb a b)
  | Finite a m, Infinity b =>
      if is_zero_mag m then NaN else Infinity (xorb a b)
  | Finite a m, Finite b n => Finite (xorb a b) (m * n)
  end.

(** Sum of two values of the same sign. *)
Definition add_same (x y : t) : t :=
  match x, y with
  | NaN, _ | _, NaN => NaN
  | Infinity a, _ => Infinity a
  | _, Infinity b => Infinity b
  | Finite a m, Finite _ n => Finite a (m + n)
  end.

(** Difference of two values of the same sign; [n - n] is [+0]. *)
Definition sub_same (x y : t) : t :=
  match x, y with
  | NaN, _ | _, NaN => NaN
  | Infinity _, Infinity _ => NaN
  | Infinity a, Finite _ _ => Infinity a
  | Finite _ _, Infinity b => Infinity (negb b)
  | Finite a m, Finite _ n =>
      if Qeqb m n then Finite false 0
      else if Qltb n m then Finite a (m - n)
      else Finite (negb a) (n - m)
  end.

Definition plus (x y : t) : t :=
  match sign x, sign y with
  | Some a, Some b =>
      if Bool.eqb a b then add_same x y else sub_same x (negated y)
  | _, _ => NaN
  end.

Definition minus (x y : t) : t :=
  match sign x, sign y with
  | Some a, Some b =>
      if Bool.eqb a b then sub_same x y else add_same x (negated y)
  | _, _ => NaN
  end.

(** [DECIMAL_PLACES] and the scale it gives, 10^20. *)
Definition DECIMAL_PLACES : Z := 20.
Definition scale : positive := Eval cbv in Z.to_pos (10 ^ DECIMAL_PLACES).

(** ROUND_HALF_UP of a magnitude to [DECIMAL_PLACES] places. *)
Definition round_half_up (m : Q) : Q :=
  Qmake (Qfloor (m * (Zpos scale # 1) + (1 # 2))) scale.

(** [x.dividedBy(y)]. *)
Definition dividedBy (x y : t) : t :=
  match x, y with
  | NaN, _ | _, NaN => NaN
  | Infinity _, Infinity _ => NaN
  | Infinity a, Finite b _ => Infinity (xorb a b)
  | Finite a _, Infinity b => Finite (xorb a b) 0
  | Finite a m, Finite b n =>
      if is_zero_mag n then
        if is_zero_mag m then NaN else Infinity (xorb a b)
      else Finite (xorb a b) (round_half_up (m / n))
  end.

(** The integer part of a magnitude ([div] with 0 places, ROUND_DOWN). *)
Definition trunc (m : Q) : Q := inject_Z (Qfloor m).

(** [x.mod(y)] with [MODULO_MODE] = 1. *)
Definition modulo (x y : t) : t :=
  match x, y with
  | NaN, _ | _, NaN => NaN
  | Infinity _, _ => NaN
  | Finite a m, Infinity _ => Finite a m
  | Finite a m, Finite _ n =>
      if is_zero_mag n then NaN
      else if is_zero_mag m then Finite a m
      else Finite a (m - trunc (m / n) * n)
  end.

(** [BigNumber.maximum(x, y)]: NaN if either is NaN. *)
Definition maximum (x y : t) : t :=
  match comparedTo x y with
  | None => NaN
  | Some Lt => y
  | Some _ => x
  end.

(** Equality of values, sign of zero included. *)
Definition eqb (x y : t) : bool :=
  match x, y with
  | NaN, NaN => true
  | Infinity a, Infinity b => Bool.eqb a b
  | Finite a m, Finite b n => Bool.eqb a b && Qeqb m n
  | _, _ => false
  end.

Definition eq (x y : t) : Prop :=
  match x, y with
  | NaN, NaN => True
  | Infinity a, Infinity b => a = b
  | Finite a m, Finite b n => a = b /\ m == n
  | _, _ => False
  end.

(** The greatest integer below a finite value. *)
Definition floor (x : t) : option Z :=
  match x with
  | Finite a m => Some (Qfloor (value a m))
  | _ => None
  end.

End BN.

(** ** JavaScript numbers the program passes to bignumber.js

    [feePercent], [burnPercent] and [allowedSlippage] are JS numbers; a
    number is given here as the rational it holds, and [Math.floor] is the
    exact floor of it.  The double rounding of [feePercent * 10] is not
    modelled.  That of [allowedSlippage * 1000 * 100] is: the product of a
    five-decimal slippage falls just below a whole number for one input in
    ten ([0.0189 * 1000 * 100] is [1889.9999999999998]), and the floor
    takes it down.  [fee], [burn] and their products are integers well
    inside the exact range of a double. *)

Definition Math_floor (q : Q) : Z := Qfloor q.

(** IEEE 754 binary64 as the runtime computes with it: a real number is
    rounded to the nearest number with 53 significant bits, ties to the
    even one, on the grid of 2^-1074 below 2^-1022.  Overflow to Infinity
    (from 2^1024 on) is not modelled: the program multiplies in doubles
    only a number it has tested to lie in [0, 1], by 1000 and by 100. *)
Module Double.

Definition pow2 (k : Z) : Q := (2 # 1) ^ k.

(** The [e] with [2^e <= q < 2^(e+1)], for a positive [q]. *)
Definition exponent (q : Q) : Z :=
  let e := (Z.log2 (Qnum q) - Z.log2 (Z.pos (Qden q)))%Z in
  if Qle_bool (pow2 e) q then e else (e - 1)%Z.

Definition nearest_even (m : Q) : Z :=
  let n := Qfloor m in
  match Qcompare (m - inject_Z n) (1 # 2) with
  | Lt => n
  | Gt => (n + 1)%Z
  | Eq => if Z.even n then n else (n + 1)%Z
  end.

(** The exponent of the unit in the last place of the doubles around [q]. *)
Definition ulp (q : Q) : Z := Z.max (exponent q - 52) (-1074).

Definition round_pos (q : Q) : Q :=
  inject_Z (nearest_even (q / pow2 (ulp q))) * pow2 (ulp q).

(** The double nearest to [q]. *)
Definition round (q : Q) : Q :=
  match Qcompare q 0 with
  | Eq => 0
  | Gt => round_pos q
  | Lt => - round_pos (- q)
  end.

(** [x * y] on two numbers. *)
Definition times (x y : Q) : Q := round (x * y).

End Double.

(** [x > 0] on a [numericInput] (index.ts, xtzToTokenMinimumTokenOutput):
    the operand, given as the value the constructor makes of it, is
    converted to a number, the double nearest to that value, so a positive
    value up to 2^-1075 compares as zero. *)
Definition Number_gtZero (x : BN.t) : bool :=
  match x with
  | BN.Finite false m => BN.Qltb 0 (Double.round m)
  | BN.Infinity false => true
  | _ => false
  end.

(** [fee * burn] as the BigNumber the constructor makes of it: the double
    product of two integers has the sign rule of [times] (a zero product of
    a negative factor is [-0]). *)
Definition number_times (a b : Z) : BN.t := BN.times (BN.of_Z a) (BN.of_Z b).

Definition is_integer (q : Q) : bool := BN.Qeqb (inject_Z (Qfloor q)) q.

(** [new BigNumber(Math.pow(10, x.toNumber()))].  For an integral exponent
    the power of ten is taken exactly, overflowing to Infinity above the
    largest double (1.797e308) and underflowing to zero below the smallest
    (4.9e-324).  The runtime's power is only close to that (its
    [Math.pow(10, -5)] is 0.000009999999999999999), and a non-integral
    exponent gives an irrational power, which this development does not
    represent: NaN stands for it.  So no statement below rests on the
    value of a power: [decimals] is taken as an integer, and a power
    enters a proof by being positive and finite in 0..308, by cancelling
    between dividend and divisor, or by standing on both sides of an
    equality. *)
Definition Math_pow10 (x : BN.t) : BN.t :=
  match x with
  | BN.NaN => BN.NaN
  | BN.Infinity false => BN.Infinity false
  | BN.Infinity true => BN.Finite false 0
  | BN.Finite s m =>
      let v := BN.value s m in
      if is_integer v then
        let n := Qfloor v in
        if (308 <? n)%Z then BN.Infinity false
        else if (n <? -323)%Z then BN.Finite false 0
        else BN.Finite false (Qpower (10 # 1) n)
      else BN.NaN
  end.

(** ** The calculator *)

Section DexCalculations.

(** The constructor field of the class; [includeSubsidy] in index-raw.js. *)
Variable isLbContract : bool.

(** [new BigNumber(x)] of a [numericInput]: an argument is given here as
    the value the constructor makes of it (NaN for a string that is not a
    number), so the constructor is the identity and the [catch] branches of
    the program are dead. *)
Definition new_BigNumber (x : BN.t) : BN.t := x.

Definition gtZero (x : BN.t) : bool := BN.isGreaterThan x (BN.of_Z 0).
Definition geqZero (x : BN.t) : bool := BN.isGreaterThanOrEqualTo x (BN.of_Z 0).
Definition eqZero (x : BN.t) : bool := BN.isZero x.
Definition leqZero (x : BN.t) : bool := BN.isLessThanOrEqualTo x (BN.of_Z 0).

Definition ceilingDiv (x y : BN.t) : BN.t :=
  let result := BN.modulo x y in
  if BN.isGreaterThanOrEqualTo result (BN.of_Z 0)
  then BN.plus (BN.dividedBy x y) (BN.of_Z 1)
  else BN.dividedBy x y.

Definition creditSubsidy (xtzPool : BN.t) : BN.t :=
  BN.plus xtzPool (BN.of_Z 2500000).

(** [1000 - Math.floor(percent * 10)]. *)
Definition multiplier_of (percent : Q) : Z :=
  (1000 - Math_floor (percent * (10 # 1)))%Z.

(** [percent ? 1000 - Math.floor(percent * 10) : 1000] (index.ts,
    xtzToTokenTokenOutput); zero is the only falsy rational. *)
Definition multiplier_of_opt (percent : Q) : Z :=
  if BN.Qeqb percent 0 then 1000%Z else multiplier_of percent.

(** *** xtzToToken *)

Definition xtzToTokenTokenOutput
  (xtzIn xtzPool tokenPool : BN.t) (feePercent burnPercent : Q)
  : option BN.t :=
  let xtzPool :=
    if isLbContract then creditSubsidy (new_BigNumber xtzPool) else xtzPool in
  let fee := multiplier_of_opt feePercent in
  let burn := multiplier_of_opt burnPercent in
  let feeMultiplier := number_times fee burn in
  let xtzIn_ := new_BigNumber xtzIn in
  let xtzPool_ := new_BigNumber xtzPool in
  let tokenPool_ := new_BigNumber tokenPool in
  if gtZero xtzIn_ && gtZero xtzPool_ && gtZero tokenPool_ then
    let numerator := BN.times (BN.times xtzIn_ tokenPool_) feeMultiplier in
    let denominator :=
      BN.plus (BN.times xtzPool_ (BN.of_Z 1000000))
              (BN.times xtzIn_ feeMultiplier) in
    Some (BN.dividedBy numerator denominator)
  else None.

(** The quotient computed by xtzToTokenXtzInput before its sign test. *)
Definition xtzToTokenXtzInput_result
  (tokenOut_ xtzPool_ tokenPool_ decimals_ feeMultiplier : BN.t) : BN.t :=
  BN.dividedBy
    (BN.times
       (BN.times (BN.times xtzPool_ tokenOut_) (BN.of_Z 1000000))
       (Math_pow10 decimals_))
    (BN.times
       (BN.minus tokenPool_ tokenOut_)
       (BN.times feeMultiplier (Math_pow10 decimals_))).

Definition xtzToTokenXtzInput
  (tokenOut xtzPool tokenPool decimals : BN.t) (feePercent burnPercent : Q)
  : option BN.t :=
  let xtzPool :=
    if isLbContract then creditSubsidy (new_BigNumber xtzPool) else xtzPool in
  let fee := multiplier_of feePercent in
  let burn := multiplier_of burnPercent in
  let feeMultiplier := number_times fee burn in
  let tokenOut_ := new_BigNumber tokenOut in
  let xtzPool_ := new_BigNumber xtzPool in
  let tokenPool_ := new_BigNumber tokenPool in
  let decimals_ := new_BigNumber decimals in
  if gtZero tokenOut_ && gtZero xtzPool_ && gtZero tokenPool_
     && geqZero decimals_ then
    let result :=
      xtzToTokenXtzInput_result
        tokenOut_ xtzPool_ tokenPool_ decimals_ feeMultiplier in
    if gtZero result then Some result else None
  else None.

Definition xtzToTokenExchangeRate
  (xtzIn xtzPool tokenPool : BN.t) (feePercent burnPercent : Q)
  : option BN.t :=
  let xtzIn_ := new_BigNumber xtzIn in
  let xtzPool_ := new_BigNumber xtzPool in
  let tokenPool_ := new_BigNumber tokenPool in
  if gtZero xtzIn_ && gtZero xtzPool_ && gtZero tokenPool_ then
    match xtzToTokenTokenOutput xtzIn_ xtzPool_ tokenPool_
            feePercent burnPercent with
    | None => None
    | Some tokenOutput => Some (BN.dividedBy tokenOutput xtzIn_)
    end
  else None.

(** [decimals] is used raw here: [Math.pow(10, -decimals)]. *)
Definition xtzToTokenExchangeRateForDisplay
  (xtzIn xtzPool tokenPool decimals : BN.t) (feePercent burnPercent : Q)
  : option BN.t :=
  let xtzIn_ := new_BigNumber xtzIn in
  let xtzPool_ := new_BigNumber xtzPool in
  let tokenPool_ := new_BigNumber tokenPool in
  if gtZero xtzIn_ && gtZero xtzPool_ && gtZero tokenPool_ then
    match xtzToTokenTokenOutput xtzIn_ xtzPool_ tokenPool_
            feePercent burnPercent with
    | None => None
    | Some tokenOutput =>
        Some (BN.dividedBy
                (BN.times tokenOutput (Math_pow10 (BN.negated decimals)))
                (BN.times xtzIn_ (Math_pow10 (BN.of_Z (-6)))))
    end
  else None.

Definition xtzToTokenMarketRate
  (xtzPool tokenPool decimals : BN.t) : option BN.t :=
  let xtzPool_ := new_BigNumber xtzPool in
  let tokenPool_ := new_BigNumber tokenPool in
  let decimals_ := new_BigNumber decimals in
  if gtZero xtzPool_ && gtZero tokenPool_ && geqZero decimals_ then
    let xtzPool__ := BN.times xtzPool_ (Math_pow10 (BN.of_Z (-6))) in
    let tokenPool__ :=
      BN.times tokenPool_ (Math_pow10 (BN.negated decimals_)) in
    Some (BN.dividedBy tokenPool__ xtzPool__)
  else None.

(** The net proceeds xtzToTokenPriceImpact tests against zero. *)
Definition xtzToToken_tokensBought
  (xtzIn_ xtzPool_ tokenPool_ : BN.t) (burn : Z) : BN.t :=
  let xtzInNetBurn :=
    BN.dividedBy (BN.times xtzIn_ (BN.of_Z burn)) (BN.of_Z 1000) in
  BN.dividedBy (BN.times xtzInNetBurn tokenPool_)
               (BN.plus xtzInNetBurn xtzPool_).

Definition xtzToTokenPriceImpact
  (xtzIn xtzPool tokenPool : BN.t) (burnPercent : Q) : option BN.t :=
  let burn := multiplier_of burnPercent in
  let xtzIn_ := new_BigNumber xtzIn in
  let xtzPool_ := new_BigNumber xtzPool in
  let tokenPool_ := new_BigNumber tokenPool in
  let xtzPool_ := if isLbContract then creditSubsidy xtzPool_ else xtzPool_ in
  if gtZero xtzIn_ && gtZero xtzPool_ && gtZero tokenPool_ then
    let midPrice := BN.times tokenPool_ xtzPool_ in
    let tokensBought :=
      xtzToToken_tokensBought xtzIn_ xtzPool_ tokenPool_ burn in
    if leqZero tokensBought then Some (BN.of_Z 0)
    else
      let exactQuote := BN.times midPrice xtzIn_ in
      Some (BN.dividedBy (BN.minus exactQuote tokensBought) exactQuote)
  else None.

(** [tokenOut > 0] is a comparison of JS numbers, [allowedSlippage * 1000
    * 100] a product of doubles, taken from the left. *)
Definition xtzToTokenMinimumTokenOutput
  (tokenOut : BN.t) (allowedSlippage : Q) : option BN.t :=
  if Number_gtZero tokenOut
     && Qle_bool 0 allowedSlippage && Qle_bool allowedSlippage 1 then
    let tokenOut_ := BN.times (new_BigNumber tokenOut) (BN.of_Z 1000) in
    let allowedSlippage_ :=
      BN.of_Z (Math_floor
                 (Double.times (Double.times allowedSlippage (1000 # 1))
                               (100 # 1))) in
    let result :=
      BN.dividedBy
        (BN.minus tokenOut_
           (BN.dividedBy (BN.times tokenOut_ allowedSlippage_)
                         (BN.of_Z 100000)))
        (BN.of_Z 1000) in
    Some (BN.maximum result (BN.of_Z 1))
  else None.

Definition totalLiquidityProviderFee (xtzIn : BN.t) : option BN.t :=
  let xtzIn_ := new_BigNumber xtzIn in
  if gtZero xtzIn_ then
    Some (BN.dividedBy (BN.times (new_BigNumber xtzIn_) (BN.of_Z 1))
                       (BN.of_Z 1000))
  else None.

Definition liquidityProviderFee
  (xtzIn totalLiquidity userLiquidity : BN.t) : option BN.t :=
  let xtzIn_ := new_BigNumber xtzIn in
  let totalLiquidity_ := new_BigNumber totalLiquidity in
  let userLiquidity_ := new_BigNumber userLiquidity in
  if gtZero xtzIn_ && gtZero totalLiquidity_ && gtZero userLiquidity_ then
    match totalLiquidityProviderFee xtzIn_ with
    | None => None
    | Some fee =>
        Some (BN.dividedBy fee (BN.dividedBy totalLiquidity_ userLiquidity_))
    end
  else None.

(** *** tokenToXtz *)

(** The sign test reads the credited [xtzPool_]; the quotient is built from
    the arguments themselves ([new BigNumber(xtzPool)]). *)
Definition tokenToXtzXtzOutput
  (tokenIn xtzPool tokenPool : BN.t) (feePercent burnPercent : Q)
  : option BN.t :=
  let fee := multiplier_of feePercent in
  let burn := multiplier_of burnPercent in
  let feeAndBurnMultiplier := number_times fee burn in
  let feeMultiplier := number_times fee 1000 in
  let tokenIn_ := new_BigNumber tokenIn in
  let xtzPool_ := new_BigNumber xtzPool in
  let tokenPool_ := new_BigNumber tokenPool in
  let xtzPool_ := if isLbContract then creditSubsidy xtzPool_ else xtzPool_ in
  if gtZero tokenIn_ && gtZero xtzPool_ && gtZero tokenPool_ then
    let numerator :=
      BN.times (BN.times (new_BigNumber tokenIn) (new_BigNumber xtzPool))
               feeAndBurnMultiplier in
    let denominator :=
      BN.plus (BN.times (new_BigNumber tokenPool) (BN.of_Z 1000000))
              (BN.times (new_BigNumber tokenIn) feeMultiplier) in
    Some (BN.dividedBy numerator denominator)
  else None.

(** The quotient computed by tokenToXtzTokenInput before its sign test. *)
Definition tokenToXtzTokenInput_result
  (xtzOut_ xtzPool_ tokenPool_ decimals_ feeMultiplier feeAndBurnMultiplier
   : BN.t) : BN.t :=
  BN.dividedBy
    (BN.times
       (BN.times (BN.times tokenPool_ xtzOut_) (BN.of_Z 1000000))
       (Math_pow10 decimals_))
    (BN.times
       (BN.minus (BN.times xtzPool_ feeMultiplier)
                 (BN.times xtzOut_ feeAndBurnMultiplier))
       (Math_pow10 decimals_)).

Definition tokenToXtzTokenInput
  (xtzOut xtzPool tokenPool decimals : BN.t) (feePercent burnPercent : Q)
  : option BN.t :=
  let fee := multiplier_of feePercent in
  let burn := multiplier_of burnPercent in
  let feeAndBurnMultiplier := number_times fee burn in
  let feeMultiplier := number_times fee 1000 in
  let xtzOut_ := new_BigNumber xtzOut in
  let xtzPool_ := new_BigNumber xtzPool in
  let tokenPool_ := new_BigNumber tokenPool in
  let decimals_ := new_BigNumber decimals in
  let xtzPool_ := if isLbContract then creditSubsidy xtzPool_ else xtzPool_ in
  if gtZero xtzOut_ && gtZero xtzPool_ && gtZero tokenPool_
     && geqZero decimals_ then
    let result :=
      tokenToXtzTokenInput_result
        xtzOut_ xtzPool_ tokenPool_ decimals_
        feeMultiplier feeAndBurnMultiplier in
    if gtZero result then Some result else None
  else None.

Definition tokenToXtzExchangeRate
  (tokenIn xtzPool tokenPool : BN.t) (feePercent burnPercent : Q)
  : option BN.t :=
  let tokenIn_ := new_BigNumber tokenIn in
  let xtzPool_ := new_BigNumber xtzPool in
  let tokenPool_ := new_BigNumber tokenPool in
  if gtZero tokenIn_ && gtZero xtzPool_ && gtZero tokenPool_ then
    match tokenToXtzXtzOutput tokenIn_ xtzPool_ tokenPool_
            feePercent burnPercent with
    | None => None
    | Some tokenOutput => Some (BN.dividedBy tokenOutput tokenIn_)
    end
  else None.

(** [decimals] is used raw here: [Math.pow(10, -decimals.toNumber())]. *)
Definition tokenToXtzExchangeRateForDisplay
  (tokenIn xtzPool tokenPool decimals : BN.t) (feePercent burnPercent : Q)
  : option BN.t :=
  let tokenIn_ := new_BigNumber tokenIn in
  let xtzPool_ := new_BigNumber xtzPool in
  let tokenPool_ := new_BigNumber tokenPool in
  if gtZero tokenIn_ && gtZero xtzPool_ && gtZero tokenPool_ then
    match tokenToXtzXtzOutput tokenIn_ xtzPool_ tokenPool_
            feePercent burnPercent with
    | None => None
    | Some tokenOutput =>
        Some (BN.dividedBy
                (BN.times tokenOutput (Math_pow10 (BN.of_Z (-6))))
                (BN.times tokenIn_ (Math_pow10 (BN.negated decimals))))
    end
  else None.

Definition tokenToXtzMarketRate
  (xtzPool tokenPool decimals : BN.t) : option BN.t :=
  let xtzPool_ := new_BigNumber xtzPool in
  let tokenPool_ := new_BigNumber tokenPool in
  let decimals_ := new_BigNumber decimals in
  if gtZero xtzPool_ && gtZero tokenPool_ && geqZero decimals_ then
    let xtzPool__ := BN.times xtzPool_ (Math_pow10 (BN.of_Z (-6))) in
    let tokenPool__ :=
      BN.times tokenPool_ (Math_pow10 (BN.negated decimals_)) in
    Some (BN.dividedBy xtzPool__ tokenPool__)
  else None.

(** The net proceeds tokenToXtzPriceImpact tests against zero. *)
Definition tokenToXtz_xtzBoughtNetBurn
  (tokenIn_ xtzPool_ tokenPool_ : BN.t) (burn : Z) : BN.t :=
  let xtzBought :=
    BN.dividedBy (BN.times tokenIn_ xtzPool_) (BN.plus tokenIn_ tokenPool_) in
  BN.dividedBy (BN.times xtzBought (BN.of_Z burn)) (BN.of_Z 1000).

Definition tokenToXtzPriceImpact
  (tokenIn xtzPool tokenPool : BN.t) (burnPercent : Q) : option BN.t :=
  let burn := multiplier_of burnPercent in
  let tokenIn_ := new_BigNumber tokenIn in
  let xtzPool_ := new_BigNumber xtzPool in
  let tokenPool_ := new_BigNumber tokenPool in
  let xtzPool_ := if isLbContract then creditSubsidy xtzPool_ else xtzPool_ in
  if gtZero tokenIn_ && gtZero xtzPool_ && gtZero tokenPool_ then
    let midPrice := BN.dividedBy xtzPool_ tokenPool_ in
    let xtzBoughtNetBurn :=
      tokenToXtz_xtzBoughtNetBurn tokenIn_ xtzPool_ tokenPool_ burn in
    if leqZero xtzBoughtNetBurn then Some (BN.of_Z 0)
    else
      let exactQuote := BN.times midPrice tokenIn_ in
      Some (BN.dividedBy (BN.minus exactQuote xtzBoughtNetBurn) exactQuote)
  else None.

(** Here the amount is tested as a BigNumber, [gtZero(new
    BigNumber(xtzOut))]; the slippage product is again one of doubles. *)
Definition tokenToXtzMinimumXtzOutput
  (xtzOut : BN.t) (allowedSlippage : Q) : option BN.t :=
  if gtZero (new_BigNumber xtzOut)
     && Qle_bool 0 allowedSlippage && Qle_bool allowedSlippage 1 then
    let xtzOut_ := BN.times (new_BigNumber xtzOut) (BN.of_Z 1000) in
    let allowedSlippage_ :=
      BN.of_Z (Math_floor
                 (Double.times (Double.times allowedSlippage (1000 # 1))
                               (100 # 1))) in
    let result :=
      BN.dividedBy
        (BN.minus xtzOut_
           (BN.dividedBy (BN.times xtzOut_ allowedSlippage_)
                         (BN.of_Z 100000)))
        (BN.of_Z 1000) in
    Some (BN.maximum result (BN.of_Z 1))
  else None.

(** *** addLiquidity *)

(** The two branches of addLiquidityLiquidityCreated, as written: both read
    the arguments, not the credited pool. *)
Definition liquidityCreated_zero_branch
  (xtzIn xtzPool totalLiquidity : BN.t) : BN.t :=
  BN.dividedBy (BN.times (new_BigNumber xtzIn) (new_BigNumber totalLiquidity))
               (new_BigNumber xtzPool).

Definition liquidityCreated_positive_branch
  (xtzIn xtzPool totalLiquidity : BN.t) : BN.t :=
  BN.dividedBy (BN.times (new_BigNumber xtzIn) (new_BigNumber totalLiquidity))
               (new_BigNumber xtzPool).

Definition addLiquidityLiquidityCreated
  (xtzIn xtzPool totalLiquidity : BN.t) : option BN.t :=
  let xtzIn_ := new_BigNumber xtzIn in
  let xtzPool_ := new_BigNumber xtzPool in
  let totalLiquidity_ := new_BigNumber totalLiquidity in
  let xtzPool_ := if isLbContract then creditSubsidy xtzPool_ else xtzPool_ in
  if gtZero xtzIn_ && gtZero xtzPool_ then
    if eqZero totalLiquidity_ then
      Some (liquidityCreated_zero_branch xtzIn xtzPool totalLiquidity)
    else if gtZero totalLiquidity_ then
      Some (liquidityCreated_positive_branch xtzIn xtzPool totalLiquidity)
    else None
  else None.

Definition addLiquidityTokenIn
  (xtzIn xtzPool tokenPool : BN.t) : option BN.t :=
  let xtzIn_ := new_BigNumber xtzIn in
  let xtzPool_ := new_BigNumber xtzPool in
  let tokenPool_ := new_BigNumber tokenPool in
  let xtzPool_ := if isLbContract then creditSubsidy xtzPool_ else xtzPool_ in
  if gtZero xtzIn_ && gtZero xtzPool_ && gtZero tokenPool_ then
    Some (ceilingDiv (BN.times xtzIn_ tokenPool_) xtzPool_)
  else None.

Definition addLiquidityXtzIn
  (tokenIn xtzPool tokenPool : BN.t) : option BN.t :=
  let tokenIn_ := new_BigNumber tokenIn in
  let xtzPool_ := new_BigNumber xtzPool in
  let tokenPool_ := new_BigNumber tokenPool in
  let xtzPool_ := if isLbContract then creditSubsidy xtzPool_ else xtzPool_ in
  if gtZero tokenIn_ && gtZero xtzPool_ && gtZero tokenPool_ then
    Some (BN.dividedBy (BN.times tokenIn_ xtzPool_) tokenPool_)
  else None.

(** *** removeLiquidity *)

Definition removeLiquidityTokenOut
  (liquidityBurned totalLiquidity tokenPool : BN.t) : option BN.t :=
  let liquidityBurned_ := new_BigNumber liquidityBurned in
  let totalLiquidity_ := new_BigNumber totalLiquidity in
  let tokenPool_ := new_BigNumber tokenPool in
  if gtZero liquidityBurned_ && gtZero totalLiquidity_ && gtZero tokenPool_
  then Some (BN.dividedBy (BN.times tokenPool_ liquidityBurned_)
                          totalLiquidity_)
  else None.

Definition removeLiquidityXtzOut
  (liquidityBurned totalLiquidity xtzPool : BN.t) : option BN.t :=
  let liquidityBurned_ := new_BigNumber liquidityBurned in
  let totalLiquidity_ := new_BigNumber totalLiquidity in
  let xtzPool_ := new_BigNumber xtzPool in
  let xtzPool_ := if isLbContract then creditSubsidy xtzPool_ else xtzPool_ in
  if gtZero liquidityBurned_ && gtZero totalLiquidity_ && gtZero xtzPool_
  then Some (BN.dividedBy (BN.times xtzPool_ liquidityBurned_)
                          totalLiquidity_)
  else None.

End DexCalculations.

(** ** The closure of index-raw.js

    index-raw.js holds the same functions outside a class: the flag is
    their last parameter, [includeSubsidy], and every body is the text of
    index.ts but that of xtzToTokenTokenOutput, whose two multipliers are
    computed without the test for a missing percentage.  The three
    functions below are the ones whose calls reach that body. *)

Module Raw.

Definition xtzToTokenTokenOutput
  (xtzIn xtzPool tokenPool : BN.t) (feePercent burnPercent : Q)
  (includeSubsidy : bool) : option BN.t :=
  let xtzPool :=
    if includeSubsidy then creditSubsidy (new_BigNumber xtzPool)
    else xtzPool in
  let fee := multiplier_of feePercent in
  let burn := multiplier_of burnPercent in
  let feeMultiplier := number_times fee burn in
  let xtzIn_ := new_BigNumber xtzIn in
  let xtzPool_ := new_BigNumber xtzPool in
  let tokenPool_ := new_BigNumber tokenPool in
  if gtZero xtzIn_ && gtZero xtzPool_ && gtZero tokenPool_ then
    let numerator := BN.times (BN.times xtzIn_ tokenPool_) feeMultiplier in
    let denominator :=
      BN.plus (BN.times xtzPool_ (BN.of_Z 1000000))
              (BN.times xtzIn_ feeMultiplier) in
    Some (BN.dividedBy numerator denominator)
  else None.

Definition xtzToTokenExchangeRate
  (xtzIn xtzPool tokenPool : BN.t) (feePercent burnPercent : Q)
  (includeSubsidy : bool) : option BN.t :=
  let xtzIn_ := new_BigNumber xtzIn in
  let xtzPool_ := new_BigNumber xtzPool in
  let tokenPool_ := new_BigNumber tokenPool in
  if gtZero xtzIn_ && gtZero xtzPool_ && gtZero tokenPool_ then
    match xtzToTokenTokenOutput xtzIn_ xtzPool_ tokenPool_
            feePercent burnPercent includeSubsidy with
    | None => None
    | Some tokenOutput => Some (BN.dividedBy tokenOutput xtzIn_)
    end
  else None.

Definition xtzToTokenExchangeRateForDisplay
  (xtzIn xtzPool tokenPool decimals : BN.t) (feePercent burnPercent : Q)
  (includeSubsidy : bool) : option BN.t :=
  let xtzIn_ := new_BigNumber xtzIn in
  let xtzPool_ := new_BigNumber xtzPool in
  let tokenPool_ := new_BigNumber tokenPool in
  if gtZero xtzIn_ && gtZero xtzPool_ && gtZero tokenPool_ then
    match xtzToTokenTokenOutput xtzIn_ xtzPool_ tokenPool_
            feePercent burnPercent includeSubsidy with
    | None => None
    | Some tokenOutput =>
        Some (BN.dividedBy
                (BN.times tokenOutput (Math_pow10 (BN.negated decimals)))
                (BN.times xtzIn_ (Math_pow10 (BN.of_Z (-6)))))
    end
  else None.

End Raw.

(** ** Results

    A call returns a BigNumber or [null]; [null] is [None]. *)

Definition result_eqb (r s : option BN.t) : bool :=
  match r, s with
  | None, None => true
  | Some x, Some y => BN.eqb x y
  | _, _ => false
  end.

Definition result_eq (r s : option BN.t) : Prop :=
  match r, s with
  | None, None => True
  | Some x, Some y => BN.eq x y
  | _, _ => False
  end.

(** The XTZ pool a function validates: the argument, credited when the
    subsidy flag is set. *)
Definition credited (isLbContract : bool) (xtzPool : BN.t) : BN.t :=
  if isLbContract then creditSubsidy xtzPool else xtzPool.

(** The same pool as a rational, for a finite non-negative argument. *)
Definition credited_Q (isLbContract : bool) (xtzPool : Q) : Q :=
  if isLbContract then xtzPool + inject_Z 2500000 else xtzPool.

(** A magnitude that [dividedBy] returns unchanged: at most 20 decimals. *)
Definition representable (q : Q) : Prop := BN.round_half_up q == q.

(** The floor of a returned value. *)
Definition result_floor (r : option BN.t) : option Z :=
  match r with
  | Some x => BN.floor x
  | None => None
  end.

(** A finite value with its magnitude multiplied by [k]: what [times] by a
    positive finite power of ten makes of a value. *)
Definition scale_by (k : Q) (x : BN.t) : BN.t :=
  match x with
  | BN.NaN => BN.NaN
  | BN.Infinity a => BN.Infinity a
  | BN.Finite a m => BN.Finite a (m * k)
  end.

(** A value that is NaN or carries the sign [s] (with a magnitude that is
    not negative). *)
Definition signed (s : bool) (x : BN.t) : Prop :=
  match x with
  | BN.NaN => True
  | BN.Infinity a => a = s
  | BN.Finite a m => a = s /\ 0 <= m
  end.

(** [Math.floor(allowedSlippage * 1000 * 100)]: the slippage in units of
    1/100000, as both minimum-output functions compute it. *)
Definition slippage_units (allowedSlippage : Q) : Z :=
  Math_floor
    (Double.times (Double.times allowedSlippage (1000 # 1)) (100 # 1)).

(** ** Facts about doubles *)

Lemma double_pow2_pos (k : Z) : 0 < Double.pow2 k.
Proof. apply Qpower_0_lt. reflexivity. Qed.

Lemma double_pow2_le (a b : Z) : (a <= b)%Z -> Double.pow2 a <= Double.pow2 b.
Proof. intros H. apply Qpower_le_compat_l; [exact H | discriminate]. Qed.

Lemma double_pow2_lt (a b : Z) : (a < b)%Z -> Double.pow2 a < Double.pow2 b.
Proof. intros H. apply Qpower_lt_compat_l; [exact H | reflexivity]. Qed.

Lemma double_pow2_succ (a : Z) : Double.pow2 (a + 1) == 2 * Double.pow2 a.
Proof.
  unfold Double.pow2. rewrite Qpower_plus by discriminate.
  rewrite Qpower_1_r. ring.
Qed.

Lemma double_pow2_minus (a b : Z) :
  Double.pow2 (a - b) == Double.pow2 a / Double.pow2 b.
Proof. apply Qpower_minus. discriminate. Qed.

Lemma double_pow2_log2 (n : Z) :
  (0 < n)%Z ->
  Double.pow2 (Z.log2 n) <= inject_Z n
  /\ inject_Z n < 2 * Double.pow2 (Z.log2 n).
Proof.
  intros H. destruct (Z.log2_spec n H) as [L U].
  pose proof (Z.log2_nonneg n) as P.
  assert (E : Double.pow2 (Z.log2 n) == inject_Z (2 ^ Z.log2 n)).
  { unfold Double.pow2. rewrite Zpower_Qpower by exact P. reflexivity. }
  split.
  - rewrite E. now rewrite <- Zle_Qle.
  - rewrite <- double_pow2_succ.
    assert (E' : Double.pow2 (Z.log2 n + 1)
                 == inject_Z (2 ^ Z.succ (Z.log2 n))).
    { unfold Double.pow2, Z.succ. rewrite Zpower_Qpower by lia.
      reflexivity. }
    rewrite E'. now rewrite <- Zlt_Qlt.
Qed.

(** The exponent of a positive rational: 2^e <= q < 2^(e+1). *)
Lemma double_exponent_spec (q : Q) :
  0 < q ->
  Double.pow2 (Double.exponent q) <= q
  /\ q < Double.pow2 (Double.exponent q + 1).
Proof.
  intros H. destruct q as [a b].
  assert (Ha : (0 < a)%Z).
  { unfold Qlt in H. cbn [Qnum Qden] in H. lia. }
  destruct (double_pow2_log2 a Ha) as [La Ua].
  destruct (double_pow2_log2 (Z.pos b) eq_refl) as [Lb Ub].
  pose proof (double_pow2_pos (Z.log2 a)) as Pa.
  pose proof (double_pow2_pos (Z.log2 (Z.pos b))) as Pb.
  assert (PB : 0 < inject_Z (Z.pos b)) by reflexivity.
  unfold Double.exponent. cbn [Qnum Qden].
  set (e := (Z.log2 a - Z.log2 (Z.pos b))%Z).
  assert (Ee : Double.pow2 e
               == Double.pow2 (Z.log2 a) / Double.pow2 (Z.log2 (Z.pos b)))
    by apply double_pow2_minus.
  assert (Eq : a # b == inject_Z a / inject_Z (Z.pos b))
    by apply Qmake_Qdiv.
  set (A := inject_Z a) in *. set (B := inject_Z (Z.pos b)) in *.
  set (PA := Double.pow2 (Z.log2 a)) in *.
  set (PBq := Double.pow2 (Z.log2 (Z.pos b))) in *.
  destruct (Qle_bool (Double.pow2 e) (a # b)) eqn:C.
  - apply Qle_bool_iff in C. split; [exact C |].
    rewrite double_pow2_succ, Ee, Eq.
    apply Qlt_shift_div_r; [exact PB |].
    assert (E1 : 2 * (PA / PBq) * B == 2 * PA * B / PBq) by (field; lra).
    rewrite E1. apply Qlt_shift_div_l; [exact Pb |].
    assert (0 < (2 * PA - A) * PBq) by (apply Qmult_lt_0_compat; lra).
    assert (0 <= 2 * PA * (B - PBq)) by (apply Qmult_le_0_compat; lra).
    lra.
  - assert (C' : a # b < Double.pow2 e).
    { apply Qnot_le_lt. intros N. apply Qle_bool_iff in N. congruence. }
    split.
    + assert (E2 : Double.pow2 (e - 1) == PA / (2 * PBq)).
      { assert (E3 : Double.pow2 e == 2 * Double.pow2 (e - 1)).
        { rewrite <- double_pow2_succ. now replace (e - 1 + 1)%Z with e by lia. }
        rewrite Ee in E3.
        assert (Double.pow2 (e - 1) == PA / PBq / 2) by (rewrite E3; field).
        rewrite H0. field. lra. }
      rewrite E2, Eq.
      apply Qle_shift_div_l; [exact PB |].
      assert (E1 : PA / (2 * PBq) * B == PA * B / (2 * PBq))
        by (field; lra).
      rewrite E1. apply Qle_shift_div_r; [lra |].
      assert (0 <= PA * (2 * PBq - B)) by (apply Qmult_le_0_compat; lra).
      assert (0 <= (A - PA) * (2 * PBq))
        by (apply Qmult_le_0_compat; lra).
      lra.
    + now replace (e - 1 + 1)%Z with e by lia.
Qed.

Lemma double_exponent_mono (q q' : Q) :
  0 < q -> q <= q' -> (Double.exponent q <= Double.exponent q')%Z.
Proof.
  intros P L.
  destruct (double_exponent_spec q P) as [A _].
  destruct (double_exponent_spec q') as [_ B]; [lra |].
  assert (H : Double.pow2 (Double.exponent q)
              < Double.pow2 (Double.exponent q' + 1)) by lra.
  apply Qpower_lt_compat_l_inv in H; [lia | reflexivity].
Qed.

Lemma double_nearest_even_mono (m m' : Q) :
  m <= m' -> (Double.nearest_even m <= Double.nearest_even m')%Z.
Proof.
  intros H. pose proof (Qfloor_resp_le m m' H) as F.
  unfold Double.nearest_even.
  pose proof (Qfloor_le m) as L. pose proof (Qlt_floor m) as U.
  pose proof (Qfloor_le m') as L'. pose proof (Qlt_floor m') as U'.
  rewrite inject_Z_plus in U, U'. change (inject_Z 1) with 1 in U, U'.
  set (n := Qfloor m) in *. set (n' := Qfloor m') in *.
  clearbody n n'.
  destruct (Z.eq_dec n n') as [E | N].
  - rewrite <- E in *. clear E F.
    destruct (Qcompare (m - inject_Z n) (1 # 2)) eqn:C;
      destruct (Qcompare (m' - inject_Z n) (1 # 2)) eqn:C';
      first [apply Qeq_alt in C | apply Qlt_alt in C | apply Qgt_alt in C];
      first [apply Qeq_alt in C' | apply Qlt_alt in C'
            | apply Qgt_alt in C'];
      try (exfalso; lra); destruct (Z.even n); lia.
  - assert (n + 1 <= n')%Z by lia.
    destruct (Qcompare (m - inject_Z n) (1 # 2));
      destruct (Qcompare (m' - inject_Z n') (1 # 2));
      destruct (Z.even n); destruct (Z.even n'); lia.
Qed.

Lemma double_nearest_even_Z (z : Z) : Double.nearest_even (inject_Z z) = z.
Proof.
  unfold Double.nearest_even. rewrite Qfloor_Z.
  destruct (Qcompare (inject_Z z - inject_Z z) (1 # 2)) eqn:C.
  - apply Qeq_alt in C. exfalso. lra.
  - reflexivity.
  - apply Qgt_alt in C. exfalso. lra.
Qed.

Lemma double_nearest_even_comp (m m' : Q) :
  m == m' -> Double.nearest_even m = Double.nearest_even m'.
Proof.
  intros E. apply Z.le_antisymm; apply double_nearest_even_mono; lra.
Qed.

Lemma double_pow2_grid (u e : Z) :
  (u <= e)%Z -> Double.pow2 e == inject_Z (2 ^ (e - u)) * Double.pow2 u.
Proof.
  intros H. rewrite Zpower_Qpower by lia.
  change (inject_Z 2 ^ (e - u)) with (Double.pow2 (e - u)).
  rewrite double_pow2_minus. field.
  pose proof (double_pow2_pos u). lra.
Qed.

(** A point of the grid that the rounding of [q] uses bounds it. *)
Lemma double_round_pos_le_grid (q : Q) (z : Z) :
  q <= inject_Z z * Double.pow2 (Double.ulp q) ->
  Double.round_pos q <= inject_Z z * Double.pow2 (Double.ulp q).
Proof.
  intros H. pose proof (double_pow2_pos (Double.ulp q)) as P.
  unfold Double.round_pos.
  apply Qmult_le_compat_r; [|lra].
  rewrite <- Zle_Qle.
  apply Z.le_trans with (Double.nearest_even (inject_Z z));
    [|rewrite double_nearest_even_Z; lia].
  apply double_nearest_even_mono. apply Qle_shift_div_r; assumption.
Qed.

Lemma double_round_pos_ge_grid (q : Q) (z : Z) :
  inject_Z z * Double.pow2 (Double.ulp q) <= q ->
  inject_Z z * Double.pow2 (Double.ulp q) <= Double.round_pos q.
Proof.
  intros H. pose proof (double_pow2_pos (Double.ulp q)) as P.
  unfold Double.round_pos.
  apply Qmult_le_compat_r; [|lra].
  rewrite <- Zle_Qle.
  apply Z.le_trans with (Double.nearest_even (inject_Z z));
    [rewrite double_nearest_even_Z; lia |].
  apply double_nearest_even_mono. apply Qle_shift_div_l; assumption.
Qed.

Lemma double_ulp_le_exponent (q : Q) :
  (-1074 <= Double.exponent q)%Z -> (Double.ulp q <= Double.exponent q)%Z.
Proof. unfold Double.ulp. lia. Qed.

Lemma double_round_pos_mono (q q' : Q) :
  0 < q -> q <= q' -> Double.round_pos q <= Double.round_pos q'.
Proof.
  intros P L. assert (P' : 0 < q') by lra.
  pose proof (double_exponent_mono q q' P L) as E.
  destruct (double_exponent_spec q P) as [A B].
  destruct (double_exponent_spec q' P') as [A' B'].
  destruct (Z.eq_dec (Double.ulp q) (Double.ulp q')) as [U | U].
  - unfold Double.round_pos. rewrite <- U.
    pose proof (double_pow2_pos (Double.ulp q)) as K.
    apply Qmult_le_compat_r; [|lra].
    rewrite <- Zle_Qle. apply double_nearest_even_mono.
    apply Qle_shift_div_l; [exact K |].
    assert (X : q / Double.pow2 (Double.ulp q) * Double.pow2 (Double.ulp q)
                == q) by (field; lra).
    rewrite X. exact L.
  - assert (Ue : (Double.ulp q < Double.ulp q')%Z)
      by (unfold Double.ulp in *; lia).
    assert (Ee : (Double.exponent q + 1 <= Double.exponent q')%Z)
      by (unfold Double.ulp in *; lia).
    assert (U' : (Double.ulp q' <= Double.exponent q')%Z)
      by (unfold Double.ulp in *; lia).
    pose proof (double_pow2_le _ _ Ee) as M.
    apply Qle_trans with (Double.pow2 (Double.exponent q')).
    + rewrite (double_pow2_grid (Double.ulp q)) by lia.
      apply double_round_pos_le_grid.
      rewrite <- (double_pow2_grid (Double.ulp q)) by lia. lra.
    + rewrite (double_pow2_grid (Double.ulp q')) by lia.
      apply double_round_pos_ge_grid.
      rewrite <- (double_pow2_grid (Double.ulp q')) by lia. lra.
Qed.

Lemma double_round_pos_nonneg (q : Q) : 0 < q -> 0 <= Double.round_pos q.
Proof.
  intros P. pose proof (double_pow2_pos (Double.ulp q)) as K.
  apply Qle_trans with (inject_Z 0 * Double.pow2 (Double.ulp q));
    [change (inject_Z 0) with 0; lra |].
  apply double_round_pos_ge_grid. change (inject_Z 0) with 0. lra.
Qed.

Lemma double_round_zero (q : Q) : q == 0 -> Double.round q = 0.
Proof.
  intros E. unfold Double.round.
  now rewrite (proj1 (Qeq_alt q 0) E).
Qed.

Lemma double_round_positive (q : Q) : 0 < q -> Double.round q = Double.round_pos q.
Proof.
  intros P. unfold Double.round.
  now rewrite (proj1 (Qgt_alt q 0) P).
Qed.

(** Rounding to the nearest double is monotone on non-negative numbers. *)
Lemma double_round_mono (q q' : Q) :
  0 <= q -> q <= q' -> Double.round q <= Double.round q'.
Proof.
  intros P L.
  destruct (Qeq_dec q 0) as [Z | N].
  - rewrite (double_round_zero q Z).
    destruct (Qeq_dec q' 0) as [Z' | N'].
    + rewrite (double_round_zero q' Z'). lra.
    + rewrite double_round_positive by lra. apply double_round_pos_nonneg. lra.
  - rewrite !double_round_positive by lra. apply double_round_pos_mono; lra.
Qed.

Lemma double_round_nonneg (q : Q) : 0 <= q -> 0 <= Double.round q.
Proof.
  intros P. rewrite <- (double_round_zero 0) at 1 by reflexivity.
  now apply double_round_mono.
Qed.

Lemma double_round_comp (q q' : Q) :
  0 <= q -> q == q' -> Double.round q == Double.round q'.
Proof.
  intros P E. apply Qle_antisym; apply double_round_mono; lra.
Qed.

(** A double of at least 2^-1074, the smallest positive one, is not rounded
    to zero. *)
Lemma double_round_pos_positive (q : Q) :
  Double.pow2 (-1074) <= q -> 0 < Double.round q.
Proof.
  intros H. pose proof (double_pow2_pos (-1074)) as K.
  assert (P : 0 < q) by lra.
  rewrite double_round_positive by exact P.
  destruct (double_exponent_spec q P) as [A _].
  pose proof (double_pow2_pos (Double.ulp q)) as U.
  apply Qlt_le_trans with (inject_Z 1 * Double.pow2 (Double.ulp q));
    [change (inject_Z 1) with 1; lra |].
  apply double_round_pos_ge_grid. change (inject_Z 1) with 1.
  rewrite Qmult_1_l. unfold Double.ulp.
  destruct (Z.max_spec (Double.exponent q - 52) (-1074)) as [[_ ->] | [_ ->]].
  - exact H.
  - apply Qle_trans with (Double.pow2 (Double.exponent q)); [|exact A].
    apply double_pow2_le. lia.
Qed.

(** ** Facts about the BigNumber model *)

Lemma BN_eqb_eq (x y : BN.t) : BN.eqb x y = true <-> BN.eq x y.
Proof.
  destruct x as [|a|a m], y as [|b|b n]; simpl;
    try (split; [discriminate | contradiction]); try tauto.
  - rewrite Bool.eqb_true_iff. tauto.
  - rewrite andb_true_iff, Bool.eqb_true_iff.
    unfold BN.Qeqb. rewrite Qeq_bool_iff. tauto.
Qed.

Lemma result_eqb_eq (r s : option BN.t) :
  result_eqb r s = true <-> result_eq r s.
Proof.
  destruct r, s; simpl; try (split; [discriminate | contradiction]).
  - apply BN_eqb_eq.
  - tauto.
Qed.

Lemma BN_eq_refl (x : BN.t) : BN.eq x x.
Proof. destruct x; simpl; auto. split; [reflexivity | apply Qeq_refl]. Qed.

Lemma BN_eq_sym (x y : BN.t) : BN.eq x y -> BN.eq y x.
Proof.
  destruct x, y; simpl; auto.
  intros [-> H]. split; [reflexivity | symmetry; exact H].
Qed.

Lemma BN_eq_trans (x y z : BN.t) : BN.eq x y -> BN.eq y z -> BN.eq x z.
Proof.
  destruct x, y, z; simpl; try tauto; try congruence.
  intros [-> H1] [-> H2]. split; [reflexivity | now rewrite H1].
Qed.

Lemma result_eq_refl (r : option BN.t) : result_eq r r.
Proof. destruct r; simpl; auto using BN_eq_refl. Qed.

Lemma result_eq_sym (r s : option BN.t) : result_eq r s -> result_eq s r.
Proof. destruct r, s; simpl; auto using BN_eq_sym. Qed.

Lemma result_eq_trans (r s u : option BN.t) :
  result_eq r s -> result_eq s u -> result_eq r u.
Proof. destruct r, s, u; simpl; try tauto. apply BN_eq_trans. Qed.

Lemma of_Q_nonneg (q : Q) : 0 <= q -> BN.of_Q q = BN.Finite false q.
Proof.
  intros H. unfold BN.of_Q.
  destruct (Qle_bool 0 q) eqn:E; [reflexivity |].
  apply Qle_bool_iff in H. congruence.
Qed.

Lemma of_Z_nonneg (z : Z) : (0 <= z)%Z -> BN.of_Z z = BN.Finite false (inject_Z z).
Proof.
  intros H. apply of_Q_nonneg.
  change 0 with (inject_Z 0). now rewrite <- Zle_Qle.
Qed.

Lemma is_zero_mag_false (m : Q) : ~ m == 0 -> BN.is_zero_mag m = false.
Proof.
  intros H. unfold BN.is_zero_mag, BN.Qeqb.
  destruct (Qeq_bool m 0) eqn:E; [|reflexivity].
  apply Qeq_bool_iff in E. contradiction.
Qed.

Lemma is_zero_mag_pos (m : Q) : 0 < m -> BN.is_zero_mag m = false.
Proof. intros H. apply is_zero_mag_false. lra. Qed.

Lemma is_zero_mag_true (m : Q) : m == 0 -> BN.is_zero_mag m = true.
Proof. intros H. apply Qeq_bool_iff. exact H. Qed.

Lemma gtZero_Finite (s : bool) (m : Q) :
  gtZero (BN.Finite s m) = true <-> 0 < BN.value s m.
Proof.
  unfold gtZero, BN.isGreaterThan. simpl.
  change (inject_Z 0) with 0.
  destruct (BN.value s m ?= 0) eqn:E.
  - apply Qeq_alt in E. split; intros H; [discriminate H | lra].
  - apply Qlt_alt in E. split; intros H; [discriminate H | lra].
  - apply Qgt_alt in E. split; intros H; [lra | reflexivity].
Qed.

Lemma gtZero_pos (m : Q) : 0 < m -> gtZero (BN.Finite false m) = true.
Proof. intros H. now apply gtZero_Finite. Qed.

Lemma gtZero_Finite_false (s : bool) (m : Q) :
  BN.value s m <= 0 -> gtZero (BN.Finite s m) = false.
Proof.
  intros H. destruct (gtZero (BN.Finite s m)) eqn:E; [|reflexivity].
  apply gtZero_Finite in E. lra.
Qed.

(** The result of a rounding, in integer units of 1e-20. *)
Lemma round_half_up_units (m : Q) :
  BN.round_half_up m * (Z.pos BN.scale # 1)
  == inject_Z (Qfloor (m * (Z.pos BN.scale # 1) + (1 # 2))).
Proof.
  unfold BN.round_half_up.
  generalize (Qfloor (m * (Z.pos BN.scale # 1) + (1 # 2))). intros f.
  generalize BN.scale. intros p.
  unfold Qeq, Qmult, inject_Z. cbn [Qnum Qden].
  rewrite Pos.mul_1_r. ring.
Qed.

Lemma round_half_up_nonneg (m : Q) : 0 <= m -> 0 <= BN.round_half_up m.
Proof.
  intros H.
  assert (S : 0 < (Z.pos BN.scale # 1)) by reflexivity.
  assert (F : (0 <= Qfloor (m * (Z.pos BN.scale # 1) + (1 # 2)))%Z).
  { change 0%Z with (Qfloor 0). apply Qfloor_resp_le.
    assert (0 <= m * (Z.pos BN.scale # 1)).
    { apply Qmult_le_0_compat; [exact H | discriminate]. }
    lra. }
  apply Qmult_le_r with (z := Z.pos BN.scale # 1); [exact S |].
  rewrite round_half_up_units, Qmult_0_l.
  change 0 with (inject_Z 0). now rewrite <- Zle_Qle.
Qed.

Lemma round_half_up_comp (m n : Q) :
  m == n -> BN.round_half_up m == BN.round_half_up n.
Proof.
  intros H. unfold BN.round_half_up.
  now rewrite (Qfloor_comp _ (n * (Z.pos BN.scale # 1) + (1 # 2))); [|rewrite H].
Qed.

Lemma round_half_up_mono (m n : Q) :
  m <= n -> BN.round_half_up m <= BN.round_half_up n.
Proof.
  intros H.
  assert (S : 0 < (Z.pos BN.scale # 1)) by reflexivity.
  apply Qmult_le_r with (z := Z.pos BN.scale # 1); [exact S |].
  rewrite !round_half_up_units. rewrite <- Zle_Qle.
  apply Qfloor_resp_le.
  assert (m * (Z.pos BN.scale # 1) <= n * (Z.pos BN.scale # 1)).
  { apply Qmult_le_compat_r; [exact H | discriminate]. }
  lra.
Qed.

(** A whole number of units of 1e-20 is representable. *)
Lemma Qfloor_plus_half (z : Z) : Qfloor (inject_Z z + (1 # 2)) = z.
Proof.
  pose proof (Qfloor_le (inject_Z z + (1 # 2))) as L.
  pose proof (Qlt_floor (inject_Z z + (1 # 2))) as U.
  set (f := Qfloor (inject_Z z + (1 # 2))) in *.
  assert (L' : inject_Z f < inject_Z (z + 1)).
  { rewrite inject_Z_plus. change (inject_Z 1) with 1. lra. }
  assert (U' : inject_Z z < inject_Z (f + 1)) by lra.
  rewrite <- Zlt_Qlt in L', U'. lia.
Qed.

Lemma units_scaled (z : Z) :
  (z # BN.scale) * (Z.pos BN.scale # 1) == inject_Z z.
Proof.
  generalize BN.scale. intros p.
  unfold Qeq, Qmult, inject_Z. cbn [Qnum Qden].
  rewrite Pos.mul_1_r. ring.
Qed.

Lemma representable_units (z : Z) : representable (z # BN.scale).
Proof.
  unfold representable, BN.round_half_up.
  rewrite (Qfloor_comp _ (inject_Z z + (1 # 2))).
  - rewrite Qfloor_plus_half. reflexivity.
  - rewrite units_scaled. reflexivity.
Qed.

Lemma round_half_up_idem (m : Q) :
  representable (BN.round_half_up m).
Proof. unfold BN.round_half_up. apply representable_units. Qed.

Lemma Z_as_units (z : Z) :
  inject_Z z == (z * Z.pos BN.scale)%Z # BN.scale.
Proof.
  generalize BN.scale. intros p.
  unfold Qeq, inject_Z. cbn [Qnum Qden]. ring.
Qed.

Lemma representable_comp (m n : Q) :
  m == n -> representable m -> representable n.
Proof.
  unfold representable. intros E H.
  rewrite <- (round_half_up_comp m n E), H. exact E.
Qed.

Lemma representable_Z (z : Z) : representable (inject_Z z).
Proof.
  apply (representable_comp _ _ (Qeq_sym _ _ (Z_as_units z))).
  apply representable_units.
Qed.

(** ** Fee and burn multipliers *)

Lemma multiplier_of_range (percent : Q) :
  0 <= percent -> percent <= 100 # 1 ->
  (0 <= multiplier_of percent <= 1000)%Z.
Proof.
  intros L U. unfold multiplier_of, Math_floor.
  assert (A : (Qfloor 0 <= Qfloor (percent * (10 # 1)))%Z)
    by (apply Qfloor_resp_le; lra).
  assert (B : (Qfloor (percent * (10 # 1)) <= Qfloor (inject_Z 1000))%Z).
  { apply Qfloor_resp_le. change (inject_Z 1000) with (1000 # 1). lra. }
  rewrite Qfloor_Z in B. change (Qfloor 0) with 0%Z in A. lia.
Qed.

(** Below 100 percent the multiplier is positive. *)
Lemma multiplier_of_pos (percent : Q) :
  0 <= percent -> percent < 100 # 1 ->
  (0 < multiplier_of percent <= 1000)%Z.
Proof.
  intros L U. unfold multiplier_of, Math_floor.
  assert (A : (Qfloor 0 <= Qfloor (percent * (10 # 1)))%Z)
    by (apply Qfloor_resp_le; lra).
  change (Qfloor 0) with 0%Z in A.
  pose proof (Qfloor_le (percent * (10 # 1))) as F.
  assert (B : inject_Z (Qfloor (percent * (10 # 1))) < inject_Z 1000).
  { change (inject_Z 1000) with (1000 # 1). lra. }
  rewrite <- Zlt_Qlt in B. lia.
Qed.

(** Below 0.1 percent nothing is deducted. *)
Lemma multiplier_of_small (percent : Q) :
  0 <= percent -> percent < 1 # 10 -> multiplier_of percent = 1000%Z.
Proof.
  intros L U. unfold multiplier_of, Math_floor.
  assert (A : (Qfloor 0 <= Qfloor (percent * (10 # 1)))%Z)
    by (apply Qfloor_resp_le; lra).
  change (Qfloor 0) with 0%Z in A.
  pose proof (Qfloor_le (percent * (10 # 1))) as F.
  assert (B : inject_Z (Qfloor (percent * (10 # 1))) < inject_Z 1).
  { change (inject_Z 1) with 1. lra. }
  rewrite <- Zlt_Qlt in B. lia.
Qed.

Lemma multiplier_of_full (percent : Q) :
  100 # 1 <= percent -> percent <= 100 # 1 -> multiplier_of percent = 0%Z.
Proof.
  intros L U. unfold multiplier_of, Math_floor.
  rewrite (Qfloor_comp (percent * (10 # 1)) (1000 # 1)) by lra.
  reflexivity.
Qed.

(** The guarded form of index.ts computes the same multiplier. *)
Lemma multiplier_of_opt_eq (percent : Q) :
  multiplier_of_opt percent = multiplier_of percent.
Proof.
  unfold multiplier_of_opt, BN.Qeqb.
  destruct (Qeq_bool percent 0) eqn:E; [|reflexivity].
  apply Qeq_bool_iff in E. unfold multiplier_of, Math_floor.
  rewrite (Qfloor_comp (percent * (10 # 1)) 0) by (rewrite E; reflexivity).
  reflexivity.
Qed.

Lemma number_times_nonneg (a b : Z) :
  (0 <= a)%Z -> (0 <= b)%Z ->
  number_times a b = BN.Finite false (inject_Z a * inject_Z b).
Proof.
  intros A B. unfold number_times.
  rewrite !of_Z_nonneg by assumption. reflexivity.
Qed.

Lemma inject_Z_nonneg (z : Z) : (0 <= z)%Z -> 0 <= inject_Z z.
Proof. intros H. change 0 with (inject_Z 0). now rewrite <- Zle_Qle. Qed.

Lemma inject_Z_pos (z : Z) : (0 < z)%Z -> 0 < inject_Z z.
Proof. intros H. change 0 with (inject_Z 0). now rewrite <- Zlt_Qlt. Qed.

Lemma creditSubsidy_Finite (x : Q) :
  0 <= x ->
  creditSubsidy (BN.Finite false x) = BN.Finite false (x + inject_Z 2500000).
Proof. reflexivity. Qed.

Lemma credited_of_Q (lb : bool) (x : Q) :
  0 <= x ->
  credited lb (BN.of_Q x) = BN.Finite false (credited_Q lb x).
Proof.
  intros H. rewrite of_Q_nonneg by exact H. destruct lb; reflexivity.
Qed.

Lemma credited_Q_pos (lb : bool) (x : Q) : 0 < x -> 0 < credited_Q lb x.
Proof.
  intros H. destruct lb; simpl; [|exact H].
  change (inject_Z 2500000) with (2500000 # 1). lra.
Qed.

Ltac evaluate :=
  refine (proj1 (result_eqb_eq _ _) _); vm_compute; reflexivity.

(** ** ceilingDiv *)

Lemma geqZero_Finite_nonneg (m : Q) :
  0 <= m -> BN.isGreaterThanOrEqualTo (BN.Finite false m) (BN.of_Z 0) = true.
Proof.
  intros H. unfold BN.isGreaterThanOrEqualTo. simpl.
  change (inject_Z 0) with 0.
  destruct (m ?= 0) eqn:E; try reflexivity.
  apply Qlt_alt in E. lra.
Qed.

(** For a non-negative dividend and a positive divisor the remainder is
    never negative, so the increment is always taken. *)
Lemma ceilingDiv_nonneg (x y : Q) :
  0 <= x -> 0 < y ->
  ceilingDiv (BN.of_Q x) (BN.of_Q y)
  = BN.plus (BN.dividedBy (BN.of_Q x) (BN.of_Q y)) (BN.of_Z 1).
Proof.
  intros Hx Hy. unfold ceilingDiv.
  rewrite !of_Q_nonneg by lra.
  cbn [BN.modulo]. rewrite (is_zero_mag_pos y Hy).
  destruct (BN.is_zero_mag x).
  - now rewrite geqZero_Finite_nonneg.
  - rewrite geqZero_Finite_nonneg; [reflexivity |].
    unfold BN.trunc.
    pose proof (Qfloor_le (x / y)) as F.
    assert (inject_Z (Qfloor (x / y)) * y <= x / y * y)
      by (apply Qmult_le_compat_r; lra).
    assert (x / y * y == x) by (field; lra).
    lra.
Qed.

(** C1.  ceilingDiv(4, 2) is 3 and ceilingDiv(7, 2) is 4.5: where 2 divides
    4 the result is not 4 / 2, and neither result is the ceiling of the
    quotient (2 and 4).  Through addLiquidityTokenIn, a deposit of 4 mutez
    into pools of 2 mutez and 1 token asks for 3 tokens. *)
Theorem ceilingDiv_is_quotient_plus_one :
  BN.eq (ceilingDiv (BN.of_Z 4) (BN.of_Z 2)) (BN.of_Z 3)
  /\ BN.eq (ceilingDiv (BN.of_Z 7) (BN.of_Z 2)) (BN.of_Q (9 # 2))
  /\ result_eq
       (addLiquidityTokenIn false (BN.of_Z 4) (BN.of_Z 2) (BN.of_Z 1))
       (Some (BN.of_Z 3)).
Proof.
  split; [|split].
  - refine (proj1 (BN_eqb_eq _ _) _); vm_compute; reflexivity.
  - refine (proj1 (BN_eqb_eq _ _) _); vm_compute; reflexivity.
  - refine (proj1 (result_eqb_eq _ _) _); vm_compute; reflexivity.
Qed.

(** ** The subsidy flag *)

(** Where the credited pool is the one the formula reads, the flag is the
    same as crediting the argument. *)
Lemma subsidy_xtzToTokenTokenOutput a X T fp bp :
  xtzToTokenTokenOutput true a X T fp bp
  = xtzToTokenTokenOutput false a (creditSubsidy X) T fp bp.
Proof. reflexivity. Qed.

Lemma subsidy_xtzToTokenXtzInput o X T d fp bp :
  xtzToTokenXtzInput true o X T d fp bp
  = xtzToTokenXtzInput false o (creditSubsidy X) T d fp bp.
Proof. reflexivity. Qed.

Lemma subsidy_tokenToXtzTokenInput o X T d fp bp :
  tokenToXtzTokenInput true o X T d fp bp
  = tokenToXtzTokenInput false o (creditSubsidy X) T d fp bp.
Proof. reflexivity. Qed.

Lemma subsidy_xtzToTokenPriceImpact a X T bp :
  xtzToTokenPriceImpact true a X T bp
  = xtzToTokenPriceImpact false a (creditSubsidy X) T bp.
Proof. reflexivity. Qed.

Lemma subsidy_tokenToXtzPriceImpact a X T bp :
  tokenToXtzPriceImpact true a X T bp
  = tokenToXtzPriceImpact false a (creditSubsidy X) T bp.
Proof. reflexivity. Qed.

Lemma subsidy_addLiquidityTokenIn a X T :
  addLiquidityTokenIn true a X T
  = addLiquidityTokenIn false a (creditSubsidy X) T.
Proof. reflexivity. Qed.

Lemma subsidy_addLiquidityXtzIn a X T :
  addLiquidityXtzIn true a X T
  = addLiquidityXtzIn false a (creditSubsidy X) T.
Proof. reflexivity. Qed.

Lemma subsidy_removeLiquidityXtzOut l t X :
  removeLiquidityXtzOut true l t X
  = removeLiquidityXtzOut false l t (creditSubsidy X).
Proof. reflexivity. Qed.

(** C2.  tokenToXtzXtzOutput and addLiquidityLiquidityCreated test the
    credited pool but compute with the argument: with the flag set on a pool
    of 2,500,000 they return 1,250,000 and 2, while with the flag unset on
    5,000,000 they return 2,500,000 and 1. *)
Theorem subsidy_flag_ignored_by_two_formulas :
  result_eq
    (tokenToXtzXtzOutput true (BN.of_Z 1000) (BN.of_Z 2500000)
       (BN.of_Z 1000) 0 0)
    (Some (BN.of_Z 1250000))
  /\ result_eq
       (tokenToXtzXtzOutput false (BN.of_Z 1000) (BN.of_Z 5000000)
          (BN.of_Z 1000) 0 0)
       (Some (BN.of_Z 2500000))
  /\ result_eq
       (addLiquidityLiquidityCreated true (BN.of_Z 1) (BN.of_Z 2500000)
          (BN.of_Z 5000000))
       (Some (BN.of_Z 2))
  /\ result_eq
       (addLiquidityLiquidityCreated false (BN.of_Z 1) (BN.of_Z 5000000)
          (BN.of_Z 5000000))
       (Some (BN.of_Z 1)).
Proof. split; [evaluate | split; [evaluate | split; evaluate]]. Qed.

(** ** Forward quotes *)

(** C5.  With both percentages 0 the floors are 0, 8 and 249 on a plain
    exchange and 0, 1 and 249 on a liquidity-baking one: the values 1 and
    248 of the test file are not both reached under either flag. *)
Theorem dust_trade_floors :
  result_floor
    (xtzToTokenTokenOutput false (BN.of_Z 5) (BN.of_Z 100000) (BN.of_Z 10)
       0 0) = Some 0%Z
  /\ result_floor
       (xtzToTokenTokenOutput false (BN.of_Z 500000) (BN.of_Z 100000)
          (BN.of_Z 10) 0 0) = Some 8%Z
  /\ result_floor
       (xtzToTokenTokenOutput false (BN.of_Z 1000000) (BN.of_Z 1000000000)
          (BN.of_Z 250000) 0 0) = Some 249%Z
  /\ result_floor
       (xtzToTokenTokenOutput true (BN.of_Z 500000) (BN.of_Z 100000)
          (BN.of_Z 10) 0 0) = Some 1%Z
  /\ result_floor
       (xtzToTokenTokenOutput true (BN.of_Z 1000000) (BN.of_Z 1000000000)
          (BN.of_Z 250000) 0 0) = Some 249%Z.
Proof. repeat split; vm_compute; reflexivity. Qed.

(** The forward quotes on finite positive arguments, in rational terms.
    [fee] and [burn] stand for the two multipliers. *)
Lemma xtzToTokenTokenOutput_value lb xtzIn xtzPool tokenPool fp bp :
  0 < xtzIn -> 0 < xtzPool -> 0 < tokenPool ->
  0 <= fp -> fp <= 100 # 1 -> 0 <= bp -> bp <= 100 # 1 ->
  let m := inject_Z (multiplier_of fp) * inject_Z (multiplier_of bp) in
  xtzToTokenTokenOutput lb (BN.of_Q xtzIn) (BN.of_Q xtzPool)
    (BN.of_Q tokenPool) fp bp
  = Some (BN.Finite false
            (BN.round_half_up
               (xtzIn * tokenPool * m
                / (credited_Q lb xtzPool * inject_Z 1000000 + xtzIn * m)))).
Proof.
  intros Hi HX HT Hf1 Hf2 Hb1 Hb2 m.
  pose proof (multiplier_of_range fp Hf1 Hf2) as [F1 F2].
  pose proof (multiplier_of_range bp Hb1 Hb2) as [B1 B2].
  pose proof (inject_Z_nonneg _ F1) as F.
  pose proof (inject_Z_nonneg _ B1) as B.
  assert (M : 0 <= m) by (apply Qmult_le_0_compat; assumption).
  pose proof (credited_Q_pos lb xtzPool HX) as HXe.
  unfold xtzToTokenTokenOutput, new_BigNumber.
  rewrite !multiplier_of_opt_eq.
  rewrite number_times_nonneg by assumption. fold m.
  fold (credited lb (BN.of_Q xtzPool)).
  rewrite credited_of_Q by lra.
  rewrite !of_Q_nonneg by lra.
  rewrite !gtZero_pos by assumption.
  cbn [andb BN.times BN.plus BN.sign Bool.eqb BN.add_same xorb BN.dividedBy].
  change (BN.of_Z 1000000) with (BN.Finite false (inject_Z 1000000)).
  cbn [andb BN.times BN.plus BN.sign Bool.eqb BN.add_same xorb BN.dividedBy].
  assert (0 <= xtzIn * m) by (apply Qmult_le_0_compat; lra).
  assert (0 < credited_Q lb xtzPool * inject_Z 1000000).
  { apply Qmult_lt_0_compat; [exact HXe | reflexivity]. }
  rewrite is_zero_mag_pos by lra.
  reflexivity.
Qed.

Lemma tokenToXtzXtzOutput_value tokenIn xtzPool tokenPool fp bp :
  0 < tokenIn -> 0 < xtzPool -> 0 < tokenPool ->
  0 <= fp -> fp <= 100 # 1 -> 0 <= bp -> bp <= 100 # 1 ->
  let fb := inject_Z (multiplier_of fp) * inject_Z (multiplier_of bp) in
  let f := inject_Z (multiplier_of fp) * inject_Z 1000 in
  tokenToXtzXtzOutput false (BN.of_Q tokenIn) (BN.of_Q xtzPool)
    (BN.of_Q tokenPool) fp bp
  = Some (BN.Finite false
            (BN.round_half_up
               (tokenIn * xtzPool * fb
                / (tokenPool * inject_Z 1000000 + tokenIn * f)))).
Proof.
  intros Hi HX HT Hf1 Hf2 Hb1 Hb2 fb f.
  pose proof (multiplier_of_range fp Hf1 Hf2) as [F1 F2].
  pose proof (multiplier_of_range bp Hb1 Hb2) as [B1 B2].
  pose proof (inject_Z_nonneg _ F1) as F.
  pose proof (inject_Z_nonneg _ B1) as B.
  assert (0 <= f).
  { apply Qmult_le_0_compat; [assumption | discriminate]. }
  unfold tokenToXtzXtzOutput, new_BigNumber.
  rewrite !number_times_nonneg by (assumption || lia). fold fb. fold f.
  rewrite !of_Q_nonneg by lra.
  rewrite !gtZero_pos by assumption.
  change (BN.of_Z 1000000) with (BN.Finite false (inject_Z 1000000)).
  cbn [andb BN.times BN.plus BN.sign Bool.eqb BN.add_same xorb BN.dividedBy].
  assert (0 <= tokenIn * f) by (apply Qmult_le_0_compat; lra).
  assert (0 < tokenPool * inject_Z 1000000).
  { apply Qmult_lt_0_compat; [exact HT | reflexivity]. }
  rewrite is_zero_mag_pos by lra.
  reflexivity.
Qed.




(** ** addLiquidity *)

(** C8.  For a positive deposit against a positive pool, the branch taken
    for a zero total liquidity and the branch taken for a positive one both
    return [xtzIn * totalLiquidity / xtzPool] (the quotient as [dividedBy]
    gives it), under either subsidy flag; for a zero total liquidity that
    is 0. *)
Theorem liquidity_created_same_formula_in_both_branches
  (lb : bool) (xtzIn xtzPool totalLiquidity : Q) :
  0 < xtzIn -> 0 < xtzPool -> 0 <= totalLiquidity ->
  let created :=
    addLiquidityLiquidityCreated lb (BN.of_Q xtzIn) (BN.of_Q xtzPool)
      (BN.of_Q totalLiquidity) in
  let formula :=
    BN.dividedBy (BN.times (BN.of_Q xtzIn) (BN.of_Q totalLiquidity))
                 (BN.of_Q xtzPool) in
  (totalLiquidity == 0 ->
   created = Some formula /\ result_eq created (Some (BN.of_Z 0)))
  /\ (0 < totalLiquidity -> created = Some formula)
  /\ BN.eq formula
       (BN.of_Q (BN.round_half_up (xtzIn * totalLiquidity / xtzPool))).
Proof.
  intros Hi HX HL created formula.
  assert (G : created
              = if BN.is_zero_mag totalLiquidity then Some formula
                else if gtZero (BN.Finite false totalLiquidity)
                     then Some formula else None).
  { unfold created, addLiquidityLiquidityCreated, new_BigNumber.
    fold (credited lb (BN.of_Q xtzPool)).
    rewrite credited_of_Q by lra.
    rewrite (gtZero_pos _ (credited_Q_pos lb _ HX)).
    rewrite !of_Q_nonneg by lra.
    rewrite gtZero_pos by assumption.
    unfold formula. rewrite !of_Q_nonneg by lra. reflexivity. }
  assert (V : formula
              = BN.Finite false
                  (BN.round_half_up (xtzIn * totalLiquidity / xtzPool))).
  { unfold formula. rewrite !of_Q_nonneg by lra.
    cbn [BN.times BN.dividedBy xorb].
    now rewrite is_zero_mag_pos. }
  split; [|split].
  - intros Z. rewrite G, (is_zero_mag_true _ Z).
    split; [reflexivity |].
    rewrite V. simpl. split; [reflexivity |].
    rewrite (round_half_up_comp _ (inject_Z 0)).
    + apply representable_Z.
    + rewrite Z. change (inject_Z 0) with 0. field. lra.
  - intros P. rewrite G, (is_zero_mag_pos _ P), (gtZero_pos _ P).
    reflexivity.
  - rewrite V, of_Q_nonneg.
    + apply BN_eq_refl.
    + apply round_half_up_nonneg. apply Qle_shift_div_l; [lra |].
      rewrite Qmult_0_l. apply Qmult_le_0_compat; lra.
Qed.

(** C8 (witness): a first deposit of 1,000,000 into a pool of 2,000,000. *)
Lemma liquidity_created_witness :
  addLiquidityLiquidityCreated true (BN.of_Q 1000000) (BN.of_Q 2000000)
    (BN.of_Q 0)
  = Some (BN.dividedBy (BN.times (BN.of_Q 1000000) (BN.of_Q 0))
                       (BN.of_Q 2000000))
  /\ result_eq
       (addLiquidityLiquidityCreated true (BN.of_Q 1000000)
          (BN.of_Q 2000000) (BN.of_Q 0))
       (Some (BN.of_Z 0)).
Proof.
  destruct (liquidity_created_same_formula_in_both_branches
              true 1000000 2000000 0) as [H _]; try lra.
  apply H. reflexivity.
Defined.

(** ** Scaling dividend and divisor by a power of ten *)

Lemma is_zero_mag_comp (m n : Q) :
  m == n -> BN.is_zero_mag m = BN.is_zero_mag n.
Proof.
  intros H. unfold BN.is_zero_mag, BN.Qeqb. now rewrite H.
Qed.

Lemma is_zero_mag_scaled (m k : Q) :
  0 < k -> BN.is_zero_mag (m * k) = BN.is_zero_mag m.
Proof.
  intros K. destruct (BN.is_zero_mag m) eqn:E.
  - apply Qeq_bool_iff in E. apply is_zero_mag_true. rewrite E. ring.
  - apply is_zero_mag_false. intros Z.
    apply Qeq_bool_neq in E. apply E.
    apply Qmult_integral in Z. destruct Z as [Z | Z]; [exact Z | lra].
Qed.

Lemma times_scale (x : BN.t) (k : Q) :
  0 < k -> BN.times x (BN.Finite false k) = scale_by k x.
Proof.
  intros K. destruct x as [|a|a m]; simpl.
  - reflexivity.
  - now rewrite (is_zero_mag_pos k K), xorb_false_r.
  - now rewrite xorb_false_r.
Qed.

Lemma times_scale_assoc (x y : BN.t) (k : Q) :
  0 < k ->
  BN.eq (BN.times x (scale_by k y)) (scale_by k (BN.times x y)).
Proof.
  intros K. destruct x as [|a|a m], y as [|b|b n]; simpl; auto.
  - rewrite (is_zero_mag_scaled n k K).
    destruct (BN.is_zero_mag n); simpl; auto.
  - destruct (BN.is_zero_mag m); simpl; auto.
  - split; [reflexivity | ring].
Qed.

Lemma dividedBy_comp (x x' y y' : BN.t) :
  BN.eq x x' -> BN.eq y y' ->
  BN.eq (BN.dividedBy x y) (BN.dividedBy x' y').
Proof.
  destruct x as [|a|a m], x' as [|a'|a' m'];
    destruct y as [|b|b n], y' as [|b'|b' n'];
    simpl; try tauto; try congruence.
  - intros -> [-> _]. reflexivity.
  - intros [-> _] ->. split; reflexivity.
  - intros [-> Hm] [-> Hn].
    rewrite (is_zero_mag_comp n n' Hn), (is_zero_mag_comp m m' Hm).
    destruct (BN.is_zero_mag n'); [destruct (BN.is_zero_mag m') |];
      simpl; auto.
    split; [reflexivity |]. apply round_half_up_comp. now rewrite Hm, Hn.
Qed.

Lemma dividedBy_scale (x y : BN.t) (k : Q) :
  0 < k ->
  BN.eq (BN.dividedBy (scale_by k x) (scale_by k y)) (BN.dividedBy x y).
Proof.
  intros K. destruct x as [|a|a m], y as [|b|b n]; simpl; auto.
  - split; reflexivity.
  - rewrite !is_zero_mag_scaled by exact K.
    destruct (BN.is_zero_mag n) eqn:E;
      [destruct (BN.is_zero_mag m) |]; simpl; auto.
    split; [reflexivity |]. apply round_half_up_comp.
    apply Qeq_bool_neq in E. field. split; [exact E | lra].
Qed.

Lemma gtZero_comp (x y : BN.t) : BN.eq x y -> gtZero x = gtZero y.
Proof.
  destruct x as [|a|a m], y as [|b|b n]; simpl; try tauto.
  - intros ->. reflexivity.
  - intros [-> H]. unfold gtZero, BN.isGreaterThan. simpl.
    assert (E : BN.value b m == BN.value b n)
      by (destruct b; simpl; rewrite H; reflexivity).
    now rewrite E.
Qed.

Lemma positive_or_null_comp (x y : BN.t) :
  BN.eq x y ->
  result_eq (if gtZero x then Some x else None)
            (if gtZero y then Some y else None).
Proof.
  intros H. rewrite (gtZero_comp x y H).
  destruct (gtZero y); simpl; auto.
Qed.

(** [Math.pow(10, d)] for an integer [d] between 0 and 308. *)
Lemma Math_pow10_of_Z (d : Z) :
  (0 <= d <= 308)%Z ->
  Math_pow10 (BN.of_Z d) = BN.Finite false (Qpower (10 # 1) d)
  /\ 0 < Qpower (10 # 1) d.
Proof.
  intros [L U]. split; [|apply Qpower_0_lt; reflexivity].
  rewrite of_Z_nonneg by exact L.
  unfold Math_pow10, is_integer, BN.Qeqb. cbn [BN.value].
  rewrite Qfloor_Z, Qeq_bool_refl.
  destruct (308 <? d)%Z eqn:A; [apply Z.ltb_lt in A; lia |].
  destruct (d <? -323)%Z eqn:B; [apply Z.ltb_lt in B; lia |].
  reflexivity.
Qed.

Lemma geqZero_of_Z (d : Z) : (0 <= d)%Z -> geqZero (BN.of_Z d) = true.
Proof.
  intros H. rewrite of_Z_nonneg by exact H.
  apply geqZero_Finite_nonneg. now apply inject_Z_nonneg.
Qed.

(** The quotient of an inverse quote does not depend on such a [d]. *)
Lemma xtzToTokenXtzInput_result_decimals o X T M (d : Z) :
  (0 <= d <= 308)%Z ->
  BN.eq (xtzToTokenXtzInput_result o X T (BN.of_Z d) M)
        (BN.dividedBy
           (BN.times (BN.times X o) (BN.of_Z 1000000))
           (BN.times (BN.minus T o) M)).
Proof.
  intros H. destruct (Math_pow10_of_Z d H) as [E K].
  unfold xtzToTokenXtzInput_result. rewrite E.
  rewrite !times_scale by exact K.
  eapply BN_eq_trans; [|apply (dividedBy_scale _ _ _ K)].
  apply dividedBy_comp; [apply BN_eq_refl |].
  apply times_scale_assoc. exact K.
Qed.

Lemma tokenToXtzTokenInput_result_decimals o X T F FB (d : Z) :
  (0 <= d <= 308)%Z ->
  BN.eq (tokenToXtzTokenInput_result o X T (BN.of_Z d) F FB)
        (BN.dividedBy
           (BN.times (BN.times T o) (BN.of_Z 1000000))
           (BN.minus (BN.times X F) (BN.times o FB))).
Proof.
  intros H. destruct (Math_pow10_of_Z d H) as [E K].
  unfold tokenToXtzTokenInput_result. rewrite E.
  rewrite !times_scale by exact K.
  apply dividedBy_scale. exact K.
Qed.

(** C10 (amended).  For integer decimals between 0 and 308 (the powers of
    ten that are finite doubles) the decimals argument has no effect on
    either inverse quote, whatever the other arguments. *)
Theorem inverse_quotes_ignore_decimals
  (lb : bool) (out xtzPool tokenPool : BN.t) (feePercent burnPercent : Q)
  (d1 d2 : Z) :
  (0 <= d1 <= 308)%Z -> (0 <= d2 <= 308)%Z ->
  result_eq
    (xtzToTokenXtzInput lb out xtzPool tokenPool (BN.of_Z d1)
       feePercent burnPercent)
    (xtzToTokenXtzInput lb out xtzPool tokenPool (BN.of_Z d2)
       feePercent burnPercent)
  /\ result_eq
       (tokenToXtzTokenInput lb out xtzPool tokenPool (BN.of_Z d1)
          feePercent burnPercent)
       (tokenToXtzTokenInput lb out xtzPool tokenPool (BN.of_Z d2)
          feePercent burnPercent).
Proof.
  intros H1 H2. split.
  - unfold xtzToTokenXtzInput, new_BigNumber.
    rewrite !geqZero_of_Z by lia.
    match goal with
    | |- result_eq (if ?g then _ else _) _ => destruct g
    end; [|exact I].
    apply positive_or_null_comp.
    eapply BN_eq_trans.
    + apply xtzToTokenXtzInput_result_decimals. exact H1.
    + apply BN_eq_sym. apply xtzToTokenXtzInput_result_decimals. exact H2.
  - unfold tokenToXtzTokenInput, new_BigNumber.
    rewrite !geqZero_of_Z by lia.
    match goal with
    | |- result_eq (if ?g then _ else _) _ => destruct g
    end; [|exact I].
    apply positive_or_null_comp.
    eapply BN_eq_trans.
    + apply tokenToXtzTokenInput_result_decimals. exact H1.
    + apply BN_eq_sym. apply tokenToXtzTokenInput_result_decimals. exact H2.
Qed.

(** C10 (witness): decimals 0 and 18 on a liquidity-baking pool. *)
Lemma inverse_quotes_ignore_decimals_witness :
  result_eq
    (xtzToTokenXtzInput true (BN.of_Z 1000) (BN.of_Z 1000000)
       (BN.of_Z 5000) (BN.of_Z 0) (1 # 10) (1 # 10))
    (xtzToTokenXtzInput true (BN.of_Z 1000) (BN.of_Z 1000000)
       (BN.of_Z 5000) (BN.of_Z 18) (1 # 10) (1 # 10)).
Proof.
  destruct (inverse_quotes_ignore_decimals true (BN.of_Z 1000)
              (BN.of_Z 1000000) (BN.of_Z 5000) (1 # 10) (1 # 10) 0 18)
    as [H _]; try lia.
  exact H.
Defined.

(** C10 (counterexample).  [Math.pow(10, 309)] is Infinity, the quotient
    Infinity / Infinity is NaN and the call returns null, where decimals 0
    gives 1. *)
Lemma decimals_309_turns_the_inverse_quote_null :
  ~ result_eq
      (xtzToTokenXtzInput false (BN.of_Z 1) (BN.of_Z 1) (BN.of_Z 2)
         (BN.of_Z 0) 0 0)
      (xtzToTokenXtzInput false (BN.of_Z 1) (BN.of_Z 1) (BN.of_Z 2)
         (BN.of_Z 309) 0 0).
Proof.
  intros H. apply (proj2 (result_eqb_eq _ _)) in H.
  vm_compute in H. discriminate H.
Qed.

(** ** When an inverse quote is null *)

Lemma signed_times (s u : bool) (x y : BN.t) :
  signed s x -> signed u y -> signed (xorb s u) (BN.times x y).
Proof.
  destruct x as [|a|a m], y as [|b|b n]; simpl; auto.
  - intros -> ->. reflexivity.
  - intros -> [-> _]. destruct (BN.is_zero_mag n); simpl; auto.
  - intros [-> _] ->. destruct (BN.is_zero_mag m); simpl; auto.
  - intros [-> Hm] [-> Hn]. split; [reflexivity |].
    now apply Qmult_le_0_compat.
Qed.

Lemma signed_Math_pow10 (x : BN.t) : signed false (Math_pow10 x).
Proof.
  destruct x as [|[|]|a m]; simpl; auto.
  - split; [reflexivity | apply Qle_refl].
  - destruct (is_integer (BN.value a m)); simpl; auto.
    destruct (308 <? _)%Z; simpl; auto.
    destruct (_ <? -323)%Z; simpl.
    + split; [reflexivity | apply Qle_refl].
    + split; [reflexivity |]. apply Qpower_0_le. discriminate.
Qed.

Lemma signed_Finite_false (m : Q) : 0 <= m -> signed false (BN.Finite false m).
Proof. intros H. split; [reflexivity | exact H]. Qed.

(** A quotient of a non-negative by a negative is never positive. *)
Lemma gtZero_dividedBy_signed (x y : BN.t) :
  signed false x -> signed true y -> gtZero (BN.dividedBy x y) = false.
Proof.
  destruct x as [|a|a m], y as [|b|b n]; simpl; auto.
  - intros -> [-> _]. reflexivity.
  - intros [-> _] ->. apply gtZero_Finite_false. simpl. lra.
  - intros [-> Hm] [-> Hn].
    destruct (BN.is_zero_mag n) eqn:E;
      [destruct (BN.is_zero_mag m); reflexivity |].
    apply gtZero_Finite_false. simpl.
    assert (0 <= BN.round_half_up (m / n)); [|lra].
    apply round_half_up_nonneg.
    apply Qeq_bool_neq in E.
    apply Qle_shift_div_l; [lra |]. now rewrite Qmult_0_l.
Qed.

Lemma minus_Finite_lt (a b : Q) :
  a < b ->
  BN.minus (BN.Finite false a) (BN.Finite false b) = BN.Finite true (b - a).
Proof.
  intros H. cbn [BN.minus BN.sign Bool.eqb BN.sub_same].
  unfold BN.Qeqb, BN.Qltb.
  destruct (Qeq_bool a b) eqn:E; [apply Qeq_bool_iff in E; lra |].
  destruct (Qle_bool a b) eqn:F; [reflexivity |].
  assert (Qle_bool a b = true) by (apply Qle_bool_iff; lra). congruence.
Qed.

Lemma minus_Finite_gt (a b : Q) :
  b < a ->
  BN.minus (BN.Finite false a) (BN.Finite false b) = BN.Finite false (a - b).
Proof.
  intros H. cbn [BN.minus BN.sign Bool.eqb BN.sub_same].
  unfold BN.Qeqb, BN.Qltb.
  destruct (Qeq_bool a b) eqn:E; [apply Qeq_bool_iff in E; lra |].
  destruct (Qle_bool a b) eqn:F; [|reflexivity].
  apply Qle_bool_iff in F. lra.
Qed.

Lemma minus_Finite_eq (a b : Q) :
  a == b ->
  BN.minus (BN.Finite false a) (BN.Finite false b) = BN.Finite false 0.
Proof.
  intros H. cbn [BN.minus BN.sign Bool.eqb BN.sub_same].
  unfold BN.Qeqb. now rewrite (Qeq_eq_bool _ _ H).
Qed.

Lemma xtzToTokenXtzInput_null_of_result lb o X T d fp bp :
  gtZero (xtzToTokenXtzInput_result o (credited lb X) T d
            (number_times (multiplier_of fp) (multiplier_of bp))) = false ->
  xtzToTokenXtzInput lb o X T d fp bp = None.
Proof.
  intros H. unfold xtzToTokenXtzInput, new_BigNumber.
  fold (credited lb X). rewrite H.
  now destruct (gtZero o && gtZero (credited lb X) && gtZero T && geqZero d).
Qed.

Lemma tokenToXtzTokenInput_null_of_result lb o X T d fp bp :
  gtZero (tokenToXtzTokenInput_result o (credited lb X) T d
            (number_times (multiplier_of fp) 1000)
            (number_times (multiplier_of fp) (multiplier_of bp))) = false ->
  tokenToXtzTokenInput lb o X T d fp bp = None.
Proof.
  intros H. unfold tokenToXtzTokenInput, new_BigNumber.
  fold (credited lb X). rewrite H.
  now destruct (gtZero o && gtZero (credited lb X) && gtZero T && geqZero d).
Qed.

(** What the sign test of the inverse quotes rejects.  Each returns null
    whenever the quotient it computed is not strictly positive.  With
    percentages between 0 and 100 that covers, for xtzToTokenXtzInput,
    every requested output strictly greater than the token pool; for
    tokenToXtzTokenInput it covers the outputs for which the divisor as the
    code writes it is negative, which are not the outputs above the pool
    (see the theorem that follows). *)
Lemma inverse_quotes_null_beyond_the_pool
  (lb : bool) (out xtzPool tokenPool : Q) (decimals : BN.t)
  (feePercent burnPercent : Q) :
  0 < out -> 0 < xtzPool -> 0 < tokenPool ->
  0 <= feePercent -> feePercent <= 100 # 1 ->
  0 <= burnPercent -> burnPercent <= 100 # 1 ->
  let fee := multiplier_of feePercent in
  let burn := multiplier_of burnPercent in
  (gtZero
     (xtzToTokenXtzInput_result (BN.of_Q out)
        (credited lb (BN.of_Q xtzPool)) (BN.of_Q tokenPool) decimals
        (number_times fee burn)) = false ->
   xtzToTokenXtzInput lb (BN.of_Q out) (BN.of_Q xtzPool)
     (BN.of_Q tokenPool) decimals feePercent burnPercent = None)
  /\ (gtZero
        (tokenToXtzTokenInput_result (BN.of_Q out)
           (credited lb (BN.of_Q xtzPool)) (BN.of_Q tokenPool) decimals
           (number_times fee 1000) (number_times fee burn)) = false ->
      tokenToXtzTokenInput lb (BN.of_Q out) (BN.of_Q xtzPool)
        (BN.of_Q tokenPool) decimals feePercent burnPercent = None)
  /\ (tokenPool < out ->
      xtzToTokenXtzInput lb (BN.of_Q out) (BN.of_Q xtzPool)
        (BN.of_Q tokenPool) decimals feePercent burnPercent = None)
  /\ (credited_Q lb xtzPool * inject_Z (fee * 1000)
      < out * inject_Z (fee * burn) ->
      tokenToXtzTokenInput lb (BN.of_Q out) (BN.of_Q xtzPool)
        (BN.of_Q tokenPool) decimals feePercent burnPercent = None).
Proof.
  intros Ho HX HT Hf1 Hf2 Hb1 Hb2 fee burn.
  pose proof (multiplier_of_range feePercent Hf1 Hf2) as [F1 F2].
  pose proof (multiplier_of_range burnPercent Hb1 Hb2) as [B1 B2].
  pose proof (credited_Q_pos lb xtzPool HX) as HXe.
  pose proof (signed_Math_pow10 decimals) as K.
  split; [apply xtzToTokenXtzInput_null_of_result |].
  split; [apply tokenToXtzTokenInput_null_of_result |].
  split.
  - intros Hlt. apply xtzToTokenXtzInput_null_of_result.
    unfold xtzToTokenXtzInput_result.
    rewrite credited_of_Q by lra. rewrite !of_Q_nonneg by lra.
    rewrite (minus_Finite_lt _ _ Hlt).
    rewrite number_times_nonneg by assumption.
    apply gtZero_dividedBy_signed.
    + change false with (xorb false false).
      apply signed_times; [|exact K].
      cbn [BN.times xorb].
      change (BN.of_Z 1000000) with (BN.Finite false (inject_Z 1000000)).
      cbn [BN.times xorb]. apply signed_Finite_false.
      repeat apply Qmult_le_0_compat; try lra. discriminate.
    + change true with (xorb true (xorb false false)).
      apply signed_times; [split; [reflexivity | lra] |].
      apply signed_times; [|exact K].
      apply signed_Finite_false.
      apply Qmult_le_0_compat; now apply inject_Z_nonneg.
  - intros Hlt. apply tokenToXtzTokenInput_null_of_result.
    unfold tokenToXtzTokenInput_result.
    rewrite credited_of_Q by lra. rewrite !of_Q_nonneg by lra.
    rewrite !number_times_nonneg by (assumption || lia).
    cbn [BN.times xorb].
    rewrite minus_Finite_lt.
    + apply gtZero_dividedBy_signed.
      * change false with (xorb false false).
        apply signed_times; [|exact K].
        change (BN.of_Z 1000000) with (BN.Finite false (inject_Z 1000000)).
        cbn [BN.times xorb]. apply signed_Finite_false.
        repeat apply Qmult_le_0_compat; try lra. discriminate.
      * change true with (xorb true false).
        apply signed_times; [|exact K].
        split; [reflexivity |].
        fold fee. fold burn. rewrite <- !inject_Z_mult. lra.
    + fold fee. fold burn. rewrite <- !inject_Z_mult. exact Hlt.
Qed.

(** C6.  tokenToXtzTokenInput divides by xtzPool * fee * 1000 - xtzOut *
    fee * burn, the two multipliers exchanged against the forward formula
    of tokenToXtzXtzOutput, so with a burn it answers where the pool cannot
    deliver.  On a plain exchange with pools of 1000 mutez and 1000 tokens
    and a burn of 0.1 percent, the whole pool of 1000 is quoted at
    1,000,000 tokens, and 1000.5, more than the pool holds, at
    1,999,000.999000999000999001 tokens, neither being null; selling the
    quoted 1,000,000 tokens returns 998.001998001998001998 mutez, not
    1000.  xtzToTokenXtzInput, on the same pools, returns null for
    1000.5. *)
Theorem tokenToXtzTokenInput_quotes_the_pool_and_beyond :
  result_eq
    (tokenToXtzTokenInput false (BN.of_Z 1000) (BN.of_Z 1000)
       (BN.of_Z 1000) (BN.of_Z 0) 0 (1 # 10))
    (Some (BN.of_Z 1000000))
  /\ result_eq
       (tokenToXtzTokenInput false (BN.of_Q (2001 # 2)) (BN.of_Z 1000)
          (BN.of_Z 1000) (BN.of_Z 0) 0 (1 # 10))
       (Some (BN.of_Q (199900099900099900099900100 # BN.scale)))
  /\ result_eq
       (tokenToXtzXtzOutput false (BN.of_Z 1000000) (BN.of_Z 1000)
          (BN.of_Z 1000) 0 (1 # 10))
       (Some (BN.of_Q (99800199800199800199800 # BN.scale)))
  /\ xtzToTokenXtzInput false (BN.of_Q (2001 # 2)) (BN.of_Z 1000)
       (BN.of_Z 1000) (BN.of_Z 0) 0 (1 # 10) = None.
Proof.
  split; [evaluate |]. split; [evaluate |]. split; [evaluate |].
  vm_compute. reflexivity.
Qed.

(** ** Inverse quotes on finite arguments *)

Lemma xtzToTokenXtzInput_value lb o X T (d : Z) fp bp :
  0 < o -> o < T -> 0 < X -> (0 <= d <= 308)%Z ->
  0 <= fp -> fp < 100 # 1 -> 0 <= bp -> bp < 100 # 1 ->
  let m := inject_Z (multiplier_of fp) * inject_Z (multiplier_of bp) in
  let r :=
    BN.Finite false
      (BN.round_half_up
         (credited_Q lb X * o * inject_Z 1000000 / ((T - o) * m))) in
  result_eq
    (xtzToTokenXtzInput lb (BN.Finite false o) (BN.of_Q X) (BN.of_Q T)
       (BN.of_Z d) fp bp)
    (if gtZero r then Some r else None).
Proof.
  intros Ho HoT HX Hd Hf1 Hf2 Hb1 Hb2 m r.
  destruct (multiplier_of_pos fp Hf1 Hf2) as [F1 F2].
  destruct (multiplier_of_pos bp Hb1 Hb2) as [B1 B2].
  pose proof (inject_Z_pos _ F1) as F.
  pose proof (inject_Z_pos _ B1) as B.
  assert (M : 0 < m) by (apply Qmult_lt_0_compat; assumption).
  pose proof (credited_Q_pos lb X HX) as HXe.
  unfold xtzToTokenXtzInput, new_BigNumber.
  fold (credited lb (BN.of_Q X)).
  rewrite credited_of_Q by lra. rewrite of_Q_nonneg by lra.
  rewrite !gtZero_pos by lra. rewrite geqZero_of_Z by lia.
  cbn [andb].
  apply positive_or_null_comp.
  eapply BN_eq_trans;
    [apply xtzToTokenXtzInput_result_decimals; exact Hd |].
  rewrite number_times_nonneg by lia. fold m.
  rewrite minus_Finite_gt by exact HoT.
  change (BN.of_Z 1000000) with (BN.Finite false (inject_Z 1000000)).
  cbn [BN.times xorb BN.dividedBy].
  assert (0 < (T - o) * m) by (apply Qmult_lt_0_compat; lra).
  rewrite is_zero_mag_pos by assumption.
  apply BN_eq_refl.
Qed.

Lemma tokenToXtzTokenInput_value lb o X T (d : Z) fp bp :
  0 < o -> 0 < X -> 0 < T -> (0 <= d <= 308)%Z ->
  0 <= fp -> fp <= 100 # 1 -> 0 <= bp -> bp <= 100 # 1 ->
  let f := inject_Z (multiplier_of fp) * inject_Z 1000 in
  let fb := inject_Z (multiplier_of fp) * inject_Z (multiplier_of bp) in
  o * fb < credited_Q lb X * f ->
  let r :=
    BN.Finite false
      (BN.round_half_up
         (T * o * inject_Z 1000000 / (credited_Q lb X * f - o * fb))) in
  result_eq
    (tokenToXtzTokenInput lb (BN.Finite false o) (BN.of_Q X) (BN.of_Q T)
       (BN.of_Z d) fp bp)
    (if gtZero r then Some r else None).
Proof.
  intros Ho HX HT Hd Hf1 Hf2 Hb1 Hb2 f fb Hlt r.
  destruct (multiplier_of_range fp Hf1 Hf2) as [F1 F2].
  destruct (multiplier_of_range bp Hb1 Hb2) as [B1 B2].
  pose proof (credited_Q_pos lb X HX) as HXe.
  unfold tokenToXtzTokenInput, new_BigNumber.
  fold (credited lb (BN.of_Q X)).
  rewrite credited_of_Q by lra. rewrite of_Q_nonneg by lra.
  rewrite !gtZero_pos by lra. rewrite geqZero_of_Z by lia.
  cbn [andb].
  apply positive_or_null_comp.
  eapply BN_eq_trans;
    [apply tokenToXtzTokenInput_result_decimals; exact Hd |].
  rewrite !number_times_nonneg by lia. fold f. fold fb.
  change (BN.of_Z 1000000) with (BN.Finite false (inject_Z 1000000)).
  cbn [BN.times xorb].
  rewrite minus_Finite_gt by exact Hlt.
  cbn [BN.dividedBy xorb].
  rewrite is_zero_mag_pos by lra.
  apply BN_eq_refl.
Qed.

(** ** More on rounding and on quotes *)

(** Rounding half up adds at most half a unit of the 20th decimal. *)
Lemma round_half_up_le_half_unit (q : Q) :
  BN.round_half_up q <= q + (1 # (2 * BN.scale)).
Proof.
  assert (S : 0 < (Z.pos BN.scale # 1)) by reflexivity.
  apply Qmult_le_r with (z := Z.pos BN.scale # 1); [exact S |].
  rewrite round_half_up_units.
  pose proof (Qfloor_le (q * (Z.pos BN.scale # 1) + (1 # 2))) as F.
  assert (H : (1 # (2 * BN.scale)) * (Z.pos BN.scale # 1) == 1 # 2)
    by (vm_compute; reflexivity).
  set (s := Z.pos BN.scale # 1) in *.
  set (h := 1 # (2 * BN.scale)) in *.
  assert (E : (q + h) * s == q * s + h * s) by ring.
  rewrite E, H. exact F.
Qed.

(** What a quote is when it is known up to the value of its magnitude. *)
Lemma positive_quote_inv (y : option BN.t) (q r : Q) :
  result_eq y
    (if gtZero (BN.Finite false q) then Some (BN.Finite false q) else None) ->
  y = Some (BN.Finite false r) -> 0 < q /\ r == q.
Proof.
  intros V ->. destruct (gtZero (BN.Finite false q)) eqn:G.
  - apply gtZero_Finite in G. destruct V as [_ E]. split; assumption.
  - destruct V.
Qed.

Lemma positive_quote_intro (y : option BN.t) (q : Q) :
  result_eq y
    (if gtZero (BN.Finite false q) then Some (BN.Finite false q) else None) ->
  0 < q -> exists r, y = Some (BN.Finite false r) /\ r == q.
Proof.
  intros V P. rewrite gtZero_pos in V by exact P.
  destruct y as [[| s | s m] |]; try destruct V.
  subst s. exists m. split; [reflexivity | assumption].
Qed.

Lemma representable_as_units (t : Q) :
  representable t -> exists z, t == z # BN.scale.
Proof.
  intros R. exists (Qfloor (t * (Z.pos BN.scale # 1) + (1 # 2))).
  symmetry. exact R.
Qed.

Lemma Qfloor_plus_Z (y : Q) (z : Z) :
  Qfloor (y + inject_Z z) = (Qfloor y + z)%Z.
Proof.
  pose proof (Qfloor_le y) as L. pose proof (Qlt_floor y) as U.
  pose proof (Qfloor_le (y + inject_Z z)) as L'.
  pose proof (Qlt_floor (y + inject_Z z)) as U'.
  set (n := Qfloor y) in *. set (f := Qfloor (y + inject_Z z)) in *.
  clearbody n f.
  assert (A : inject_Z f < inject_Z (n + 1 + z)).
  { rewrite inject_Z_plus. lra. }
  assert (B : inject_Z (n + z) < inject_Z (f + 1)).
  { rewrite inject_Z_plus. lra. }
  rewrite <- Zlt_Qlt in A, B. lia.
Qed.

(** Rounding commutes with the addition of an amount of at most 20
    decimals. *)
Lemma round_half_up_shift (x g : Q) :
  representable g -> BN.round_half_up (x + g) == BN.round_half_up x + g.
Proof.
  intros R. destruct (representable_as_units g R) as [z E].
  assert (S : 0 < (Z.pos BN.scale # 1)) by reflexivity.
  apply Qmult_inj_r with (Z.pos BN.scale # 1); [lra |].
  rewrite Qmult_plus_distr_l, !round_half_up_units.
  rewrite (Qfloor_comp _ (x * (Z.pos BN.scale # 1) + (1 # 2) + inject_Z z)).
  - rewrite Qfloor_plus_Z, inject_Z_plus, E, units_scaled. reflexivity.
  - rewrite Qmult_plus_distr_l, E, units_scaled. ring.
Qed.

Lemma round_half_up_le (q b : Q) :
  q <= b -> representable b -> BN.round_half_up q <= b.
Proof.
  intros H R. apply Qle_trans with (BN.round_half_up b).
  - now apply round_half_up_mono.
  - apply Qle_lteq. right. exact R.
Qed.

Lemma round_half_up_ge (q b : Q) :
  b <= q -> representable b -> b <= BN.round_half_up q.
Proof.
  intros H R. apply Qle_trans with (BN.round_half_up b).
  - apply Qle_lteq. right. symmetry. exact R.
  - now apply round_half_up_mono.
Qed.

Lemma Qdiv_nonneg (a b : Q) : 0 <= a -> 0 < b -> 0 <= a / b.
Proof.
  intros A B. apply Qle_shift_div_l; [exact B |]. now rewrite Qmult_0_l.
Qed.

(** ** Round trips *)

Lemma representable_round (a b : Q) :
  a == b -> representable b -> BN.round_half_up a == b.
Proof.
  intros E R. rewrite (round_half_up_comp _ _ E). exact R.
Qed.

Lemma positive_or_null_is (r : BN.t) (q : Q) :
  0 < q -> BN.eq r (BN.Finite false q) ->
  result_eq (if gtZero r then Some r else None) (Some (BN.Finite false q)).
Proof.
  intros Hq E. rewrite (gtZero_comp _ _ E), (gtZero_pos q Hq). exact E.
Qed.

(** An amount of at most 20 decimals is reached by rounding from half a
    unit of the 20th decimal below it. *)
Lemma round_half_up_ge_half (y i : Q) :
  representable i -> i - (1 # (2 * BN.scale)) <= y ->
  i <= BN.round_half_up y.
Proof.
  intros R H.
  apply Qle_trans with (BN.round_half_up (- (1 # (2 * BN.scale)) + i)).
  - rewrite (round_half_up_shift _ _ R).
    assert (E : BN.round_half_up (- (1 # (2 * BN.scale))) == 0)
      by (vm_compute; reflexivity).
    rewrite E. lra.
  - apply round_half_up_mono. lra.
Qed.

(** An inverse quote that is the rounding of [back], against the amount
    that was paid for its target. *)
Lemma round_trip_cases (y : option BN.t) (i back : Q) :
  representable i -> 0 < i ->
  result_eq y
    (if gtZero (BN.Finite false (BN.round_half_up back))
     then Some (BN.Finite false (BN.round_half_up back)) else None) ->
  (i - (1 # (2 * BN.scale)) <= back ->
   exists r, y = Some (BN.Finite false r) /\ i <= r)
  /\ (back < i - (1 # (2 * BN.scale)) ->
      y = None \/ exists r, y = Some (BN.Finite false r) /\ r < i).
Proof.
  intros R P V. split; intros H.
  - pose proof (round_half_up_ge_half back i R H) as G.
    destruct (positive_quote_intro _ _ V) as [r [E Er]]; [lra |].
    exists r. split; [exact E | lra].
  - destruct y as [[| a | a m] |].
    + right. destruct (gtZero _); destruct V.
    + right. destruct (gtZero _); destruct V.
    + right. destruct (gtZero _) eqn:G; [|destruct V].
      destruct V as [-> Em]. exists m. split; [reflexivity |].
      pose proof (round_half_up_le_half_unit back). lra.
    + now left.
Qed.

(** The inverse of a forward quotient that was not rounded down: with
    input pool [A], output pool [B] and multiplier [M]. *)
Lemma round_trip_arith (i A B M o : Q) :
  0 < i -> 0 < A -> 0 < M -> o < B ->
  i * B * M / (A * 1000000 + i * M) <= o ->
  i <= A * o * 1000000 / ((B - o) * M).
Proof.
  intros Pi PA PM Lo H.
  assert (D : 0 < A * 1000000 + i * M).
  { assert (0 < i * M) by now apply Qmult_lt_0_compat. lra. }
  assert (D' : 0 < (B - o) * M) by (apply Qmult_lt_0_compat; lra).
  apply Qle_shift_div_l; [exact D' |].
  assert (H' : i * B * M <= o * (A * 1000000 + i * M)).
  { apply Qmult_le_r with (z := / (A * 1000000 + i * M));
      [now apply Qinv_lt_0_compat |].
    assert (E : o * (A * 1000000 + i * M) * / (A * 1000000 + i * M) == o)
      by (field; lra).
    rewrite E. exact H. }
  lra.
Qed.

(** C3 (amended).  Take an input [amount] of at most 20 decimals,
    percentages in [0, 100] and integer decimals in 0..308, and let [o] be
    the output of the forward quote, with 0 < o below the pool it is taken
    from.  The inverse quote of [o] is the exact inverse [back] of [o]
    rounded at 20 decimals: it is a value not below [amount] exactly when
    [back] is no more than half a unit of the 20th decimal below [amount],
    and null or a value below [amount] otherwise.  It is not below
    [amount], in particular, whenever the forward division did not round
    its quotient down.  This holds for xtzToTokenXtzInput after
    xtzToTokenTokenOutput under either subsidy flag, and for
    tokenToXtzTokenInput after tokenToXtzXtzOutput when the subsidy is off
    and the burn percentage is below 0.1 (burn multiplier 1000). *)
Theorem round_trip_of_a_quote
  (lb : bool) (amount xtzPool tokenPool feePercent burnPercent : Q) (d : Z) :
  0 < amount -> 0 < xtzPool -> 0 < tokenPool -> (0 <= d <= 308)%Z ->
  0 <= feePercent -> feePercent <= 100 # 1 ->
  0 <= burnPercent -> burnPercent <= 100 # 1 ->
  representable amount ->
  let m := inject_Z (multiplier_of feePercent)
           * inject_Z (multiplier_of burnPercent) in
  let f := inject_Z (multiplier_of feePercent) * 1000 in
  let half := 1 # (2 * BN.scale) in
  (exists o,
     xtzToTokenTokenOutput lb (BN.of_Q amount) (BN.of_Q xtzPool)
       (BN.of_Q tokenPool) feePercent burnPercent
     = Some (BN.Finite false o)
     /\ (0 < o -> o < tokenPool ->
         let back :=
           credited_Q lb xtzPool * o * 1000000 / ((tokenPool - o) * m) in
         let inverse :=
           xtzToTokenXtzInput lb (BN.Finite false o) (BN.of_Q xtzPool)
             (BN.of_Q tokenPool) (BN.of_Z d) feePercent burnPercent in
         (amount - half <= back ->
          exists r, inverse = Some (BN.Finite false r) /\ amount <= r)
         /\ (back < amount - half ->
             inverse = None
             \/ exists r, inverse = Some (BN.Finite false r) /\ r < amount)
         /\ (amount * tokenPool * m
             / (credited_Q lb xtzPool * 1000000 + amount * m) <= o ->
             exists r, inverse = Some (BN.Finite false r) /\ amount <= r)))
  /\ (burnPercent < 1 # 10 ->
      exists o,
        tokenToXtzXtzOutput false (BN.of_Q amount) (BN.of_Q xtzPool)
          (BN.of_Q tokenPool) feePercent burnPercent
        = Some (BN.Finite false o)
        /\ (0 < o -> o < xtzPool ->
            let back := tokenPool * o * 1000000 / ((xtzPool - o) * f) in
            let inverse :=
              tokenToXtzTokenInput false (BN.Finite false o)
                (BN.of_Q xtzPool) (BN.of_Q tokenPool) (BN.of_Z d)
                feePercent burnPercent in
            (amount - half <= back ->
             exists r, inverse = Some (BN.Finite false r) /\ amount <= r)
            /\ (back < amount - half ->
                inverse = None
                \/ exists r,
                     inverse = Some (BN.Finite false r) /\ r < amount)
            /\ (amount * xtzPool * f
                / (tokenPool * 1000000 + amount * f) <= o ->
                exists r,
                  inverse = Some (BN.Finite false r) /\ amount <= r))).
Proof.
  intros Hi HX HT Hd Hf1 Hf2 Hb1 Hb2 Ri m f half.
  destruct (multiplier_of_range feePercent Hf1 Hf2) as [F1 F2].
  destruct (multiplier_of_range burnPercent Hb1 Hb2) as [B1 B2].
  pose proof (inject_Z_nonneg _ F1) as F.
  pose proof (inject_Z_nonneg _ B1) as B.
  pose proof (credited_Q_pos lb xtzPool HX) as HXe.
  subst half.
  assert (Hh : 0 <= 1 # (2 * BN.scale)) by discriminate.
  split.
  - eexists. split; [apply xtzToTokenTokenOutput_value; lra |].
    fold m. change (inject_Z 1000000) with 1000000.
    set (o := BN.round_half_up _).
    intros Po Lo back inverse.
    (* a positive output leaves no percentage at 100 *)
    assert (M : 0 < m).
    { destruct (Qlt_le_dec 0 m) as [P | N]; [exact P | exfalso].
      assert (Em : m == 0).
      { assert (0 <= m) by (apply Qmult_le_0_compat; assumption). lra. }
      assert (Eo : o == 0).
      { unfold o. apply representable_round; [|apply (representable_Z 0)].
        rewrite Em. change (inject_Z 0) with 0. field. lra. }
      lra. }
    assert (Hf3 : feePercent < 100 # 1).
    { destruct (Qlt_le_dec feePercent (100 # 1)) as [P | N];
        [exact P | exfalso].
      unfold m in M. rewrite (multiplier_of_full feePercent N Hf2) in M.
      change (inject_Z 0) with 0 in M. lra. }
    assert (Hb3 : burnPercent < 100 # 1).
    { destruct (Qlt_le_dec burnPercent (100 # 1)) as [P | N];
        [exact P | exfalso].
      unfold m in M. rewrite (multiplier_of_full burnPercent N Hb2) in M.
      change (inject_Z 0) with 0 in M. lra. }
    pose proof (xtzToTokenXtzInput_value lb o xtzPool tokenPool d
                  feePercent burnPercent Po Lo HX Hd Hf1 Hf3 Hb1 Hb3) as V.
    cbv zeta in V. fold m in V.
    change (inject_Z 1000000) with 1000000 in V.
    fold back in V. fold inverse in V.
    destruct (round_trip_cases inverse amount back Ri Hi V) as [Up Down].
    split; [exact Up |]. split; [exact Down |].
    intros Hq. apply Up.
    pose proof (round_trip_arith amount (credited_Q lb xtzPool) tokenPool m
                  o Hi HXe M Lo Hq) as A.
    fold back in A.
    set (h := 1 # (2 * BN.scale)) in *. clearbody h. lra.
  - intros Hb3.
    pose proof (multiplier_of_small burnPercent Hb1 Hb3) as Eb.
    assert (Efb : m == f).
    { unfold m, f. rewrite Eb. reflexivity. }
    eexists. split; [apply tokenToXtzXtzOutput_value; lra |].
    fold m. change (inject_Z 1000) with 1000. fold f.
    change (inject_Z 1000000) with 1000000.
    set (o := BN.round_half_up _).
    intros Po Lo back inverse.
    assert (Fp : 0 < f).
    { destruct (Qlt_le_dec 0 f) as [P | N]; [exact P | exfalso].
      assert (Ef : f == 0) by (unfold f in *; lra).
      assert (Eo : o == 0).
      { unfold o. apply representable_round; [|apply (representable_Z 0)].
        rewrite Efb, Ef. field. lra. }
      lra. }
    assert (Hlt : o * m < credited_Q false xtzPool * f).
    { cbn [credited_Q]. rewrite Efb. apply Qmult_lt_compat_r; assumption. }
    pose proof (tokenToXtzTokenInput_value false o xtzPool tokenPool d
                  feePercent burnPercent Po HX HT Hd Hf1 Hf2 Hb1 Hb2 Hlt)
      as V.
    cbv zeta in V. fold m in V. change (inject_Z 1000) with 1000 in V.
    fold f in V. change (inject_Z 1000000) with 1000000 in V.
    cbn [credited_Q] in V. fold inverse in V.
    assert (Eback : tokenPool * o * 1000000 / (xtzPool * f - o * m)
                    == back).
    { assert (0 < (xtzPool - o) * f) by (apply Qmult_lt_0_compat; lra).
      unfold back. rewrite Efb. field. repeat split; lra. }
    rewrite (gtZero_comp _ (BN.Finite false (BN.round_half_up back))) in V
      by (split; [reflexivity | now apply round_half_up_comp]).
    assert (V' : result_eq inverse
                   (if gtZero (BN.Finite false (BN.round_half_up back))
                    then Some (BN.Finite false (BN.round_half_up back))
                    else None)).
    { destruct (gtZero (BN.Finite false (BN.round_half_up back)));
        [|exact V].
      eapply result_eq_trans; [exact V |].
      split; [reflexivity | now apply round_half_up_comp]. }
    destruct (round_trip_cases inverse amount back Ri Hi V') as [Up Down].
    split; [exact Up |]. split; [exact Down |].
    intros Hq. apply Up.
    pose proof (round_trip_arith amount tokenPool xtzPool f o Hi HT Fp Lo
                  Hq) as A.
    fold back in A.
    set (h := 1 # (2 * BN.scale)) in *. clearbody h. lra.
Qed.

(** C3 (witness): 2 mutez against pools of 1 and 1 buy
    0.66666666666666666667 token, the quotient rounded up, and that much
    costs 2.00000000000000000003 mutez. *)
Lemma round_trip_witness :
  exists o r,
    xtzToTokenTokenOutput false (BN.of_Q 2) (BN.of_Q 1) (BN.of_Q 1) 0 0
    = Some (BN.Finite false o)
    /\ xtzToTokenXtzInput false (BN.Finite false o) (BN.of_Q 1) (BN.of_Q 1)
         (BN.of_Z 0) 0 0
       = Some (BN.Finite false r)
    /\ 2 <= r.
Proof.
  destruct (round_trip_of_a_quote false 2 1 1 0 0 0) as [[o [E H]] _];
    try lra; try lia; [apply (representable_Z 2) |].
  assert (Eo : o = 66666666666666666667 # BN.scale).
  { vm_compute in E. injection E as <-. reflexivity. }
  subst o.
  destruct H as (_ & _ & H); [reflexivity | reflexivity |].
  destruct H as [r [Er Hr]].
  - apply Qle_bool_iff. vm_compute. reflexivity.
  - eexists. exists r. split; [exact E |]. split; [exact Er | exact Hr].
Defined.

(** C3 (counterexample).  The inverse quote of a forward quote falls below
    the input, or is null, in four ways, all with fees of 0 on a plain
    exchange.  A quotient rounded down: 1 mutez against pools of 2 and 1
    buys 0.33333333333333333333 token, whose price is
    0.99999999999999999999.  An output rounded to zero: 1 mutez against
    pools of 1e21 and 1 buys 0, and the quote for 0 is null.  An input of
    more than 20 decimals: 0.000000000100000000010000000001 against pools
    of 1 and 1 buys 0.0000000001, whose price is 0.00000000010000000001.
    An output rounded above the pool: 1,000,000 against pools of 1 and
    6e-21 buys 1e-20, and the quote for that is null. *)
Lemma round_trip_falls_short :
  (exists o,
     xtzToTokenTokenOutput false (BN.of_Z 1) (BN.of_Z 2) (BN.of_Z 1) 0 0
     = Some o
     /\ result_eq
          (xtzToTokenXtzInput false o (BN.of_Z 2) (BN.of_Z 1) (BN.of_Z 0)
             0 0)
          (Some (BN.of_Q (99999999999999999999 # BN.scale)))
     /\ 99999999999999999999 # BN.scale < 1)
  /\ (exists o,
        xtzToTokenTokenOutput false (BN.of_Z 1) (BN.of_Z (10 ^ 21))
          (BN.of_Z 1) 0 0 = Some o
        /\ xtzToTokenXtzInput false o (BN.of_Z (10 ^ 21)) (BN.of_Z 1)
             (BN.of_Z 0) 0 0 = None)
  /\ (exists o,
        xtzToTokenTokenOutput false
          (BN.of_Q (100000000010000000001 # 10 ^ 30)) (BN.of_Z 1)
          (BN.of_Z 1) 0 0 = Some o
        /\ result_eq
             (xtzToTokenXtzInput false o (BN.of_Z 1) (BN.of_Z 1) (BN.of_Z 0)
                0 0)
             (Some (BN.of_Q (10000000001 # BN.scale)))
        /\ 10000000001 # BN.scale < 100000000010000000001 # 10 ^ 30)
  /\ (exists o,
        xtzToTokenTokenOutput false (BN.of_Z 1000000) (BN.of_Z 1)
          (BN.of_Q (6 # 10 ^ 21)) 0 0 = Some o
        /\ xtzToTokenXtzInput false o (BN.of_Z 1) (BN.of_Q (6 # 10 ^ 21))
             (BN.of_Z 0) 0 0 = None).
Proof.
  split; [|split; [|split]].
  - eexists. split; [vm_compute; reflexivity |].
    split; [evaluate | reflexivity].
  - eexists. split; vm_compute; reflexivity.
  - eexists. split; [vm_compute; reflexivity |].
    split; [evaluate | reflexivity].
  - eexists. split; vm_compute; reflexivity.
Qed.

(** With a burn the token-to-xtz inverse is another formula than the
    inverse of the forward quote (its divisor exchanges the two
    multipliers), so its round trip is not covered above: 1000 tokens sold
    to pools of 1,000,000 mutez and 1000 tokens with a burn of 0.1 percent
    yield 499,500 mutez, and the quote for 499,500 mutez is
    997.00698304090123842439 tokens. *)
Lemma tokenToXtz_round_trip_with_a_burn :
  exists o,
    tokenToXtzXtzOutput false (BN.of_Z 1000) (BN.of_Z 1000000)
      (BN.of_Z 1000) 0 (1 # 10) = Some o
    /\ BN.eq o (BN.of_Z 499500)
    /\ result_eq
         (tokenToXtzTokenInput false o (BN.of_Z 1000000) (BN.of_Z 1000)
            (BN.of_Z 0) 0 (1 # 10))
         (Some (BN.of_Q (99700698304090123842439 # BN.scale))).
Proof.
  eexists. split; [vm_compute; reflexivity |].
  split; [refine (proj1 (BN_eqb_eq _ _) _); vm_compute; reflexivity |].
  evaluate.
Qed.

(** At the pool itself the divisor is zero and the quotient is +Infinity,
    which passes the sign test. *)
Lemma inverse_quote_of_the_whole_pool_is_infinite :
  xtzToTokenXtzInput false (BN.of_Z 10) (BN.of_Z 100) (BN.of_Z 10)
    (BN.of_Z 0) 0 0 = Some (BN.Infinity false)
  /\ tokenToXtzTokenInput false (BN.of_Z 10) (BN.of_Z 10) (BN.of_Z 10)
       (BN.of_Z 0) 0 0 = Some (BN.Infinity false).
Proof. split; vm_compute; reflexivity. Qed.

(** ** Price impact *)

Lemma leqZero_Finite (m : Q) :
  leqZero (BN.Finite false m) = true <-> m <= 0.
Proof.
  unfold leqZero, BN.isLessThanOrEqualTo. simpl.
  change (inject_Z 0) with 0.
  destruct (m ?= 0) eqn:E.
  - apply Qeq_alt in E. split; intros H; [lra | reflexivity].
  - apply Qlt_alt in E. split; intros H; [lra | reflexivity].
  - apply Qgt_alt in E. split; intros H; [discriminate H | lra].
Qed.

Lemma dividedBy_Finite_pos (a b : Q) :
  0 < b ->
  BN.dividedBy (BN.Finite false a) (BN.Finite false b)
  = BN.Finite false (BN.round_half_up (a / b)).
Proof.
  intros H. cbn [BN.dividedBy xorb]. now rewrite is_zero_mag_pos.
Qed.

Lemma minus_Finite_ge (a b : Q) :
  b <= a ->
  exists m, BN.minus (BN.Finite false a) (BN.Finite false b)
            = BN.Finite false m /\ m == a - b.
Proof.
  intros H. destruct (Qeq_dec a b) as [E | N].
  - exists 0. split; [now apply minus_Finite_eq | lra].
  - exists (a - b). split; [apply minus_Finite_gt | reflexivity].
    apply Qle_lteq in H. destruct H as [H | H]; [exact H |].
    symmetry in H. contradiction.
Qed.

Lemma representable_times_Z (a : Q) (k : Z) :
  representable a -> representable (a * inject_Z k).
Proof.
  intros R.
  apply (representable_comp
           ((Qfloor (a * (Z.pos BN.scale # 1) + (1 # 2)) * k)%Z # BN.scale)).
  - unfold representable, BN.round_half_up in R.
    set (z := Qfloor (a * (Z.pos BN.scale # 1) + (1 # 2))) in *.
    rewrite <- R. clearbody z. clear R.
    generalize BN.scale. intros p.
    unfold Qeq, Qmult, inject_Z. cbn [Qnum Qden].
    rewrite Pos.mul_1_r. ring.
  - apply representable_units.
Qed.

Lemma round_half_up_le_1 (q : Q) : q <= 1 -> BN.round_half_up q <= 1.
Proof.
  intros H. pose proof (round_half_up_mono q 1 H) as M.
  pose proof (representable_Z 1) as R. unfold representable in R.
  change (inject_Z 1) with 1 in R. rewrite R in M. exact M.
Qed.

Lemma xtzToTokenPriceImpact_zero lb a X T bp :
  gtZero a && gtZero (credited lb X) && gtZero T = true ->
  leqZero (xtzToToken_tokensBought a (credited lb X) T (multiplier_of bp))
  = true ->
  xtzToTokenPriceImpact lb a X T bp = Some (BN.of_Z 0).
Proof.
  intros G H. unfold xtzToTokenPriceImpact, new_BigNumber.
  fold (credited lb X). now rewrite G, H.
Qed.

Lemma tokenToXtzPriceImpact_zero lb a X T bp :
  gtZero a && gtZero (credited lb X) && gtZero T = true ->
  leqZero (tokenToXtz_xtzBoughtNetBurn a (credited lb X) T (multiplier_of bp))
  = true ->
  tokenToXtzPriceImpact lb a X T bp = Some (BN.of_Z 0).
Proof.
  intros G H. unfold tokenToXtzPriceImpact, new_BigNumber.
  fold (credited lb X). now rewrite G, H.
Qed.

Lemma tokenToXtz_xtzBoughtNetBurn_value (i X T : Q) (burn : Z) :
  0 < i -> 0 < T -> (0 <= burn)%Z ->
  tokenToXtz_xtzBoughtNetBurn (BN.Finite false i) (BN.Finite false X)
    (BN.Finite false T) burn
  = BN.Finite false
      (BN.round_half_up
         (BN.round_half_up (i * X / (i + T)) * inject_Z burn
          / inject_Z 1000)).
Proof.
  intros Hi HT Hb. unfold tokenToXtz_xtzBoughtNetBurn.
  rewrite of_Z_nonneg by exact Hb.
  change (BN.of_Z 1000) with (BN.Finite false (inject_Z 1000)).
  cbn [BN.times BN.plus BN.sign Bool.eqb BN.add_same xorb].
  rewrite dividedBy_Finite_pos by lra.
  cbn [BN.times xorb].
  now rewrite dividedBy_Finite_pos by reflexivity.
Qed.

(** The zero rule, and the range where the mid price is a ratio.  For a
    whole positive amount against positive pools and a burn percentage in
    [0, 100], each price-impact function returns exactly 0 whenever the net
    proceeds it computed are not positive, and tokenToXtzPriceImpact
    returns a value in [0, 1] whenever its mid price xtzPool / tokenPool
    (xtzPool as credited) is exact at 20 decimals. *)
Lemma price_impact_zero_rule_and_range
  (lb : bool) (amount : Z) (xtzPool tokenPool burnPercent : Q) :
  (0 < amount)%Z -> 0 < xtzPool -> 0 < tokenPool ->
  0 <= burnPercent -> burnPercent <= 100 # 1 ->
  let burn := multiplier_of burnPercent in
  let a := BN.of_Z amount in
  let X := BN.of_Q xtzPool in
  let T := BN.of_Q tokenPool in
  (leqZero (xtzToToken_tokensBought a (credited lb X) T burn) = true ->
   xtzToTokenPriceImpact lb a X T burnPercent = Some (BN.of_Z 0))
  /\ (leqZero (tokenToXtz_xtzBoughtNetBurn a (credited lb X) T burn) = true ->
      tokenToXtzPriceImpact lb a X T burnPercent = Some (BN.of_Z 0))
  /\ (representable (credited_Q lb xtzPool / tokenPool) ->
      exists r,
        tokenToXtzPriceImpact lb a X T burnPercent
        = Some (BN.Finite false r)
        /\ 0 <= r /\ r <= 1).
Proof.
  intros Ha HX HT Hb1 Hb2 burn a X T.
  destruct (multiplier_of_range burnPercent Hb1 Hb2) as [B1 B2].
  fold burn in B1, B2.
  pose proof (credited_Q_pos lb xtzPool HX) as HXe.
  pose proof (inject_Z_pos _ Ha) as Hi.
  assert (Ea : a = BN.Finite false (inject_Z amount))
    by (apply of_Z_nonneg; lia).
  assert (EX : credited lb X = BN.Finite false (credited_Q lb xtzPool))
    by (apply credited_of_Q; lra).
  assert (ET : T = BN.Finite false tokenPool) by (apply of_Q_nonneg; lra).
  assert (G : gtZero a && gtZero (credited lb X) && gtZero T = true).
  { rewrite Ea, EX, ET. now rewrite !gtZero_pos. }
  split; [apply xtzToTokenPriceImpact_zero; exact G |].
  split; [apply tokenToXtzPriceImpact_zero; exact G |].
  intros Rm.
  set (i := inject_Z amount) in *.
  set (Xe := credited_Q lb xtzPool) in *.
  set (mid := BN.round_half_up (Xe / tokenPool)).
  set (bought := BN.round_half_up (i * Xe / (i + tokenPool))).
  set (net := BN.round_half_up (bought * inject_Z burn / inject_Z 1000)).
  assert (Emid : mid == Xe / tokenPool) by exact Rm.
  assert (Pmid : 0 < mid).
  { rewrite Emid. apply Qlt_shift_div_l; [exact HT | lra]. }
  assert (Pb : 0 <= bought).
  { apply round_half_up_nonneg. apply Qle_shift_div_l; [lra |].
    rewrite Qmult_0_l. apply Qmult_le_0_compat; lra. }
  assert (Lb : bought <= mid * i).
  { assert (Rq : representable (mid * i))
      by (apply representable_times_Z, round_half_up_idem).
    unfold representable in Rq. rewrite <- Rq.
    apply round_half_up_mono. rewrite Emid.
    apply Qle_shift_div_r; [lra |].
    assert (E : Xe / tokenPool * i * (i + tokenPool)
                == i * Xe + Xe * i * i / tokenPool) by (field; lra).
    rewrite E.
    assert (0 <= Xe * i * i / tokenPool); [|lra].
    apply Qle_shift_div_l; [exact HT |]. rewrite Qmult_0_l.
    repeat apply Qmult_le_0_compat; lra. }
  assert (Pn : 0 <= net).
  { apply round_half_up_nonneg. apply Qle_shift_div_l; [reflexivity |].
    rewrite Qmult_0_l. apply Qmult_le_0_compat;
      [exact Pb | now apply inject_Z_nonneg]. }
  assert (Ln : net <= bought).
  { pose proof (round_half_up_idem (i * Xe / (i + tokenPool))) as Rb.
    fold bought in Rb. unfold representable in Rb. rewrite <- Rb.
    apply round_half_up_mono.
    apply Qle_shift_div_r; [reflexivity |].
    assert (inject_Z burn <= inject_Z 1000) by (now rewrite <- Zle_Qle).
    assert (0 <= bought * (inject_Z 1000 - inject_Z burn))
      by (apply Qmult_le_0_compat; lra).
    lra. }
  unfold tokenToXtzPriceImpact, new_BigNumber.
  fold (credited lb X). rewrite G, Ea, EX, ET.
  rewrite tokenToXtz_xtzBoughtNetBurn_value by (assumption || lra).
  fold burn. fold i. fold Xe. fold bought. fold net.
  destruct (leqZero (BN.Finite false net)) eqn:Z.
  - exists (inject_Z 0). split; [reflexivity |].
    change (inject_Z 0) with 0. lra.
  - assert (Nn : 0 < net).
    { destruct (Qlt_le_dec 0 net) as [P | N]; [exact P |].
      apply leqZero_Finite in N. congruence. }
    rewrite dividedBy_Finite_pos by exact HT. fold mid.
    cbn [BN.times xorb].
    destruct (minus_Finite_ge (mid * i) net) as [m [Em Hm]]; [lra |].
    rewrite Em, dividedBy_Finite_pos by lra.
    exists (BN.round_half_up (m / (mid * i))).
    split; [reflexivity |]. split.
    + apply round_half_up_nonneg. apply Qle_shift_div_l; lra.
    + apply round_half_up_le_1. apply Qle_shift_div_r; lra.
Qed.

(** C7.  xtzToTokenPriceImpact takes the product tokenPool * xtzPool for
    its mid price, where tokenToXtzPriceImpact takes the ratio xtzPool /
    tokenPool, so the quote it compares the proceeds with is out of all
    proportion to them.  On a plain exchange with a burn of 0: 1 tez
    against pools of 29,757,960,047 mutez and 351,953,939 tokens, and 200
    tez against pools of 34,204,881,343 mutez and 39,306,268 tokens, both
    have a price impact of exactly 1, outside [0, 1); half a mutez against
    pools of 0.5 mutez and 1 token has a price impact of -1.
    tokenToXtzPriceImpact gives 100,000,000 tokens against pools of
    3,849,181,242 mutez and 44,365,061 tokens an impact of
    0.69268837838817523861. *)
Theorem xtzToTokenPriceImpact_takes_a_product_for_the_mid_price :
  result_eq
    (xtzToTokenPriceImpact false (BN.of_Z 1000000) (BN.of_Z 29757960047)
       (BN.of_Z 351953939) 0)
    (Some (BN.of_Z 1))
  /\ result_eq
       (xtzToTokenPriceImpact false (BN.of_Z 200000000)
          (BN.of_Z 34204881343) (BN.of_Z 39306268) 0)
       (Some (BN.of_Z 1))
  /\ result_eq
       (xtzToTokenPriceImpact false (BN.of_Q (1 # 2)) (BN.of_Q (1 # 2))
          (BN.of_Z 1) 0)
       (Some (BN.of_Q (- (1))))
  /\ result_eq
       (tokenToXtzPriceImpact false (BN.of_Z 100000000)
          (BN.of_Z 3849181242) (BN.of_Z 44365061) 0)
       (Some (BN.of_Q (69268837838817523861 # BN.scale))).
Proof.
  split; [evaluate |]. split; [evaluate |]. split; evaluate.
Qed.

(** Rounding alone takes tokenToXtzPriceImpact to the end of its range:
    1e21 tokens sold to pools of 1 mutez and 1 token have a price impact
    of exactly 1, the quotient 1 - 1e-21 rounded at 20 decimals. *)
Lemma tokenToXtz_price_impact_rounds_to_one :
  result_eq
    (tokenToXtzPriceImpact false (BN.of_Z (10 ^ 21)) (BN.of_Z 1) (BN.of_Z 1)
       0)
    (Some (BN.of_Z 1)).
Proof. evaluate. Qed.

(** Why an exact mid price is asked for above: with pools of 1 mutez and
    3e19 tokens the mid price rounds down to 3e-20 and 10 tokens get an impact
    of -0.1; with pools of 1 and 1e21 it rounds to zero and the impact of
    1e21 tokens is -Infinity. *)
Lemma tokenToXtz_price_impact_with_a_rounded_mid_price :
  result_eq
    (tokenToXtzPriceImpact false (BN.of_Z 10) (BN.of_Z 1)
       (BN.of_Z (3 * 10 ^ 19)) 0)
    (Some (BN.of_Q (- (1 # 10))))
  /\ tokenToXtzPriceImpact false (BN.of_Z (10 ^ 21)) (BN.of_Z 1)
       (BN.of_Z (10 ^ 21)) 0 = Some (BN.Infinity true).
Proof. split; [evaluate | vm_compute; reflexivity]. Qed.

(** ** Invalid operands *)

Ltac reject H :=
  repeat (destruct H as [H | H]);
  rewrite H, ?andb_false_r; reflexivity.

Lemma xtzToTokenTokenOutput_null lb a X T fp bp :
  gtZero a = false \/ gtZero (credited lb X) = false \/ gtZero T = false ->
  xtzToTokenTokenOutput lb a X T fp bp = None.
Proof.
  intros H. unfold xtzToTokenTokenOutput, new_BigNumber.
  fold (credited lb X). reject H.
Qed.

Lemma xtzToTokenXtzInput_null lb o X T d fp bp :
  gtZero o = false \/ gtZero (credited lb X) = false \/ gtZero T = false
  \/ geqZero d = false ->
  xtzToTokenXtzInput lb o X T d fp bp = None.
Proof.
  intros H. unfold xtzToTokenXtzInput, new_BigNumber.
  fold (credited lb X). reject H.
Qed.

Lemma xtzToTokenExchangeRate_null lb a X T fp bp :
  gtZero a = false \/ gtZero X = false \/ gtZero (credited lb X) = false
  \/ gtZero T = false ->
  xtzToTokenExchangeRate lb a X T fp bp = None.
Proof.
  intros H. unfold xtzToTokenExchangeRate, new_BigNumber.
  destruct (gtZero a && gtZero X && gtZero T) eqn:G; [|reflexivity].
  rewrite xtzToTokenTokenOutput_null; [reflexivity |].
  apply andb_true_iff in G. destruct G as [G GT].
  apply andb_true_iff in G. destruct G as [Ga GX].
  destruct H as [H | [H | [H | H]]]; try congruence. tauto.
Qed.

Lemma xtzToTokenExchangeRateForDisplay_null lb a X T d fp bp :
  gtZero a = false \/ gtZero X = false \/ gtZero (credited lb X) = false
  \/ gtZero T = false ->
  xtzToTokenExchangeRateForDisplay lb a X T d fp bp = None.
Proof.
  intros H. unfold xtzToTokenExchangeRateForDisplay, new_BigNumber.
  destruct (gtZero a && gtZero X && gtZero T) eqn:G; [|reflexivity].
  rewrite xtzToTokenTokenOutput_null; [reflexivity |].
  apply andb_true_iff in G. destruct G as [G GT].
  apply andb_true_iff in G. destruct G as [Ga GX].
  destruct H as [H | [H | [H | H]]]; try congruence. tauto.
Qed.

Lemma xtzToTokenMarketRate_null X T d :
  gtZero X = false \/ gtZero T = false \/ geqZero d = false ->
  xtzToTokenMarketRate X T d = None.
Proof. intros H. unfold xtzToTokenMarketRate, new_BigNumber. reject H. Qed.

Lemma xtzToTokenPriceImpact_null lb a X T bp :
  gtZero a = false \/ gtZero (credited lb X) = false \/ gtZero T = false ->
  xtzToTokenPriceImpact lb a X T bp = None.
Proof.
  intros H. unfold xtzToTokenPriceImpact, new_BigNumber.
  fold (credited lb X). reject H.
Qed.

Lemma Qle_bool_false (x y : Q) : y < x -> Qle_bool x y = false.
Proof.
  intros H. destruct (Qle_bool x y) eqn:E; [|reflexivity].
  apply Qle_bool_iff in E. lra.
Qed.

(** A value that is not above zero as a BigNumber is not above zero as a
    number. *)
Lemma Number_gtZero_false (x : BN.t) :
  gtZero x = false -> Number_gtZero x = false.
Proof.
  destruct x as [| a | a m]; [reflexivity | now destruct a |].
  destruct a; [reflexivity |]. intros G. cbn [Number_gtZero].
  assert (H : m <= 0).
  { destruct (Qlt_le_dec 0 m) as [P | N]; [|exact N].
    rewrite (gtZero_pos m P) in G. discriminate G. }
  unfold BN.Qltb. apply negb_false_iff, Qle_bool_iff.
  destruct (Qeq_dec m 0) as [Z | N].
  - rewrite (double_round_zero m Z). lra.
  - assert (P : 0 < - m) by lra.
    unfold Double.round. rewrite (proj1 (Qlt_alt m 0)) by lra.
    pose proof (double_round_pos_nonneg (- m) P). lra.
Qed.

Lemma xtzToTokenMinimumTokenOutput_null o s :
  gtZero o = false \/ s < 0 \/ 1 < s ->
  xtzToTokenMinimumTokenOutput o s = None.
Proof.
  intros H. unfold xtzToTokenMinimumTokenOutput.
  destruct H as [H | [H | H]].
  - now rewrite (Number_gtZero_false o H).
  - now rewrite (Qle_bool_false _ _ H), andb_false_r.
  - now rewrite (Qle_bool_false _ _ H), andb_false_r.
Qed.

Lemma totalLiquidityProviderFee_null a :
  gtZero a = false -> totalLiquidityProviderFee a = None.
Proof.
  intros H. unfold totalLiquidityProviderFee, new_BigNumber. now rewrite H.
Qed.

Lemma liquidityProviderFee_null a tl ul :
  gtZero a = false \/ gtZero tl = false \/ gtZero ul = false ->
  liquidityProviderFee a tl ul = None.
Proof. intros H. unfold liquidityProviderFee, new_BigNumber. reject H. Qed.

Lemma tokenToXtzXtzOutput_null lb a X T fp bp :
  gtZero a = false \/ gtZero (credited lb X) = false \/ gtZero T = false ->
  tokenToXtzXtzOutput lb a X T fp bp = None.
Proof.
  intros H. unfold tokenToXtzXtzOutput, new_BigNumber.
  fold (credited lb X). reject H.
Qed.

Lemma tokenToXtzTokenInput_null lb o X T d fp bp :
  gtZero o = false \/ gtZero (credited lb X) = false \/ gtZero T = false
  \/ geqZero d = false ->
  tokenToXtzTokenInput lb o X T d fp bp = None.
Proof.
  intros H. unfold tokenToXtzTokenInput, new_BigNumber.
  fold (credited lb X). reject H.
Qed.

Lemma tokenToXtzExchangeRate_null lb a X T fp bp :
  gtZero a = false \/ gtZero X = false \/ gtZero (credited lb X) = false
  \/ gtZero T = false ->
  tokenToXtzExchangeRate lb a X T fp bp = None.
Proof.
  intros H. unfold tokenToXtzExchangeRate, new_BigNumber.
  destruct (gtZero a && gtZero X && gtZero T) eqn:G; [|reflexivity].
  rewrite tokenToXtzXtzOutput_null; [reflexivity |].
  apply andb_true_iff in G. destruct G as [G GT].
  apply andb_true_iff in G. destruct G as [Ga GX].
  destruct H as [H | [H | [H | H]]]; try congruence. tauto.
Qed.

Lemma tokenToXtzExchangeRateForDisplay_null lb a X T d fp bp :
  gtZero a = false \/ gtZero X = false \/ gtZero (credited lb X) = false
  \/ gtZero T = false ->
  tokenToXtzExchangeRateForDisplay lb a X T d fp bp = None.
Proof.
  intros H. unfold tokenToXtzExchangeRateForDisplay, new_BigNumber.
  destruct (gtZero a && gtZero X && gtZero T) eqn:G; [|reflexivity].
  rewrite tokenToXtzXtzOutput_null; [reflexivity |].
  apply andb_true_iff in G. destruct G as [G GT].
  apply andb_true_iff in G. destruct G as [Ga GX].
  destruct H as [H | [H | [H | H]]]; try congruence. tauto.
Qed.

Lemma tokenToXtzMarketRate_null X T d :
  gtZero X = false \/ gtZero T = false \/ geqZero d = false ->
  tokenToXtzMarketRate X T d = None.
Proof. intros H. unfold tokenToXtzMarketRate, new_BigNumber. reject H. Qed.

Lemma tokenToXtzPriceImpact_null lb a X T bp :
  gtZero a = false \/ gtZero (credited lb X) = false \/ gtZero T = false ->
  tokenToXtzPriceImpact lb a X T bp = None.
Proof.
  intros H. unfold tokenToXtzPriceImpact, new_BigNumber.
  fold (credited lb X). reject H.
Qed.

Lemma tokenToXtzMinimumXtzOutput_null o s :
  gtZero o = false \/ s < 0 \/ 1 < s ->
  tokenToXtzMinimumXtzOutput o s = None.
Proof.
  intros H. unfold tokenToXtzMinimumXtzOutput, new_BigNumber.
  destruct H as [H | [H | H]].
  - now rewrite H.
  - now rewrite (Qle_bool_false _ _ H), andb_false_r.
  - now rewrite (Qle_bool_false _ _ H), andb_false_r.
Qed.

Lemma addLiquidityLiquidityCreated_null lb a X tl :
  gtZero a = false \/ gtZero (credited lb X) = false
  \/ (eqZero tl = false /\ gtZero tl = false) ->
  addLiquidityLiquidityCreated lb a X tl = None.
Proof.
  intros H. unfold addLiquidityLiquidityCreated, new_BigNumber.
  fold (credited lb X).
  destruct H as [H | [H | [H1 H2]]].
  - now rewrite H.
  - now rewrite H, andb_false_r.
  - rewrite H1, H2. now destruct (gtZero a && gtZero (credited lb X)).
Qed.

Lemma addLiquidityTokenIn_null lb a X T :
  gtZero a = false \/ gtZero (credited lb X) = false \/ gtZero T = false ->
  addLiquidityTokenIn lb a X T = None.
Proof.
  intros H. unfold addLiquidityTokenIn, new_BigNumber.
  fold (credited lb X). reject H.
Qed.

Lemma addLiquidityXtzIn_null lb a X T :
  gtZero a = false \/ gtZero (credited lb X) = false \/ gtZero T = false ->
  addLiquidityXtzIn lb a X T = None.
Proof.
  intros H. unfold addLiquidityXtzIn, new_BigNumber.
  fold (credited lb X). reject H.
Qed.

Lemma removeLiquidityTokenOut_null l t T :
  gtZero l = false \/ gtZero t = false \/ gtZero T = false ->
  removeLiquidityTokenOut l t T = None.
Proof. intros H. unfold removeLiquidityTokenOut, new_BigNumber. reject H. Qed.

Lemma removeLiquidityXtzOut_null lb l t X :
  gtZero l = false \/ gtZero t = false \/ gtZero (credited lb X) = false ->
  removeLiquidityXtzOut lb l t X = None.
Proof.
  intros H. unfold removeLiquidityXtzOut, new_BigNumber.
  fold (credited lb X). reject H.
Qed.

(** The two display rates read [decimals] without validating it: a
    [decimals] that is not a number comes back as a NaN value. *)
Lemma exchange_rate_for_display_keeps_bad_decimals :
  xtzToTokenExchangeRateForDisplay false (BN.of_Z 1) (BN.of_Z 1) (BN.of_Z 1)
    BN.NaN 0 0 = Some BN.NaN
  /\ tokenToXtzExchangeRateForDisplay false (BN.of_Z 1) (BN.of_Z 1)
       (BN.of_Z 1) BN.NaN 0 0 = Some BN.NaN.
Proof. split; vm_compute; reflexivity. Qed.

(** What [gtZero x = false] covers: NaN (an argument that did not coerce to
    a number) and every finite value that is zero or negative. *)
Lemma gtZero_invalid :
  gtZero BN.NaN = false /\ forall q : Q, q <= 0 -> gtZero (BN.of_Q q) = false.
Proof.
  split; [reflexivity |]. intros q H. unfold BN.of_Q.
  destruct (Qle_bool 0 q) eqn:E; apply gtZero_Finite_false; simpl.
  - exact H.
  - lra.
Qed.

(** C9 (amended).  Every public function returns null whenever an operand
    it validates is NaN or not strictly positive, the XTZ pool being
    validated as credited when the subsidy flag is set (the exchange-rate
    functions validate the uncredited pool as well); the inverse quotes and
    market rates also return null for decimals that are NaN or negative,
    the minimum-output functions for a slippage outside [0, 1], and
    addLiquidityLiquidityCreated for a total liquidity that is NaN or
    negative.  The sentinel is the same everywhere; the functions are total
    on arguments of their declared types, so none of these calls raises. *)
Theorem invalid_operands_give_null (lb : bool) :
  (forall a X T fp bp,
      gtZero a = false \/ gtZero (credited lb X) = false
      \/ gtZero T = false ->
      xtzToTokenTokenOutput lb a X T fp bp = None)
  /\ (forall o X T d fp bp,
         gtZero o = false \/ gtZero (credited lb X) = false
         \/ gtZero T = false \/ geqZero d = false ->
         xtzToTokenXtzInput lb o X T d fp bp = None)
  /\ (forall a X T fp bp,
         gtZero a = false \/ gtZero X = false
         \/ gtZero (credited lb X) = false \/ gtZero T = false ->
         xtzToTokenExchangeRate lb a X T fp bp = None)
  /\ (forall a X T d fp bp,
         gtZero a = false \/ gtZero X = false
         \/ gtZero (credited lb X) = false \/ gtZero T = false ->
         xtzToTokenExchangeRateForDisplay lb a X T d fp bp = None)
  /\ (forall X T d,
         gtZero X = false \/ gtZero T = false \/ geqZero d = false ->
         xtzToTokenMarketRate X T d = None)
  /\ (forall a X T bp,
         gtZero a = false \/ gtZero (credited lb X) = false
         \/ gtZero T = false ->
         xtzToTokenPriceImpact lb a X T bp = None)
  /\ (forall o s,
         gtZero o = false \/ s < 0 \/ 1 < s ->
         xtzToTokenMinimumTokenOutput o s = None)
  /\ (forall a, gtZero a = false -> totalLiquidityProviderFee a = None)
  /\ (forall a tl ul,
         gtZero a = false \/ gtZero tl = false \/ gtZero ul = false ->
         liquidityProviderFee a tl ul = None)
  /\ (forall a X T fp bp,
         gtZero a = false \/ gtZero (credited lb X) = false
         \/ gtZero T = false ->
         tokenToXtzXtzOutput lb a X T fp bp = None)
  /\ (forall o X T d fp bp,
         gtZero o = false \/ gtZero (credited lb X) = false
         \/ gtZero T = false \/ geqZero d = false ->
         tokenToXtzTokenInput lb o X T d fp bp = None)
  /\ (forall a X T fp bp,
         gtZero a = false \/ gtZero X = false
         \/ gtZero (credited lb X) = false \/ gtZero T = false ->
         tokenToXtzExchangeRate lb a X T fp bp = None)
  /\ (forall a X T d fp bp,
         gtZero a = false \/ gtZero X = false
         \/ gtZero (credited lb X) = false \/ gtZero T = false ->
         tokenToXtzExchangeRateForDisplay lb a X T d fp bp = None)
  /\ (forall X T d,
         gtZero X = false \/ gtZero T = false \/ geqZero d = false ->
         tokenToXtzMarketRate X T d = None)
  /\ (forall a X T bp,
         gtZero a = false \/ gtZero (credited lb X) = false
         \/ gtZero T = false ->
         tokenToXtzPriceImpact lb a X T bp = None)
  /\ (forall o s,
         gtZero o = false \/ s < 0 \/ 1 < s ->
         tokenToXtzMinimumXtzOutput o s = None)
  /\ (forall a X tl,
         gtZero a = false \/ gtZero (credited lb X) = false
         \/ (eqZero tl = false /\ gtZero tl = false) ->
         addLiquidityLiquidityCreated lb a X tl = None)
  /\ (forall a X T,
         gtZero a = false \/ gtZero (credited lb X) = false
         \/ gtZero T = false ->
         addLiquidityTokenIn lb a X T = None)
  /\ (forall a X T,
         gtZero a = false \/ gtZero (credited lb X) = false
         \/ gtZero T = false ->
         addLiquidityXtzIn lb a X T = None)
  /\ (forall l t T,
         gtZero l = false \/ gtZero t = false \/ gtZero T = false ->
         removeLiquidityTokenOut l t T = None)
  /\ (forall l t X,
         gtZero l = false \/ gtZero t = false
         \/ gtZero (credited lb X) = false ->
         removeLiquidityXtzOut lb l t X = None).
Proof.
  repeat match goal with |- _ /\ _ => split end; intros.
  - now apply xtzToTokenTokenOutput_null.
  - now apply xtzToTokenXtzInput_null.
  - now apply xtzToTokenExchangeRate_null.
  - now apply xtzToTokenExchangeRateForDisplay_null.
  - now apply xtzToTokenMarketRate_null.
  - now apply xtzToTokenPriceImpact_null.
  - now apply xtzToTokenMinimumTokenOutput_null.
  - now apply totalLiquidityProviderFee_null.
  - now apply liquidityProviderFee_null.
  - now apply tokenToXtzXtzOutput_null.
  - now apply tokenToXtzTokenInput_null.
  - now apply tokenToXtzExchangeRate_null.
  - now apply tokenToXtzExchangeRateForDisplay_null.
  - now apply tokenToXtzMarketRate_null.
  - now apply tokenToXtzPriceImpact_null.
  - now apply tokenToXtzMinimumXtzOutput_null.
  - now apply addLiquidityLiquidityCreated_null.
  - now apply addLiquidityTokenIn_null.
  - now apply addLiquidityXtzIn_null.
  - now apply removeLiquidityTokenOut_null.
  - now apply removeLiquidityXtzOut_null.
Qed.

(** C9 (witness): a zero amount, and a pool of -2,500,000 on a
    liquidity-baking exchange (zero once credited). *)
Lemma invalid_operands_witness :
  xtzToTokenTokenOutput false (BN.of_Z 0) (BN.of_Z 100) (BN.of_Z 100) 0 0
  = None
  /\ removeLiquidityXtzOut true (BN.of_Z 1) (BN.of_Z 1) (BN.of_Z (-2500000))
     = None.
Proof.
  pose proof (invalid_operands_give_null false) as F.
  pose proof (invalid_operands_give_null true) as L.
  split.
  - apply (proj1 F). left. reflexivity.
  - apply (proj2 (proj2 (proj2 (proj2 (proj2 (proj2 (proj2 (proj2 (proj2
           (proj2 (proj2 (proj2 (proj2 (proj2 (proj2 (proj2 (proj2 (proj2
           (proj2 (proj2 L)))))))))))))))))))).
    right. right. reflexivity.
Defined.

(** C9 (counterexample).  On a liquidity-baking exchange the XTZ pool is
    credited before it is validated, so a pool argument of zero is
    accepted: xtzToTokenTokenOutput(2500000, 0, 2) returns 1, not null. *)
Lemma zero_pool_accepted_once_credited :
  gtZero (BN.of_Z 0) = false
  /\ xtzToTokenTokenOutput true (BN.of_Z 2500000) (BN.of_Z 0) (BN.of_Z 2)
       0 0 <> None
  /\ result_eq
       (xtzToTokenTokenOutput true (BN.of_Z 2500000) (BN.of_Z 0)
          (BN.of_Z 2) 0 0)
       (Some (BN.of_Z 1)).
Proof.
  split; [reflexivity |]. split; [|evaluate].
  intros H. vm_compute in H. discriminate H.
Qed.

(** * Further properties of the calculator *)

(** ** More on rounding *)

Lemma round_half_up_gt (q : Q) : q < BN.round_half_up q + 1.
Proof.
  assert (S : 0 < (Z.pos BN.scale # 1)) by reflexivity.
  assert (S1 : 1 <= (Z.pos BN.scale # 1)) by (vm_compute; discriminate).
  pose proof (Qlt_floor (q * (Z.pos BN.scale # 1) + (1 # 2))) as U.
  rewrite inject_Z_plus, <- round_half_up_units in U.
  change (inject_Z 1) with 1 in U.
  apply Qmult_lt_r with (z := Z.pos BN.scale # 1); [exact S |].
  set (s := Z.pos BN.scale # 1) in *.
  assert (E : (BN.round_half_up q + 1) * s == BN.round_half_up q * s + s)
    by ring.
  rewrite E. lra.
Qed.

(** A fraction whose denominator divides 10^20 has at most 20 decimals. *)
Lemma representable_decimal (z : Z) (p c : positive) :
  (p * c)%positive = BN.scale -> representable (z # p).
Proof.
  intros H.
  apply (representable_comp ((z * Z.pos c)%Z # BN.scale)).
  - rewrite <- H. unfold Qeq. cbn [Qnum Qden].
    rewrite Pos2Z.inj_mul. ring.
  - apply representable_units.
Qed.

(** tokenToXtzXtzOutput under either flag: the quotient reads the argument. *)
Lemma tokenToXtzXtzOutput_value_lb lb tokenIn xtzPool tokenPool fp bp :
  0 < tokenIn -> 0 < xtzPool -> 0 < tokenPool ->
  0 <= fp -> fp <= 100 # 1 -> 0 <= bp -> bp <= 100 # 1 ->
  let fb := inject_Z (multiplier_of fp) * inject_Z (multiplier_of bp) in
  let f := inject_Z (multiplier_of fp) * inject_Z 1000 in
  tokenToXtzXtzOutput lb (BN.of_Q tokenIn) (BN.of_Q xtzPool)
    (BN.of_Q tokenPool) fp bp
  = Some (BN.Finite false
            (BN.round_half_up
               (tokenIn * xtzPool * fb
                / (tokenPool * inject_Z 1000000 + tokenIn * f)))).
Proof.
  intros Hi HX HT Hf1 Hf2 Hb1 Hb2 fb f. unfold fb, f.
  rewrite <- (tokenToXtzXtzOutput_value tokenIn xtzPool tokenPool fp bp)
    by assumption.
  destruct lb; [|reflexivity].
  unfold tokenToXtzXtzOutput, new_BigNumber.
  rewrite !of_Q_nonneg by lra.
  change (creditSubsidy (BN.Finite false xtzPool))
    with (BN.Finite false (xtzPool + inject_Z 2500000)).
  rewrite !gtZero_pos; try assumption; [reflexivity |].
  change (inject_Z 2500000) with (2500000 # 1). lra.
Qed.

(** ** Forward quotes: bounds and monotonicity *)

(** X1.  For positive finite arguments and percentages in [0, 100], a
    forward quote is a finite non-negative value that never exceeds the
    reserve it is paid from: xtzToTokenTokenOutput stays within tokenPool
    and tokenToXtzXtzOutput within the xtzPool argument, whenever that
    reserve has at most 20 decimals (an integer, for instance). *)
Theorem forward_quote_never_exceeds_the_reserve
  (lb : bool) (amount xtzPool tokenPool feePercent burnPercent : Q) :
  0 < amount -> 0 < xtzPool -> 0 < tokenPool ->
  0 <= feePercent -> feePercent <= 100 # 1 ->
  0 <= burnPercent -> burnPercent <= 100 # 1 ->
  (representable tokenPool ->
   exists r,
     xtzToTokenTokenOutput lb (BN.of_Q amount) (BN.of_Q xtzPool)
       (BN.of_Q tokenPool) feePercent burnPercent
     = Some (BN.Finite false r)
     /\ 0 <= r /\ r <= tokenPool)
  /\ (representable xtzPool ->
      exists r,
        tokenToXtzXtzOutput lb (BN.of_Q amount) (BN.of_Q xtzPool)
          (BN.of_Q tokenPool) feePercent burnPercent
        = Some (BN.Finite false r)
        /\ 0 <= r /\ r <= xtzPool).
Proof.
  intros Hi HX HT Hf1 Hf2 Hb1 Hb2.
  destruct (multiplier_of_range feePercent Hf1 Hf2) as [F1 F2].
  destruct (multiplier_of_range burnPercent Hb1 Hb2) as [B1 B2].
  pose proof (inject_Z_nonneg _ F1) as F.
  pose proof (inject_Z_nonneg _ B1) as B.
  pose proof (credited_Q_pos lb xtzPool HX) as HXe.
  set (fee := inject_Z (multiplier_of feePercent)) in *.
  set (burn := inject_Z (multiplier_of burnPercent)) in *.
  assert (Bk : burn <= inject_Z 1000)
    by (unfold burn; now rewrite <- Zle_Qle).
  assert (K : 0 < inject_Z 1000000) by reflexivity.
  assert (K3 : 0 < inject_Z 1000) by reflexivity.
  split; intros R.
  - rewrite xtzToTokenTokenOutput_value by assumption.
    fold fee. fold burn.
    set (Xe := credited_Q lb xtzPool) in *.
    set (m := fee * burn).
    assert (M : 0 <= m) by (apply Qmult_le_0_compat; assumption).
    assert (P1 : 0 <= amount * m) by (apply Qmult_le_0_compat; lra).
    assert (P2 : 0 < Xe * inject_Z 1000000)
      by (apply Qmult_lt_0_compat; assumption).
    eexists. split; [reflexivity |]. split.
    + apply round_half_up_nonneg. apply Qdiv_nonneg; [|lra].
      repeat apply Qmult_le_0_compat; lra.
    + apply round_half_up_le; [|exact R].
      apply Qle_shift_div_r; [lra |].
      assert (0 <= tokenPool * (Xe * inject_Z 1000000))
        by (apply Qmult_le_0_compat; lra).
      lra.
  - rewrite tokenToXtzXtzOutput_value_lb by assumption.
    fold fee. fold burn.
    set (fb := fee * burn).
    set (f := fee * inject_Z 1000).
    assert (Pfb : 0 <= fb) by (apply Qmult_le_0_compat; assumption).
    assert (Lf : fb <= f).
    { unfold fb, f. rewrite (Qmult_comm fee burn), (Qmult_comm fee).
      apply Qmult_le_compat_r; assumption. }
    assert (P1 : 0 <= amount * f) by (apply Qmult_le_0_compat; lra).
    assert (P2 : 0 < tokenPool * inject_Z 1000000)
      by (apply Qmult_lt_0_compat; assumption).
    eexists. split; [reflexivity |]. split.
    + apply round_half_up_nonneg. apply Qdiv_nonneg; [|lra].
      repeat apply Qmult_le_0_compat; lra.
    + apply round_half_up_le; [|exact R].
      apply Qle_shift_div_r; [lra |].
      assert (0 <= xtzPool * (tokenPool * inject_Z 1000000))
        by (apply Qmult_le_0_compat; lra).
      assert (0 <= amount * xtzPool * (f - fb))
        by (repeat apply Qmult_le_0_compat; lra).
      lra.
Qed.

(** X1 (witness): 1 tez sold to a liquidity-baking pool of 1000 tez and
    250,000 tokens. *)
Lemma forward_quote_bound_witness :
  exists r,
    xtzToTokenTokenOutput true (BN.of_Q 1000000) (BN.of_Q 1000000000)
      (BN.of_Q 250000) (1 # 10) (1 # 10)
    = Some (BN.Finite false r)
    /\ 0 <= r /\ r <= 250000.
Proof.
  destruct (forward_quote_never_exceeds_the_reserve
              true 1000000 1000000000 250000 (1 # 10) (1 # 10))
    as [H _]; try lra.
  apply H. apply (representable_Z 250000).
Defined.

(** X2.  For positive finite arguments and percentages in [0, 100], both
    forward quotes are non-decreasing in the amount sold: a larger input
    never yields a smaller output, pools and percentages being equal. *)
Theorem forward_quote_monotone_in_the_amount
  (lb : bool) (small large xtzPool tokenPool feePercent burnPercent : Q) :
  0 < small -> small <= large -> 0 < xtzPool -> 0 < tokenPool ->
  0 <= feePercent -> feePercent <= 100 # 1 ->
  0 <= burnPercent -> burnPercent <= 100 # 1 ->
  (exists r r',
      xtzToTokenTokenOutput lb (BN.of_Q small) (BN.of_Q xtzPool)
        (BN.of_Q tokenPool) feePercent burnPercent
      = Some (BN.Finite false r)
      /\ xtzToTokenTokenOutput lb (BN.of_Q large) (BN.of_Q xtzPool)
           (BN.of_Q tokenPool) feePercent burnPercent
         = Some (BN.Finite false r')
      /\ r <= r')
  /\ (exists r r',
         tokenToXtzXtzOutput lb (BN.of_Q small) (BN.of_Q xtzPool)
           (BN.of_Q tokenPool) feePercent burnPercent
         = Some (BN.Finite false r)
         /\ tokenToXtzXtzOutput lb (BN.of_Q large) (BN.of_Q xtzPool)
              (BN.of_Q tokenPool) feePercent burnPercent
            = Some (BN.Finite false r')
         /\ r <= r').
Proof.
  intros Hs Hl HX HT Hf1 Hf2 Hb1 Hb2.
  destruct (multiplier_of_range feePercent Hf1 Hf2) as [F1 F2].
  destruct (multiplier_of_range burnPercent Hb1 Hb2) as [B1 B2].
  pose proof (inject_Z_nonneg _ F1) as F.
  pose proof (inject_Z_nonneg _ B1) as B.
  pose proof (credited_Q_pos lb xtzPool HX) as HXe.
  set (fee := inject_Z (multiplier_of feePercent)) in *.
  set (burn := inject_Z (multiplier_of burnPercent)) in *.
  assert (K : 0 < (1000000 # 1)) by reflexivity.
  assert (K3 : 0 <= inject_Z 1000) by discriminate.
  split.
  - rewrite !xtzToTokenTokenOutput_value by lra.
    fold fee. fold burn.
    change (inject_Z 1000000) with (1000000 # 1).
    set (Xe := credited_Q lb xtzPool) in *.
    set (m := fee * burn).
    assert (M : 0 <= m) by (apply Qmult_le_0_compat; assumption).
    assert (P2 : 0 < Xe * (1000000 # 1))
      by (apply Qmult_lt_0_compat; assumption).
    assert (D : 0 < Xe * (1000000 # 1) + small * m).
    { assert (0 <= small * m) by (apply Qmult_le_0_compat; lra). lra. }
    assert (D' : 0 < Xe * (1000000 # 1) + large * m).
    { assert (0 <= large * m) by (apply Qmult_le_0_compat; lra). lra. }
    do 2 eexists. split; [reflexivity |]. split; [reflexivity |].
    apply round_half_up_mono.
    assert (E : large * tokenPool * m / (Xe * (1000000 # 1) + large * m)
                - small * tokenPool * m
                  / (Xe * (1000000 # 1) + small * m)
                == (large - small) * (tokenPool * m * (Xe * (1000000 # 1)))
                   / ((Xe * (1000000 # 1) + large * m)
                      * (Xe * (1000000 # 1) + small * m)))
      by (field; split; lra).
    assert (0 <= (large - small) * (tokenPool * m * (Xe * (1000000 # 1)))
                 / ((Xe * (1000000 # 1) + large * m)
                    * (Xe * (1000000 # 1) + small * m))); [|lra].
    apply Qdiv_nonneg.
    + repeat apply Qmult_le_0_compat; lra.
    + apply Qmult_lt_0_compat; assumption.
  - rewrite !tokenToXtzXtzOutput_value_lb by lra.
    fold fee. fold burn.
    change (inject_Z 1000000) with (1000000 # 1).
    set (fb := fee * burn).
    set (f := fee * inject_Z 1000).
    assert (Pfb : 0 <= fb) by (apply Qmult_le_0_compat; assumption).
    assert (Pf : 0 <= f) by (apply Qmult_le_0_compat; assumption).
    assert (P2 : 0 < tokenPool * (1000000 # 1))
      by (apply Qmult_lt_0_compat; assumption).
    assert (D : 0 < tokenPool * (1000000 # 1) + small * f).
    { assert (0 <= small * f) by (apply Qmult_le_0_compat; lra). lra. }
    assert (D' : 0 < tokenPool * (1000000 # 1) + large * f).
    { assert (0 <= large * f) by (apply Qmult_le_0_compat; lra). lra. }
    do 2 eexists. split; [reflexivity |]. split; [reflexivity |].
    apply round_half_up_mono.
    assert (E : large * xtzPool * fb
                / (tokenPool * (1000000 # 1) + large * f)
                - small * xtzPool * fb
                  / (tokenPool * (1000000 # 1) + small * f)
                == (large - small)
                   * (xtzPool * fb * (tokenPool * (1000000 # 1)))
                   / ((tokenPool * (1000000 # 1) + large * f)
                      * (tokenPool * (1000000 # 1) + small * f)))
      by (field; split; lra).
    assert (0 <= (large - small)
                 * (xtzPool * fb * (tokenPool * (1000000 # 1)))
                 / ((tokenPool * (1000000 # 1) + large * f)
                    * (tokenPool * (1000000 # 1) + small * f))); [|lra].
    apply Qdiv_nonneg.
    + repeat apply Qmult_le_0_compat; lra.
    + apply Qmult_lt_0_compat; assumption.
Qed.

(** X2 (witness): 1 tez, then 2 tez, sold for tokens. *)
Lemma forward_quote_monotone_witness :
  exists r r',
    xtzToTokenTokenOutput false (BN.of_Q 1000000) (BN.of_Q 1000000000)
      (BN.of_Q 250000) (1 # 10) (1 # 10)
    = Some (BN.Finite false r)
    /\ xtzToTokenTokenOutput false (BN.of_Q 2000000) (BN.of_Q 1000000000)
         (BN.of_Q 250000) (1 # 10) (1 # 10)
       = Some (BN.Finite false r')
    /\ r <= r'.
Proof.
  destruct (forward_quote_monotone_in_the_amount
              false 1000000 2000000 1000000000 250000 (1 # 10) (1 # 10))
    as [H _]; try lra.
  exact H.
Defined.

(** ** removeLiquidity *)

Lemma removeLiquidityTokenOut_value (burned total pool : Q) :
  0 < burned -> 0 < total -> 0 < pool ->
  removeLiquidityTokenOut (BN.of_Q burned) (BN.of_Q total) (BN.of_Q pool)
  = Some (BN.Finite false (BN.round_half_up (pool * burned / total))).
Proof.
  intros Hb Ht Hp. unfold removeLiquidityTokenOut, new_BigNumber.
  rewrite !of_Q_nonneg by lra. rewrite !gtZero_pos by assumption.
  cbn [andb BN.times xorb]. now rewrite dividedBy_Finite_pos.
Qed.

Lemma removeLiquidityXtzOut_value lb (burned total pool : Q) :
  0 < burned -> 0 < total -> 0 < pool ->
  removeLiquidityXtzOut lb (BN.of_Q burned) (BN.of_Q total) (BN.of_Q pool)
  = Some (BN.Finite false
            (BN.round_half_up (credited_Q lb pool * burned / total))).
Proof.
  intros Hb Ht Hp. unfold removeLiquidityXtzOut, new_BigNumber.
  fold (credited lb (BN.of_Q pool)). rewrite credited_of_Q by lra.
  rewrite !of_Q_nonneg by lra.
  rewrite !gtZero_pos by (assumption || now apply credited_Q_pos).
  cbn [andb BN.times xorb]. now rewrite dividedBy_Finite_pos.
Qed.

(** X3.  Burning a positive amount of liquidity that does not exceed the
    total returns at most the pool (the XTZ pool as credited when the
    subsidy flag is set), and burning all of it returns exactly the pool,
    for a pool with at most 20 decimals. *)
Theorem removed_liquidity_within_the_pool
  (lb : bool) (burned total pool : Q) :
  0 < burned -> burned <= total -> 0 < pool ->
  (representable pool ->
   exists r,
     removeLiquidityTokenOut (BN.of_Q burned) (BN.of_Q total) (BN.of_Q pool)
     = Some (BN.Finite false r)
     /\ 0 <= r /\ r <= pool /\ (burned == total -> r == pool))
  /\ (representable (credited_Q lb pool) ->
      exists r,
        removeLiquidityXtzOut lb (BN.of_Q burned) (BN.of_Q total)
          (BN.of_Q pool)
        = Some (BN.Finite false r)
        /\ 0 <= r /\ r <= credited_Q lb pool
        /\ (burned == total -> r == credited_Q lb pool)).
Proof.
  intros Hb Hbt Hp.
  assert (Ht : 0 < total) by lra.
  assert (G : forall p, 0 < p -> representable p ->
              0 <= BN.round_half_up (p * burned / total)
              /\ BN.round_half_up (p * burned / total) <= p
              /\ (burned == total ->
                  BN.round_half_up (p * burned / total) == p)).
  { intros p Pp R. split; [|split].
    - apply round_half_up_nonneg, Qdiv_nonneg; [|exact Ht].
      apply Qmult_le_0_compat; lra.
    - apply round_half_up_le; [|exact R].
      apply Qle_shift_div_r; [exact Ht |].
      assert (0 <= p * (total - burned))
        by (apply Qmult_le_0_compat; lra).
      lra.
    - intros E. apply representable_round; [|exact R].
      rewrite E. field. lra. }
  split; intros R.
  - rewrite removeLiquidityTokenOut_value by assumption.
    eexists. split; [reflexivity |]. now apply G.
  - rewrite removeLiquidityXtzOut_value by assumption.
    eexists. split; [reflexivity |].
    apply G; [now apply credited_Q_pos | exact R].
Qed.

(** X3 (witness): a third of the liquidity of a pool of 5,000,000. *)
Lemma removed_liquidity_witness :
  exists r,
    removeLiquidityTokenOut (BN.of_Q 33333333) (BN.of_Q 100000000)
      (BN.of_Q 5000000)
    = Some (BN.Finite false r)
    /\ 0 <= r /\ r <= 5000000
    /\ (33333333 == 100000000 -> r == 5000000).
Proof.
  destruct (removed_liquidity_within_the_pool
              false 33333333 100000000 5000000) as [H _]; try lra.
  apply H. apply (representable_Z 5000000).
Defined.

(** ** Liquidity-provider fees *)

Lemma totalLiquidityProviderFee_value (xtzIn : Q) :
  0 < xtzIn ->
  totalLiquidityProviderFee (BN.of_Q xtzIn)
  = Some (BN.Finite false
            (BN.round_half_up (xtzIn * inject_Z 1 / inject_Z 1000))).
Proof.
  intros H. unfold totalLiquidityProviderFee, new_BigNumber.
  rewrite of_Q_nonneg by lra. rewrite gtZero_pos by exact H.
  change (BN.of_Z 1) with (BN.Finite false (inject_Z 1)).
  change (BN.of_Z 1000) with (BN.Finite false (inject_Z 1000)).
  cbn [BN.times xorb]. now rewrite dividedBy_Finite_pos.
Qed.

(** X4.  For a positive trade and a provider holding a positive share not
    above the total liquidity, liquidityProviderFee is a non-negative
    value that never exceeds totalLiquidityProviderFee of the same trade,
    and a provider holding all the liquidity receives the whole fee. *)
Theorem provider_fee_within_the_total_fee
  (xtzIn totalLiquidity userLiquidity : Q) :
  0 < xtzIn -> 0 < userLiquidity -> userLiquidity <= totalLiquidity ->
  exists total share,
    totalLiquidityProviderFee (BN.of_Q xtzIn) = Some (BN.Finite false total)
    /\ liquidityProviderFee (BN.of_Q xtzIn) (BN.of_Q totalLiquidity)
         (BN.of_Q userLiquidity)
       = Some (BN.Finite false share)
    /\ 0 <= share /\ share <= total
    /\ (userLiquidity == totalLiquidity -> share == total).
Proof.
  intros Hx Hu Hl.
  assert (Ht : 0 < totalLiquidity) by lra.
  pose proof (totalLiquidityProviderFee_value xtzIn Hx) as Et.
  set (fee := BN.round_half_up (xtzIn * inject_Z 1 / inject_Z 1000)) in *.
  set (part := BN.round_half_up (totalLiquidity / userLiquidity)).
  assert (Pf : 0 <= fee).
  { apply round_half_up_nonneg, Qdiv_nonneg; [|reflexivity].
    apply Qmult_le_0_compat; [lra | discriminate]. }
  assert (Rf : representable fee) by apply round_half_up_idem.
  assert (P1 : 1 <= part).
  { apply round_half_up_ge; [|apply (representable_Z 1)].
    apply Qle_shift_div_l; lra. }
  exists fee, (BN.round_half_up (fee / part)).
  split; [exact Et |]. split.
  - unfold liquidityProviderFee, new_BigNumber.
    rewrite !of_Q_nonneg by lra. rewrite !gtZero_pos by assumption.
    cbn [andb]. rewrite <- (of_Q_nonneg xtzIn) by lra. rewrite Et.
    rewrite (dividedBy_Finite_pos totalLiquidity userLiquidity Hu).
    fold part. now rewrite dividedBy_Finite_pos by lra.
  - split; [|split].
    + apply round_half_up_nonneg, Qdiv_nonneg; lra.
    + apply round_half_up_le; [|exact Rf].
      apply Qle_shift_div_r; [lra |].
      assert (0 <= fee * (part - 1)) by (apply Qmult_le_0_compat; lra).
      lra.
    + intros E. apply representable_round; [|exact Rf].
      assert (Ep : part == 1).
      { unfold part. apply representable_round;
          [|apply (representable_Z 1)].
        rewrite E. field. lra. }
      rewrite Ep. field.
Qed.

(** X4 (witness): the second test case of the original suite. *)
Lemma provider_fee_witness :
  exists total share,
    totalLiquidityProviderFee (BN.of_Q 2000000)
    = Some (BN.Finite false total)
    /\ liquidityProviderFee (BN.of_Q 2000000) (BN.of_Q 200000000)
         (BN.of_Q 10000000)
       = Some (BN.Finite false share)
    /\ 0 <= share /\ share <= total
    /\ (10000000 == 200000000 -> share == total).
Proof.
  apply (provider_fee_within_the_total_fee 2000000 200000000 10000000); lra.
Defined.

(** ** Minimum outputs under slippage *)

Lemma slippage_units_range (s : Q) :
  0 <= s -> s <= 1 -> (0 <= slippage_units s <= 100000)%Z.
Proof.
  intros L U. unfold slippage_units, Math_floor, Double.times.
  assert (K : Double.round (1000 # 1) == 1000 # 1) by (vm_compute; reflexivity).
  assert (M : Double.round (100000 # 1) == 100000 # 1)
    by (vm_compute; reflexivity).
  assert (A0 : 0 <= Double.round (s * (1000 # 1)))
    by (apply double_round_nonneg; lra).
  assert (A1 : Double.round (s * (1000 # 1)) <= 1000 # 1).
  { apply Qle_trans with (Double.round (1000 # 1));
      [apply double_round_mono; lra | lra]. }
  set (a := Double.round (s * (1000 # 1))) in *.
  assert (B0 : 0 <= Double.round (a * (100 # 1)))
    by (apply double_round_nonneg; lra).
  assert (B1 : Double.round (a * (100 # 1)) <= 100000 # 1).
  { apply Qle_trans with (Double.round (100000 # 1));
      [apply double_round_mono; lra | lra]. }
  split.
  - change 0%Z with (Qfloor 0). now apply Qfloor_resp_le.
  - change 100000%Z with (Qfloor (100000 # 1)). now apply Qfloor_resp_le.
Qed.

Lemma slippage_units_mono (s s' : Q) :
  0 <= s' -> s' <= s -> (slippage_units s' <= slippage_units s)%Z.
Proof.
  intros L H. unfold slippage_units, Math_floor, Double.times.
  apply Qfloor_resp_le.
  assert (A0 : 0 <= Double.round (s' * (1000 # 1)))
    by (apply double_round_nonneg; lra).
  assert (A : Double.round (s' * (1000 # 1))
              <= Double.round (s * (1000 # 1)))
    by (apply double_round_mono; lra).
  apply double_round_mono; lra.
Qed.

Lemma slippage_units_comp (s s' : Q) :
  0 <= s -> s == s' -> slippage_units s = slippage_units s'.
Proof.
  intros L E. apply Z.le_antisymm; apply slippage_units_mono; lra.
Qed.

(** A finite value from 2^-1074 on is positive as a number. *)
Lemma Number_gtZero_pos (m : Q) :
  Double.pow2 (-1074) <= m -> Number_gtZero (BN.Finite false m) = true.
Proof.
  intros H. cbn [Number_gtZero]. unfold BN.Qltb.
  apply negb_true_iff, Qle_bool_false.
  now apply double_round_pos_positive.
Qed.

(** A positive amount of at most 20 decimals is at least 1e-20. *)
Lemma representable_pos_ge_unit (t : Q) :
  0 < t -> representable t -> 1 # BN.scale <= t.
Proof.
  intros P R. destruct (representable_as_units t R) as [z E].
  rewrite E in *. unfold Qlt in P. unfold Qle. cbn [Qnum Qden] in *. nia.
Qed.

Lemma Number_gtZero_representable (t : Q) :
  0 < t -> representable t -> Number_gtZero (BN.Finite false t) = true.
Proof.
  intros P R. apply Number_gtZero_pos.
  apply Qle_trans with (1 # BN.scale);
    [|now apply representable_pos_ge_unit].
  apply Qle_bool_iff. vm_compute. reflexivity.
Qed.

(** The value both functions return for a positive amount of at most 20
    decimals: the amount less its slippage share, rounded as the two
    divisions round it, or 1 when that is smaller. *)
Lemma minimum_output_value (t s : Q) :
  0 < t -> representable t -> 0 <= s -> s <= 1 ->
  let k := inject_Z (slippage_units s) in
  let w :=
    BN.round_half_up
      ((t * 1000 - BN.round_half_up (t * 1000 * k / 100000)) / 1000) in
  exists r,
    xtzToTokenMinimumTokenOutput (BN.of_Q t) s = Some (BN.Finite false r)
    /\ tokenToXtzMinimumXtzOutput (BN.of_Q t) s = Some (BN.Finite false r)
    /\ (w < 1 -> r == 1) /\ (1 <= w -> r == w).
Proof.
  intros Pt Rt L U k w.
  pose proof (slippage_units_range s L U) as [K0 K1].
  assert (Pk : 0 <= k) by now apply inject_Z_nonneg.
  assert (Uk : k <= 100000).
  { change 100000 with (inject_Z 100000). unfold k. now rewrite <- Zle_Qle. }
  assert (E : xtzToTokenMinimumTokenOutput (BN.of_Q t) s
              = tokenToXtzMinimumXtzOutput (BN.of_Q t) s).
  { unfold xtzToTokenMinimumTokenOutput, tokenToXtzMinimumXtzOutput,
      new_BigNumber.
    rewrite of_Q_nonneg by lra.
    now rewrite (Number_gtZero_representable t Pt Rt), (gtZero_pos t Pt). }
  rewrite E.
  unfold tokenToXtzMinimumXtzOutput, new_BigNumber.
  rewrite of_Q_nonneg by lra. rewrite gtZero_pos by exact Pt.
  rewrite (proj2 (Qle_bool_iff 0 s) L), (proj2 (Qle_bool_iff s 1) U).
  cbn [andb]. fold (slippage_units s).
  rewrite (of_Z_nonneg (slippage_units s)) by exact K0. fold k.
  change (BN.of_Z 1000) with (BN.Finite false (inject_Z 1000)).
  change (BN.of_Z 100000) with (BN.Finite false (inject_Z 100000)).
  change (BN.of_Z 1) with (BN.Finite false (inject_Z 1)).
  cbn [BN.times xorb].
  rewrite (dividedBy_Finite_pos _ (inject_Z 100000)) by reflexivity.
  change (inject_Z 1000) with 1000. change (inject_Z 100000) with 100000.
  set (T := t * 1000).
  set (inner := BN.round_half_up (T * k / 100000)).
  assert (RT : representable T)
    by (apply (representable_times_Z t 1000); exact Rt).
  assert (PT : 0 < T) by (unfold T; lra).
  assert (Hi : inner <= T).
  { apply round_half_up_le; [|exact RT].
    apply Qle_shift_div_r; [reflexivity |].
    assert (0 <= T * (100000 - k)) by (apply Qmult_le_0_compat; lra).
    lra. }
  destruct (minus_Finite_ge T inner Hi) as [m [-> Em]].
  rewrite (dividedBy_Finite_pos m 1000) by reflexivity.
  assert (Er : BN.round_half_up (m / 1000) == w).
  { unfold w. apply round_half_up_comp. rewrite Em. reflexivity. }
  set (r0 := BN.round_half_up (m / 1000)) in *.
  unfold BN.maximum, BN.comparedTo, BN.value.
  change (inject_Z 1) with 1.
  destruct (r0 ?= 1) eqn:C.
  - apply Qeq_alt in C. exists r0. repeat split; intros; lra.
  - apply Qlt_alt in C. exists 1. repeat split; intros; lra.
  - apply Qgt_alt in C. exists r0. repeat split; intros; lra.
Qed.

(** The product is one of doubles: a slippage written 0.0189 counts 1889
    units, not 1890, and one written 0.00029 counts 28, so that 100,000
    gives 98,111 and 99,972. *)
Lemma minimum_output_floors_the_double_product :
  slippage_units (Double.round (189 # 10000)) = 1889%Z
  /\ slippage_units (Double.round (29 # 100000)) = 28%Z
  /\ result_eq
       (xtzToTokenMinimumTokenOutput (BN.of_Z 100000)
          (Double.round (189 # 10000)))
       (Some (BN.of_Z 98111))
  /\ result_eq
       (tokenToXtzMinimumXtzOutput (BN.of_Z 100000)
          (Double.round (29 # 100000)))
       (Some (BN.of_Z 99972)).
Proof.
  split; [vm_compute; reflexivity |].
  split; [vm_compute; reflexivity |].
  split; evaluate.
Qed.

(** X5.  For a whole positive amount and a slippage between 0 and 1, both
    minimum-output functions return the same value: the amount times
    (100000 - k) / 100000, exact, or 1 when that is smaller, where k is
    the floor of the double product allowedSlippage * 1000 * 100, a whole
    number from 0 to 100000.  The value lies between 1 and the amount; it
    is the amount at slippage 0 and 1 (not 0) at slippage 1. *)
Theorem minimum_output_closed_form (t : Z) (s : Q) :
  (0 < t)%Z -> 0 <= s -> s <= 1 ->
  let k := slippage_units s in
  let v := (t * (100000 - k))%Z # 100000 in
  exists r,
    xtzToTokenMinimumTokenOutput (BN.of_Z t) s = Some (BN.Finite false r)
    /\ tokenToXtzMinimumXtzOutput (BN.of_Z t) s = Some (BN.Finite false r)
    /\ (0 <= k <= 100000)%Z
    /\ (v < 1 -> r == 1) /\ (1 <= v -> r == v)
    /\ 1 <= r /\ r <= inject_Z t
    /\ (s == 0 -> r == inject_Z t) /\ (s == 1 -> r == 1).
Proof.
  intros Ht L U k v.
  pose proof (slippage_units_range s L U) as [K0 K1]. fold k in K0, K1.
  assert (Pt : 0 < inject_Z t) by now apply inject_Z_pos.
  destruct (minimum_output_value (inject_Z t) s Pt (representable_Z t) L U)
    as [r [E1 [E2 [Small Large]]]].
  cbv zeta in Small, Large. fold k in Small, Large.
  assert (Pk : 0 <= inject_Z k) by now apply inject_Z_nonneg.
  assert (Uk : inject_Z k <= 100000).
  { change 100000 with (inject_Z 100000). now rewrite <- Zle_Qle. }
  assert (Ev : v == inject_Z t * (100000 - inject_Z k) / 100000).
  { unfold v. rewrite (Qmake_Qdiv (t * (100000 - k)) 100000).
    rewrite inject_Z_mult. unfold Zminus.
    rewrite inject_Z_plus, inject_Z_opp. reflexivity. }
  assert (Rv : representable v)
    by now apply (representable_decimal _ 100000 1000000000000000).
  assert (Ei : BN.round_half_up (inject_Z t * 1000 * inject_Z k / 100000)
               == inject_Z t * 1000 * inject_Z k / 100000).
  { apply representable_round; [reflexivity |].
    apply (representable_comp ((t * 1000 * k)%Z # 100000)).
    - rewrite (Qmake_Qdiv (t * 1000 * k) 100000).
      rewrite !inject_Z_mult. reflexivity.
    - now apply (representable_decimal _ 100000 1000000000000000). }
  assert (Ew : BN.round_half_up
                 ((inject_Z t * 1000
                   - BN.round_half_up
                       (inject_Z t * 1000 * inject_Z k / 100000)) / 1000)
               == v).
  { apply representable_round; [|exact Rv]. rewrite Ei, Ev. field. }
  rewrite Ew in Small, Large.
  assert (P1 : 1 <= inject_Z t).
  { change 1 with (inject_Z 1). rewrite <- Zle_Qle. lia. }
  assert (Uv : v <= inject_Z t).
  { rewrite Ev. apply Qle_shift_div_r; [reflexivity |].
    assert (0 <= inject_Z t * inject_Z k)
      by (apply Qmult_le_0_compat; lra).
    lra. }
  exists r. split; [exact E1 |]. split; [exact E2 |].
  split; [split; assumption |].
  split; [exact Small |]. split; [exact Large |].
  assert (Z0 : s == 0 -> v == inject_Z t).
  { intros Z. rewrite Ev. unfold k.
    rewrite (slippage_units_comp s 0 L Z).
    replace (slippage_units 0) with 0%Z by (vm_compute; reflexivity).
    change (inject_Z 0) with 0. field. }
  assert (Z1 : s == 1 -> v == 0).
  { intros O. rewrite Ev. unfold k.
    rewrite (slippage_units_comp s 1 L O).
    replace (slippage_units 1) with 100000%Z by (vm_compute; reflexivity).
    change (inject_Z 100000) with 100000. field. }
  destruct (Qlt_le_dec v 1) as [C | C].
  - specialize (Small C). split; [lra |]. split; [lra |]. split.
    + intros Z. specialize (Z0 Z). lra.
    + intros _. exact Small.
  - specialize (Large C). split; [lra |]. split; [lra |]. split.
    + intros Z. specialize (Z0 Z). lra.
    + intros O. specialize (Z1 O). lra.
Qed.

(** X5 (witness): 100,000 with the slippage written 0.0189. *)
Lemma minimum_output_witness :
  let k := slippage_units (Double.round (189 # 10000)) in
  let v := (100000 * (100000 - k))%Z # 100000 in
  exists r,
    xtzToTokenMinimumTokenOutput (BN.of_Z 100000)
      (Double.round (189 # 10000))
    = Some (BN.Finite false r)
    /\ tokenToXtzMinimumXtzOutput (BN.of_Z 100000)
         (Double.round (189 # 10000))
       = Some (BN.Finite false r)
    /\ (0 <= k <= 100000)%Z
    /\ (v < 1 -> r == 1) /\ (1 <= v -> r == v)
    /\ 1 <= r /\ r <= inject_Z 100000
    /\ (Double.round (189 # 10000) == 0 -> r == inject_Z 100000)
    /\ (Double.round (189 # 10000) == 1 -> r == 1).
Proof.
  apply (minimum_output_closed_form 100000 (Double.round (189 # 10000)));
    [lia | |]; apply Qle_bool_iff; vm_compute; reflexivity.
Defined.

(** X6.  For amounts of at most 20 decimals, the minimum output never
    decreases when the amount grows or the allowed slippage shrinks. *)
Theorem minimum_output_monotone (t t' s s' : Q) :
  0 < t -> t <= t' -> representable t -> representable t' ->
  0 <= s' -> s' <= s -> s <= 1 ->
  exists r r',
    xtzToTokenMinimumTokenOutput (BN.of_Q t) s = Some (BN.Finite false r)
    /\ xtzToTokenMinimumTokenOutput (BN.of_Q t') s'
       = Some (BN.Finite false r')
    /\ tokenToXtzMinimumXtzOutput (BN.of_Q t) s = Some (BN.Finite false r)
    /\ tokenToXtzMinimumXtzOutput (BN.of_Q t') s'
       = Some (BN.Finite false r')
    /\ r <= r'.
Proof.
  intros Pt Htt Rt Rt' L' Hss U.
  assert (L : 0 <= s) by lra. assert (U' : s' <= 1) by lra.
  assert (Pt' : 0 < t') by lra.
  destruct (minimum_output_value t s Pt Rt L U)
    as [r [E1 [E2 [Small Large]]]].
  destruct (minimum_output_value t' s' Pt' Rt' L' U')
    as [r' [E1' [E2' [Small' Large']]]].
  cbv zeta in Small, Large, Small', Large'.
  pose proof (slippage_units_range s L U) as [K0 K1].
  pose proof (slippage_units_range s' L' U') as [K0' K1'].
  pose proof (slippage_units_mono s s' L' Hss) as Hk.
  rewrite Zle_Qle in Hk, K0, K0', K1, K1'.
  change (inject_Z 0) with 0 in K0, K0'.
  change (inject_Z 100000) with 100000 in K1, K1'.
  set (k := inject_Z (slippage_units s)) in *.
  set (k' := inject_Z (slippage_units s')) in *.
  set (w := BN.round_half_up
              ((t * 1000 - BN.round_half_up (t * 1000 * k / 100000))
               / 1000)) in *.
  set (w' := BN.round_half_up
               ((t' * 1000 - BN.round_half_up (t' * 1000 * k' / 100000))
                / 1000)) in *.
  assert (W : w <= w').
  { unfold w, w'. apply round_half_up_mono.
    apply Qmult_le_compat_r; [|discriminate].
    (* the slippage share of [t] at [k'] is not above that at [k] *)
    assert (S1 : BN.round_half_up (t * 1000 * k' / 100000)
                 <= BN.round_half_up (t * 1000 * k / 100000)).
    { apply round_half_up_mono.
      apply Qmult_le_compat_r; [|discriminate].
      assert (0 <= t * 1000 * (k - k'))
        by (apply Qmult_le_0_compat; lra).
      lra. }
    (* and the share grows by at most 1000 times what the amount does *)
    destruct (representable_as_units t Rt) as [z Ez].
    destruct (representable_as_units t' Rt') as [z' Ez'].
    assert (Rd : representable ((t' - t) * inject_Z 1000)).
    { apply representable_times_Z.
      apply (representable_comp ((z' - z)%Z # BN.scale));
        [|apply representable_units].
      rewrite Ez, Ez'.
      rewrite (Qmake_Qdiv z), (Qmake_Qdiv z'), (Qmake_Qdiv (z' - z)).
      unfold Zminus. rewrite inject_Z_plus, inject_Z_opp.
      field. discriminate. }
    change (inject_Z 1000) with 1000 in Rd.
    assert (S2 : BN.round_half_up (t' * 1000 * k' / 100000)
                 <= BN.round_half_up (t * 1000 * k' / 100000)
                    + (t' - t) * 1000).
    { rewrite <- (round_half_up_shift _ _ Rd).
      apply round_half_up_mono.
      assert (E : t' * 1000 * k' / 100000
                  == t * 1000 * k' / 100000 + (t' - t) * k' / 100)
        by field.
      rewrite E.
      assert ((t' - t) * k' / 100 <= (t' - t) * 1000); [|lra].
      apply Qle_shift_div_r; [reflexivity |].
      assert (0 <= (t' - t) * (100000 - k'))
        by (apply Qmult_le_0_compat; lra).
      lra. }
    lra. }
  exists r, r'. split; [exact E1 |]. split; [exact E1' |].
  split; [exact E2 |]. split; [exact E2' |].
  destruct (Qlt_le_dec w 1) as [C | C];
    destruct (Qlt_le_dec w' 1) as [C' | C'].
  - rewrite (Small C), (Small' C'). lra.
  - rewrite (Small C), (Large' C'). exact C'.
  - lra.
  - rewrite (Large C), (Large' C'). exact W.
Qed.

(** X6 (witness): 9999.5 at 5% against 10,000 at 1%. *)
Lemma minimum_output_monotone_witness :
  exists r r',
    xtzToTokenMinimumTokenOutput (BN.of_Q (19999 # 2))
      (Double.round (5 # 100))
    = Some (BN.Finite false r)
    /\ xtzToTokenMinimumTokenOutput (BN.of_Q 10000)
         (Double.round (1 # 100))
       = Some (BN.Finite false r')
    /\ tokenToXtzMinimumXtzOutput (BN.of_Q (19999 # 2))
         (Double.round (5 # 100))
       = Some (BN.Finite false r)
    /\ tokenToXtzMinimumXtzOutput (BN.of_Q 10000) (Double.round (1 # 100))
       = Some (BN.Finite false r')
    /\ r <= r'.
Proof.
  apply (minimum_output_monotone (19999 # 2) 10000
           (Double.round (5 # 100)) (Double.round (1 # 100)));
    try lra; try (vm_compute; reflexivity);
    apply Qle_bool_iff; vm_compute; reflexivity.
Defined.

(** ** addLiquidity *)

Lemma round_half_up_le_plus_1 (q : Q) : BN.round_half_up q <= q + 1.
Proof.
  assert (S : 0 < (Z.pos BN.scale # 1)) by reflexivity.
  assert (S1 : 1 <= (Z.pos BN.scale # 1)) by (vm_compute; discriminate).
  apply Qmult_le_r with (z := Z.pos BN.scale # 1); [exact S |].
  rewrite round_half_up_units.
  pose proof (Qfloor_le (q * (Z.pos BN.scale # 1) + (1 # 2))) as F.
  set (s := Z.pos BN.scale # 1) in *.
  assert (E : (q + 1) * s == q * s + s) by ring.
  rewrite E. lra.
Qed.

Lemma addLiquidityTokenIn_value lb (xtzIn xtzPool tokenPool : Q) :
  0 < xtzIn -> 0 < xtzPool -> 0 < tokenPool ->
  addLiquidityTokenIn lb (BN.of_Q xtzIn) (BN.of_Q xtzPool)
    (BN.of_Q tokenPool)
  = Some (BN.Finite false
            (BN.round_half_up (xtzIn * tokenPool / credited_Q lb xtzPool)
             + inject_Z 1)).
Proof.
  intros Hi HX HT. unfold addLiquidityTokenIn, new_BigNumber.
  fold (credited lb (BN.of_Q xtzPool)). rewrite credited_of_Q by lra.
  pose proof (credited_Q_pos lb xtzPool HX) as Pc.
  rewrite !of_Q_nonneg by lra.
  rewrite !gtZero_pos by assumption.
  cbn [andb BN.times xorb].
  assert (Pn : 0 <= xtzIn * tokenPool) by (apply Qmult_le_0_compat; lra).
  rewrite <- (of_Q_nonneg (xtzIn * tokenPool)) by exact Pn.
  rewrite <- (of_Q_nonneg (credited_Q lb xtzPool)) by lra.
  rewrite ceilingDiv_nonneg by assumption.
  rewrite !of_Q_nonneg by lra.
  rewrite dividedBy_Finite_pos by exact Pc.
  reflexivity.
Qed.

Lemma addLiquidityXtzIn_value lb (tokenIn xtzPool tokenPool : Q) :
  0 < tokenIn -> 0 < xtzPool -> 0 < tokenPool ->
  addLiquidityXtzIn lb (BN.Finite false tokenIn) (BN.of_Q xtzPool)
    (BN.of_Q tokenPool)
  = Some (BN.Finite false
            (BN.round_half_up (tokenIn * credited_Q lb xtzPool / tokenPool))).
Proof.
  intros Hi HX HT. unfold addLiquidityXtzIn, new_BigNumber.
  fold (credited lb (BN.of_Q xtzPool)). rewrite credited_of_Q by lra.
  pose proof (credited_Q_pos lb xtzPool HX) as Pc.
  rewrite !of_Q_nonneg by lra.
  rewrite !gtZero_pos by assumption.
  cbn [andb BN.times xorb].
  now rewrite dividedBy_Finite_pos by exact HT.
Qed.

(** X7.  For positive arguments addLiquidityTokenIn returns the pro-rata
    token amount xtzIn * tokenPool / xtzPool (over the credited pool when
    the subsidy flag is set), rounded at 20 decimals, plus one: strictly
    more than the pro-rata amount, and at most 2 more. *)
Theorem addLiquidityTokenIn_exceeds_the_pro_rata_amount
  (lb : bool) (xtzIn xtzPool tokenPool : Q) :
  0 < xtzIn -> 0 < xtzPool -> 0 < tokenPool ->
  let q := xtzIn * tokenPool / credited_Q lb xtzPool in
  exists r,
    addLiquidityTokenIn lb (BN.of_Q xtzIn) (BN.of_Q xtzPool)
      (BN.of_Q tokenPool)
    = Some (BN.Finite false r)
    /\ r == BN.round_half_up q + 1 /\ q < r /\ r <= q + 2.
Proof.
  intros Hi HX HT q.
  rewrite addLiquidityTokenIn_value by assumption. fold q.
  eexists. split; [reflexivity |].
  change (inject_Z 1) with 1.
  pose proof (round_half_up_gt q). pose proof (round_half_up_le_plus_1 q).
  split; [reflexivity |]. split; lra.
Qed.

(** X7 (witness): a deposit of 1,000,000 into a pool of 1,000,000 mutez
    and 500,000 tokens; the quotient is whole and one is still added. *)
Lemma addLiquidityTokenIn_witness :
  let q := 1000000 * 500000 / credited_Q false 1000000 in
  exists r,
    addLiquidityTokenIn false (BN.of_Q 1000000) (BN.of_Q 1000000)
      (BN.of_Q 500000)
    = Some (BN.Finite false r)
    /\ r == BN.round_half_up q + 1 /\ q < r /\ r <= q + 2.
Proof.
  apply (addLiquidityTokenIn_exceeds_the_pro_rata_amount
           false 1000000 1000000 500000); lra.
Defined.

(** X8.  Feeding the token amount of addLiquidityTokenIn back into
    addLiquidityXtzIn, over the same pools, gives an XTZ amount that is
    never below the original one (for an amount of at most 20
    decimals). *)
Theorem addLiquidity_round_trip_covers_the_deposit
  (lb : bool) (xtzIn xtzPool tokenPool : Q) :
  0 < xtzIn -> 0 < xtzPool -> 0 < tokenPool -> representable xtzIn ->
  exists tokens back,
    addLiquidityTokenIn lb (BN.of_Q xtzIn) (BN.of_Q xtzPool)
      (BN.of_Q tokenPool)
    = Some tokens
    /\ addLiquidityXtzIn lb tokens (BN.of_Q xtzPool) (BN.of_Q tokenPool)
       = Some (BN.Finite false back)
    /\ xtzIn <= back.
Proof.
  intros Hi HX HT R.
  pose proof (credited_Q_pos lb xtzPool HX) as Pc.
  set (q := xtzIn * tokenPool / credited_Q lb xtzPool).
  pose proof (round_half_up_gt q) as G.
  assert (Pq : 0 <= q).
  { apply Qdiv_nonneg; [|exact Pc]. apply Qmult_le_0_compat; lra. }
  assert (Pt : 0 < BN.round_half_up q + inject_Z 1).
  { change (inject_Z 1) with 1. lra. }
  eexists. eexists.
  split; [now apply addLiquidityTokenIn_value |].
  fold q. split; [now apply addLiquidityXtzIn_value |].
  apply round_half_up_ge; [|exact R].
  apply Qle_shift_div_l; [exact HT |].
  change (inject_Z 1) with 1.
  assert (Eq : q * credited_Q lb xtzPool == xtzIn * tokenPool).
  { unfold q. field. lra. }
  assert (0 <= (BN.round_half_up q + 1 - q) * credited_Q lb xtzPool)
    by (apply Qmult_le_0_compat; lra).
  lra.
Qed.

(** X8 (witness): the liquidity-baking pool of the original tests. *)
Lemma addLiquidity_round_trip_witness :
  exists tokens back,
    addLiquidityTokenIn true (BN.of_Q 10000000) (BN.of_Q 6000000000)
      (BN.of_Q 100000000)
    = Some tokens
    /\ addLiquidityXtzIn true tokens (BN.of_Q 6000000000)
         (BN.of_Q 100000000)
       = Some (BN.Finite false back)
    /\ 10000000 <= back.
Proof.
  apply (addLiquidity_round_trip_covers_the_deposit
           true 10000000 6000000000 100000000); try lra.
  apply (representable_Z 10000000).
Defined.

(** ** Exchange rates *)

Lemma gtZero_of_Q (q : Q) : 0 < q -> gtZero (BN.of_Q q) = true.
Proof. intros H. rewrite of_Q_nonneg by lra. now apply gtZero_pos. Qed.

(** A rounded quote divided by an amount of at least 1. *)
Lemma rate_bound (q a ratio : Q) :
  1 <= a -> 0 <= q -> q <= a * ratio ->
  0 <= BN.round_half_up (BN.round_half_up q / a)
  /\ BN.round_half_up (BN.round_half_up q / a) <= ratio + (1 # BN.scale).
Proof.
  intros Ha Hq Hr.
  pose proof (round_half_up_nonneg q Hq) as P.
  pose proof (round_half_up_le_half_unit q) as U.
  pose proof (round_half_up_le_half_unit (BN.round_half_up q / a)) as U'.
  assert (H2 : (1 # (2 * BN.scale)) + (1 # (2 * BN.scale)) == 1 # BN.scale)
    by (vm_compute; reflexivity).
  assert (Hh : 0 <= 1 # (2 * BN.scale)) by discriminate.
  set (h := 1 # (2 * BN.scale)) in *.
  split.
  - apply round_half_up_nonneg, Qdiv_nonneg; lra.
  - assert (D : BN.round_half_up q / a <= ratio + h).
    { apply Qle_shift_div_r; [lra |].
      assert (0 <= h * (a - 1)) by (apply Qmult_le_0_compat; lra).
      lra. }
    lra.
Qed.

(** X9.  For an amount of at least 1, positive pools and percentages
    between 0 and 100, the exchange rates are non-negative and exceed the
    pool ratio by at most the last place of the 20-decimal rounding:
    tokenPool / xtzPool for xtzToTokenExchangeRate (the credited XTZ pool
    when the subsidy flag is set), xtzPool / tokenPool for
    tokenToXtzExchangeRate (the pool as given, under either flag). *)
Theorem exchange_rate_below_the_pool_ratio
  (lb : bool) (amount xtzPool tokenPool feePercent burnPercent : Q) :
  1 <= amount -> 0 < xtzPool -> 0 < tokenPool ->
  0 <= feePercent -> feePercent <= 100 # 1 ->
  0 <= burnPercent -> burnPercent <= 100 # 1 ->
  (exists r,
     xtzToTokenExchangeRate lb (BN.of_Q amount) (BN.of_Q xtzPool)
       (BN.of_Q tokenPool) feePercent burnPercent
     = Some (BN.Finite false r)
     /\ 0 <= r
     /\ r <= tokenPool / credited_Q lb xtzPool + (1 # BN.scale))
  /\ (exists r,
        tokenToXtzExchangeRate lb (BN.of_Q amount) (BN.of_Q xtzPool)
          (BN.of_Q tokenPool) feePercent burnPercent
        = Some (BN.Finite false r)
        /\ 0 <= r
        /\ r <= xtzPool / tokenPool + (1 # BN.scale)).
Proof.
  intros Ha HX HT Hf1 Hf2 Hb1 Hb2.
  assert (Hi : 0 < amount) by lra.
  destruct (multiplier_of_range feePercent Hf1 Hf2) as [F1 F2].
  destruct (multiplier_of_range burnPercent Hb1 Hb2) as [B1 B2].
  pose proof (inject_Z_nonneg _ F1) as F.
  pose proof (inject_Z_nonneg _ B1) as B.
  pose proof (credited_Q_pos lb xtzPool HX) as HXe.
  pose proof (gtZero_of_Q amount Hi) as Ga.
  pose proof (gtZero_of_Q xtzPool HX) as GX.
  pose proof (gtZero_of_Q tokenPool HT) as GT.
  split.
  - unfold xtzToTokenExchangeRate, new_BigNumber.
    rewrite Ga, GX, GT. cbn [andb].
    rewrite xtzToTokenTokenOutput_value by assumption.
    rewrite (of_Q_nonneg amount) by lra.
    rewrite dividedBy_Finite_pos by exact Hi.
    set (fee := inject_Z (multiplier_of feePercent)) in *.
    set (burn := inject_Z (multiplier_of burnPercent)) in *.
    assert (Fk : fee <= 1000).
    { change 1000 with (inject_Z 1000). unfold fee. now rewrite <- Zle_Qle. }
    assert (Bk : burn <= 1000).
    { change 1000 with (inject_Z 1000). unfold burn.
      now rewrite <- Zle_Qle. }
    change (inject_Z 1000000) with (1000000 # 1).
    set (Xe := credited_Q lb xtzPool) in *.
    set (m := fee * burn).
    assert (M : 0 <= m) by (apply Qmult_le_0_compat; assumption).
    assert (Mk : m <= 1000000).
    { unfold m.
      assert (0 <= (1000 - fee) * burn) by (apply Qmult_le_0_compat; lra).
      lra. }
    assert (P1 : 0 <= amount * m) by (apply Qmult_le_0_compat; lra).
    assert (P2 : 0 < Xe * 1000000) by lra.
    assert (Pr : 0 <= tokenPool / Xe) by (apply Qdiv_nonneg; lra).
    eexists. split; [reflexivity |].
    apply rate_bound; [exact Ha | |].
    + apply Qdiv_nonneg; [|lra]. repeat apply Qmult_le_0_compat; lra.
    + apply Qle_shift_div_r; [lra |].
      assert (E : amount * (tokenPool / Xe) * (Xe * 1000000 + amount * m)
                  == amount * tokenPool * 1000000
                     + amount * amount * (tokenPool / Xe) * m)
        by (field; lra).
      rewrite E.
      assert (0 <= amount * tokenPool * (1000000 - m))
        by (repeat apply Qmult_le_0_compat; lra).
      assert (0 <= amount * amount * (tokenPool / Xe) * m).
      { apply Qmult_le_0_compat; [|exact M].
        apply Qmult_le_0_compat; [|exact Pr].
        apply Qmult_le_0_compat; lra. }
      lra.
  - unfold tokenToXtzExchangeRate, new_BigNumber.
    rewrite Ga, GX, GT. cbn [andb].
    rewrite tokenToXtzXtzOutput_value_lb by assumption.
    rewrite (of_Q_nonneg amount) by lra.
    rewrite dividedBy_Finite_pos by exact Hi.
    set (fee := inject_Z (multiplier_of feePercent)) in *.
    set (burn := inject_Z (multiplier_of burnPercent)) in *.
    assert (Fk : fee <= 1000).
    { change 1000 with (inject_Z 1000). unfold fee. now rewrite <- Zle_Qle. }
    assert (Bk : burn <= 1000).
    { change 1000 with (inject_Z 1000). unfold burn.
      now rewrite <- Zle_Qle. }
    change (inject_Z 1000000) with (1000000 # 1).
    change (inject_Z 1000) with (1000 # 1).
    set (fb := fee * burn).
    set (f := fee * 1000).
    assert (Pfb : 0 <= fb) by (apply Qmult_le_0_compat; assumption).
    assert (Mk : fb <= 1000000).
    { unfold fb.
      assert (0 <= (1000 - fee) * burn) by (apply Qmult_le_0_compat; lra).
      lra. }
    assert (Pf : 0 <= f) by (unfold f; lra).
    assert (P1 : 0 <= amount * f) by (apply Qmult_le_0_compat; lra).
    assert (P2 : 0 < tokenPool * 1000000) by lra.
    assert (Pr : 0 <= xtzPool / tokenPool) by (apply Qdiv_nonneg; lra).
    eexists. split; [reflexivity |].
    apply rate_bound; [exact Ha | |].
    + apply Qdiv_nonneg; [|lra]. repeat apply Qmult_le_0_compat; lra.
    + apply Qle_shift_div_r; [lra |].
      assert (E : amount * (xtzPool / tokenPool)
                  * (tokenPool * 1000000 + amount * f)
                  == amount * xtzPool * 1000000
                     + amount * amount * (xtzPool / tokenPool) * f)
        by (field; lra).
      rewrite E.
      assert (0 <= amount * xtzPool * (1000000 - fb))
        by (repeat apply Qmult_le_0_compat; lra).
      assert (0 <= amount * amount * (xtzPool / tokenPool) * f).
      { apply Qmult_le_0_compat; [|exact Pf].
        apply Qmult_le_0_compat; [|exact Pr].
        apply Qmult_le_0_compat; lra. }
      lra.
Qed.

(** X9 (witness): 1 tez against the tzBTC pool of the original tests. *)
Lemma exchange_rate_witness :
  (exists r,
     xtzToTokenExchangeRate true (BN.of_Q 1000000) (BN.of_Q 34204881343)
       (BN.of_Q 39306268) (3 # 10) 0
     = Some (BN.Finite false r)
     /\ 0 <= r
     /\ r <= 39306268 / credited_Q true 34204881343 + (1 # BN.scale))
  /\ (exists r,
        tokenToXtzExchangeRate true (BN.of_Q 1000000) (BN.of_Q 34204881343)
          (BN.of_Q 39306268) (3 # 10) 0
        = Some (BN.Finite false r)
        /\ 0 <= r
        /\ r <= 34204881343 / 39306268 + (1 # BN.scale)).
Proof.
  apply (exchange_rate_below_the_pool_ratio
           true 1000000 34204881343 39306268 (3 # 10) 0); lra.
Defined.

(** ** The subsidy in the exchange rates *)

(** X10.  For a positive XTZ pool, xtzToTokenExchangeRate and
    xtzToTokenExchangeRateForDisplay under the subsidy flag return what
    they return without the flag for the pool plus 2,500,000, whatever the
    other arguments are. *)
Theorem exchange_rate_subsidy_is_a_credited_pool
  (xtzPool : Q) (xtzIn tokenPool decimals : BN.t)
  (feePercent burnPercent : Q) :
  0 < xtzPool ->
  xtzToTokenExchangeRate true xtzIn (BN.of_Q xtzPool) tokenPool
    feePercent burnPercent
  = xtzToTokenExchangeRate false xtzIn (creditSubsidy (BN.of_Q xtzPool))
      tokenPool feePercent burnPercent
  /\ xtzToTokenExchangeRateForDisplay true xtzIn (BN.of_Q xtzPool) tokenPool
       decimals feePercent burnPercent
     = xtzToTokenExchangeRateForDisplay false xtzIn
         (creditSubsidy (BN.of_Q xtzPool)) tokenPool decimals
         feePercent burnPercent.
Proof.
  intros HX.
  assert (G : gtZero (BN.of_Q xtzPool) = true) by now apply gtZero_of_Q.
  assert (G' : gtZero (creditSubsidy (BN.of_Q xtzPool)) = true).
  { change (creditSubsidy (BN.of_Q xtzPool))
      with (credited true (BN.of_Q xtzPool)).
    rewrite credited_of_Q by lra.
    apply gtZero_pos. now apply credited_Q_pos. }
  unfold xtzToTokenExchangeRate, xtzToTokenExchangeRateForDisplay,
    new_BigNumber.
  rewrite G, G'. split; reflexivity.
Qed.

(** X10 (witness): a pool of 1000 tez. *)
Lemma exchange_rate_subsidy_witness :
  xtzToTokenExchangeRate true (BN.of_Z 1000000) (BN.of_Q 1000000000)
    (BN.of_Z 250000) (3 # 10) 0
  = xtzToTokenExchangeRate false (BN.of_Z 1000000)
      (creditSubsidy (BN.of_Q 1000000000)) (BN.of_Z 250000) (3 # 10) 0
  /\ xtzToTokenExchangeRateForDisplay true (BN.of_Z 1000000)
       (BN.of_Q 1000000000) (BN.of_Z 250000) (BN.of_Z 8) (3 # 10) 0
     = xtzToTokenExchangeRateForDisplay false (BN.of_Z 1000000)
         (creditSubsidy (BN.of_Q 1000000000)) (BN.of_Z 250000) (BN.of_Z 8)
         (3 # 10) 0.
Proof.
  apply (exchange_rate_subsidy_is_a_credited_pool
           1000000000 (BN.of_Z 1000000) (BN.of_Z 250000) (BN.of_Z 8)
           (3 # 10) 0).
  lra.
Defined.

(** ** Inverse quotes in the requested output *)

Lemma Qdiv_le_mono (n n' d d' : Q) :
  0 <= n -> n <= n' -> 0 < d' -> d' <= d -> n / d <= n' / d'.
Proof.
  intros N NN D DD.
  apply Qle_shift_div_l; [exact D |].
  assert (P : 0 <= n / d) by (apply Qdiv_nonneg; lra).
  assert (E : n / d * d == n) by (field; lra).
  assert (0 <= n / d * (d - d')) by (apply Qmult_le_0_compat; lra).
  lra.
Qed.

(** X11.  An inverse quote never decreases in the requested output: if
    the quote for an amount is a value, then so is the quote for any larger
    amount the pool can still deliver, and it is at least as large. *)
Theorem inverse_quote_monotone_in_the_output
  (lb : bool) (small large xtzPool tokenPool : Q) (decimals : Z)
  (feePercent burnPercent : Q) :
  0 < small -> small <= large -> 0 < xtzPool -> 0 < tokenPool ->
  (0 <= decimals <= 308)%Z ->
  0 <= feePercent -> feePercent < 100 # 1 ->
  0 <= burnPercent -> burnPercent < 100 # 1 ->
  (large < tokenPool ->
   forall r,
     xtzToTokenXtzInput lb (BN.of_Q small) (BN.of_Q xtzPool)
       (BN.of_Q tokenPool) (BN.of_Z decimals) feePercent burnPercent
     = Some (BN.Finite false r) ->
     exists r',
       xtzToTokenXtzInput lb (BN.of_Q large) (BN.of_Q xtzPool)
         (BN.of_Q tokenPool) (BN.of_Z decimals) feePercent burnPercent
       = Some (BN.Finite false r')
       /\ r <= r')
  /\ (large * (inject_Z (multiplier_of feePercent)
               * inject_Z (multiplier_of burnPercent))
      < credited_Q lb xtzPool
        * (inject_Z (multiplier_of feePercent) * inject_Z 1000) ->
      forall r,
        tokenToXtzTokenInput lb (BN.of_Q small) (BN.of_Q xtzPool)
          (BN.of_Q tokenPool) (BN.of_Z decimals) feePercent burnPercent
        = Some (BN.Finite false r) ->
        exists r',
          tokenToXtzTokenInput lb (BN.of_Q large) (BN.of_Q xtzPool)
            (BN.of_Q tokenPool) (BN.of_Z decimals) feePercent burnPercent
          = Some (BN.Finite false r')
          /\ r <= r').
Proof.
  intros Hs Hsl HX HT Hd Hf1 Hf2 Hb1 Hb2.
  assert (Hl : 0 < large) by lra.
  destruct (multiplier_of_pos feePercent Hf1 Hf2) as [F1 F2].
  destruct (multiplier_of_pos burnPercent Hb1 Hb2) as [B1 B2].
  pose proof (inject_Z_pos _ F1) as F.
  pose proof (inject_Z_pos _ B1) as B.
  pose proof (credited_Q_pos lb xtzPool HX) as HXe.
  rewrite !(of_Q_nonneg small), !(of_Q_nonneg large) by lra.
  set (fee := inject_Z (multiplier_of feePercent)) in *.
  set (burn := inject_Z (multiplier_of burnPercent)) in *.
  set (Xe := credited_Q lb xtzPool) in *.
  assert (M : 0 < fee * burn) by (apply Qmult_lt_0_compat; assumption).
  split.
  - intros Hlt r E.
    assert (Hst : small < tokenPool) by lra.
    pose proof (xtzToTokenXtzInput_value lb small xtzPool tokenPool decimals
                  feePercent burnPercent Hs Hst HX Hd Hf1 Hf2 Hb1 Hb2) as V.
    pose proof (xtzToTokenXtzInput_value lb large xtzPool tokenPool decimals
                  feePercent burnPercent Hl Hlt HX Hd Hf1 Hf2 Hb1 Hb2) as V'.
    cbv zeta in V, V'. fold fee burn Xe in V, V'.
    change (inject_Z 1000000) with (1000000 # 1) in V, V'.
    destruct (positive_quote_inv _ _ _ V E) as [P Er].
    assert (Q : Xe * small * 1000000 / ((tokenPool - small) * (fee * burn))
                <= Xe * large * 1000000
                   / ((tokenPool - large) * (fee * burn))).
    { assert (0 <= Xe * small) by (apply Qmult_le_0_compat; lra).
      assert (0 <= Xe * (large - small)) by (apply Qmult_le_0_compat; lra).
      assert (0 <= (large - small) * (fee * burn))
        by (apply Qmult_le_0_compat; lra).
      assert (0 < (tokenPool - large) * (fee * burn))
        by (apply Qmult_lt_0_compat; lra).
      apply Qdiv_le_mono; lra. }
    apply round_half_up_mono in Q.
    destruct (positive_quote_intro _ _ V') as [r' [E' Er']]; [lra |].
    exists r'. split; [exact E' | lra].
  - intros Hlt r E.
    assert (Hf2' : feePercent <= 100 # 1) by lra.
    assert (Hb2' : burnPercent <= 100 # 1) by lra.
    change (inject_Z 1000) with (1000 # 1) in Hlt.
    assert (Hst : small * (fee * burn) < Xe * (fee * (1000 # 1))).
    { assert (0 <= (large - small) * (fee * burn))
        by (apply Qmult_le_0_compat; lra).
      lra. }
    pose proof (tokenToXtzTokenInput_value lb small xtzPool tokenPool decimals
                  feePercent burnPercent Hs HX HT Hd Hf1 Hf2' Hb1 Hb2' Hst)
      as V.
    pose proof (tokenToXtzTokenInput_value lb large xtzPool tokenPool decimals
                  feePercent burnPercent Hl HX HT Hd Hf1 Hf2' Hb1 Hb2' Hlt)
      as V'.
    cbv zeta in V, V'. fold fee burn Xe in V, V'.
    change (inject_Z 1000000) with (1000000 # 1) in V, V'.
    change (inject_Z 1000) with (1000 # 1) in V, V'.
    destruct (positive_quote_inv _ _ _ V E) as [P Er].
    assert (Q : tokenPool * small * 1000000
                / (Xe * (fee * 1000) - small * (fee * burn))
                <= tokenPool * large * 1000000
                   / (Xe * (fee * 1000) - large * (fee * burn))).
    { assert (0 <= tokenPool * small) by (apply Qmult_le_0_compat; lra).
      assert (0 <= tokenPool * (large - small))
        by (apply Qmult_le_0_compat; lra).
      assert (0 <= (large - small) * (fee * burn))
        by (apply Qmult_le_0_compat; lra).
      apply Qdiv_le_mono; lra. }
    apply round_half_up_mono in Q.
    destruct (positive_quote_intro _ _ V') as [r' [E' Er']]; [lra |].
    exists r'. split; [exact E' | lra].
Qed.

(** X11 (witness): 2 and then 3 tokens (in units of 10^-6) bought from
    the tzBTC pool of the original tests. *)
Lemma inverse_quote_monotone_witness :
  exists r',
    xtzToTokenXtzInput true (BN.of_Q 3000000) (BN.of_Q 38490742927)
      (BN.of_Q 44366268) (BN.of_Z 0) (3 # 10) 0
    = Some (BN.Finite false r')
    /\ (182263257823003134050563014772 # 100000000000000000000) <= r'.
Proof.
  destruct (inverse_quote_monotone_in_the_output
              true 2000000 3000000 38490742927 44366268 0 (3 # 10) 0)
    as [H _]; try lra; try lia.
  apply H; [lra | vm_compute; reflexivity].
Defined.

(** ** A fee of 100% *)

(** X12.  When the fee multiplier is zero (a fee of 100%), the forward
    quotes of a positive trade are zero and the inverse quotes are
    +Infinity, not null: xtzToTokenXtzInput for any output up to the token
    pool, tokenToXtzTokenInput for any output. *)
Theorem full_fee_gives_zero_and_infinite_quotes
  (lb : bool) (amount xtzPool tokenPool : Q) (decimals : Z)
  (feePercent burnPercent : Q) :
  0 < amount -> 0 < xtzPool -> 0 < tokenPool -> (0 <= decimals <= 308)%Z ->
  multiplier_of feePercent = 0%Z ->
  0 <= feePercent -> feePercent <= 100 # 1 ->
  0 <= burnPercent -> burnPercent <= 100 # 1 ->
  (exists r,
     xtzToTokenTokenOutput lb (BN.of_Q amount) (BN.of_Q xtzPool)
       (BN.of_Q tokenPool) feePercent burnPercent
     = Some (BN.Finite false r) /\ r == 0)
  /\ (exists r,
        tokenToXtzXtzOutput lb (BN.of_Q amount) (BN.of_Q xtzPool)
          (BN.of_Q tokenPool) feePercent burnPercent
        = Some (BN.Finite false r) /\ r == 0)
  /\ (amount <= tokenPool ->
      xtzToTokenXtzInput lb (BN.of_Q amount) (BN.of_Q xtzPool)
        (BN.of_Q tokenPool) (BN.of_Z decimals) feePercent burnPercent
      = Some (BN.Infinity false))
  /\ tokenToXtzTokenInput lb (BN.of_Q amount) (BN.of_Q xtzPool)
       (BN.of_Q tokenPool) (BN.of_Z decimals) feePercent burnPercent
     = Some (BN.Infinity false).
Proof.
  intros Hi HX HT Hd Hfee Hf1 Hf2 Hb1 Hb2.
  destruct (multiplier_of_range burnPercent Hb1 Hb2) as [B1 B2].
  pose proof (inject_Z_nonneg _ B1) as B.
  pose proof (credited_Q_pos lb xtzPool HX) as HXe.
  destruct (Math_pow10_of_Z decimals Hd) as [Ep K].
  assert (K6 : 0 < inject_Z 1000000) by reflexivity.
  assert (Pn : forall a b, 0 < a -> 0 < b ->
               0 < a * b * inject_Z 1000000 * Qpower (10 # 1) decimals).
  { intros a b Pa Pb. repeat apply Qmult_lt_0_compat; assumption. }
  split; [|split; [|split]].
  - rewrite xtzToTokenTokenOutput_value by assumption.
    eexists. split; [reflexivity |].
    apply representable_round; [|apply (representable_Z 0)].
    rewrite Hfee. change (inject_Z 0) with 0. field. lra.
  - rewrite tokenToXtzXtzOutput_value_lb by assumption.
    eexists. split; [reflexivity |].
    apply representable_round; [|apply (representable_Z 0)].
    rewrite Hfee. change (inject_Z 0) with 0. field. lra.
  - intros Hle.
    unfold xtzToTokenXtzInput, new_BigNumber.
    fold (credited lb (BN.of_Q xtzPool)). rewrite credited_of_Q by lra.
    rewrite !of_Q_nonneg by lra.
    rewrite !gtZero_pos by assumption. rewrite geqZero_of_Z by lia.
    cbn [andb]. unfold xtzToTokenXtzInput_result.
    rewrite Ep, Hfee. rewrite number_times_nonneg by lia.
    change (BN.of_Z 1000000) with (BN.Finite false (inject_Z 1000000)).
    destruct (minus_Finite_ge tokenPool amount Hle) as [m [-> _]].
    cbn [BN.times xorb BN.dividedBy].
    rewrite is_zero_mag_true
      by (change (inject_Z 0) with 0; ring).
    rewrite is_zero_mag_pos by now apply Pn.
    reflexivity.
  - unfold tokenToXtzTokenInput, new_BigNumber.
    fold (credited lb (BN.of_Q xtzPool)). rewrite credited_of_Q by lra.
    rewrite !of_Q_nonneg by lra.
    rewrite !gtZero_pos by assumption. rewrite geqZero_of_Z by lia.
    cbn [andb]. unfold tokenToXtzTokenInput_result.
    rewrite Ep, Hfee. rewrite !number_times_nonneg by lia.
    change (BN.of_Z 1000000) with (BN.Finite false (inject_Z 1000000)).
    cbn [BN.times xorb].
    rewrite minus_Finite_eq by (change (inject_Z 0) with 0; ring).
    cbn [BN.times xorb BN.dividedBy].
    rewrite is_zero_mag_true by ring.
    rewrite is_zero_mag_pos by now apply Pn.
    reflexivity.
Qed.

(** X12 (witness): a fee of 100% on a pool of 1000 tez and 250,000
    tokens. *)
Lemma full_fee_witness :
  (exists r,
     xtzToTokenTokenOutput false (BN.of_Q 1000) (BN.of_Q 1000000000)
       (BN.of_Q 250000) (100 # 1) 0
     = Some (BN.Finite false r) /\ r == 0)
  /\ (exists r,
        tokenToXtzXtzOutput false (BN.of_Q 1000) (BN.of_Q 1000000000)
          (BN.of_Q 250000) (100 # 1) 0
        = Some (BN.Finite false r) /\ r == 0)
  /\ (1000 <= 250000 ->
      xtzToTokenXtzInput false (BN.of_Q 1000) (BN.of_Q 1000000000)
        (BN.of_Q 250000) (BN.of_Z 8) (100 # 1) 0
      = Some (BN.Infinity false))
  /\ tokenToXtzTokenInput false (BN.of_Q 1000) (BN.of_Q 1000000000)
       (BN.of_Q 250000) (BN.of_Z 8) (100 # 1) 0
     = Some (BN.Infinity false).
Proof.
  apply (full_fee_gives_zero_and_infinite_quotes
           false 1000 1000000000 250000 8 (100 # 1) 0);
    try lra; try lia; reflexivity.
Defined.

(** ** Liquidity created on a pool that only the subsidy validates *)

Lemma of_Q_neg (q : Q) : q < 0 -> BN.of_Q q = BN.Finite true (- q).
Proof.
  intros H. unfold BN.of_Q. now rewrite Qle_bool_false.
Qed.

Lemma creditSubsidy_negative (p : Q) :
  - (2500000 # 1) < p -> p < 0 ->
  creditSubsidy (BN.of_Q p) = BN.Finite false (inject_Z 2500000 - - p).
Proof.
  intros L U. rewrite of_Q_neg by exact U.
  unfold creditSubsidy.
  change (BN.of_Z 2500000) with (BN.Finite false (inject_Z 2500000)).
  cbn [BN.plus BN.sign Bool.eqb BN.negated negb BN.sub_same].
  unfold BN.Qeqb, BN.Qltb.
  change (inject_Z 2500000) with (2500000 # 1).
  destruct (Qeq_bool (- p) (2500000 # 1)) eqn:E;
    [apply Qeq_bool_iff in E; lra |].
  destruct (Qle_bool (- p) (2500000 # 1)) eqn:E';
    [reflexivity |].
  assert (T : Qle_bool (- p) (2500000 # 1) = true)
    by (apply Qle_bool_iff; lra).
  congruence.
Qed.

(** X13.  For a positive XTZ pool the subsidy flag changes nothing in
    tokenToXtzXtzOutput, tokenToXtzExchangeRate,
    tokenToXtzExchangeRateForDisplay and addLiquidityLiquidityCreated,
    whatever the other arguments are: the credited pool is only tested,
    and the value is computed from the pool as given. *)
Theorem subsidy_flag_without_effect_on_a_positive_pool
  (xtzPool : Q) (amount tokenPool decimals totalLiquidity : BN.t)
  (feePercent burnPercent : Q) :
  0 < xtzPool ->
  tokenToXtzXtzOutput true amount (BN.of_Q xtzPool) tokenPool
    feePercent burnPercent
  = tokenToXtzXtzOutput false amount (BN.of_Q xtzPool) tokenPool
      feePercent burnPercent
  /\ tokenToXtzExchangeRate true amount (BN.of_Q xtzPool) tokenPool
       feePercent burnPercent
     = tokenToXtzExchangeRate false amount (BN.of_Q xtzPool) tokenPool
         feePercent burnPercent
  /\ tokenToXtzExchangeRateForDisplay true amount (BN.of_Q xtzPool)
       tokenPool decimals feePercent burnPercent
     = tokenToXtzExchangeRateForDisplay false amount (BN.of_Q xtzPool)
         tokenPool decimals feePercent burnPercent
  /\ addLiquidityLiquidityCreated true amount (BN.of_Q xtzPool)
       totalLiquidity
     = addLiquidityLiquidityCreated false amount (BN.of_Q xtzPool)
         totalLiquidity.
Proof.
  intros HX.
  assert (G : gtZero (BN.of_Q xtzPool) = true) by now apply gtZero_of_Q.
  assert (G' : gtZero (creditSubsidy (BN.of_Q xtzPool)) = true).
  { change (creditSubsidy (BN.of_Q xtzPool))
      with (credited true (BN.of_Q xtzPool)).
    rewrite credited_of_Q by lra.
    apply gtZero_pos. now apply credited_Q_pos. }
  assert (A : forall a T,
             tokenToXtzXtzOutput true a (BN.of_Q xtzPool) T
               feePercent burnPercent
             = tokenToXtzXtzOutput false a (BN.of_Q xtzPool) T
                 feePercent burnPercent).
  { intros a T. unfold tokenToXtzXtzOutput, new_BigNumber.
    now rewrite G, G'. }
  split; [apply A |]. split; [|split].
  - unfold tokenToXtzExchangeRate, new_BigNumber. now rewrite A.
  - unfold tokenToXtzExchangeRateForDisplay, new_BigNumber. now rewrite A.
  - unfold addLiquidityLiquidityCreated, new_BigNumber. now rewrite G, G'.
Qed.

(** X13 (witness): a pool of 2,500,000, which the subsidy doubles. *)
Lemma subsidy_flag_without_effect_witness :
  tokenToXtzXtzOutput true (BN.of_Z 7) (BN.of_Q 2500000) (BN.of_Z 1000)
    (3 # 10) 0
  = tokenToXtzXtzOutput false (BN.of_Z 7) (BN.of_Q 2500000) (BN.of_Z 1000)
      (3 # 10) 0
  /\ tokenToXtzExchangeRate true (BN.of_Z 7) (BN.of_Q 2500000)
       (BN.of_Z 1000) (3 # 10) 0
     = tokenToXtzExchangeRate false (BN.of_Z 7) (BN.of_Q 2500000)
         (BN.of_Z 1000) (3 # 10) 0
  /\ tokenToXtzExchangeRateForDisplay true (BN.of_Z 7) (BN.of_Q 2500000)
       (BN.of_Z 1000) (BN.of_Z 8) (3 # 10) 0
     = tokenToXtzExchangeRateForDisplay false (BN.of_Z 7)
         (BN.of_Q 2500000) (BN.of_Z 1000) (BN.of_Z 8) (3 # 10) 0
  /\ addLiquidityLiquidityCreated true (BN.of_Z 7) (BN.of_Q 2500000)
       (BN.of_Z 5000000)
     = addLiquidityLiquidityCreated false (BN.of_Z 7) (BN.of_Q 2500000)
         (BN.of_Z 5000000).
Proof.
  apply (subsidy_flag_without_effect_on_a_positive_pool
           2500000 (BN.of_Z 7) (BN.of_Z 1000) (BN.of_Z 8) (BN.of_Z 5000000)
           (3 # 10) 0).
  lra.
Defined.

(** X14.  Under the subsidy flag addLiquidityLiquidityCreated accepts an
    XTZ pool argument between -2,500,000 and 0, which it rejects without
    the flag, and divides by that argument: for a positive deposit and a
    positive total liquidity the result is +Infinity on a pool of 0 and a
    value with a negative sign on a negative pool. *)
Theorem liquidity_created_on_a_pool_only_the_subsidy_validates
  (xtzIn xtzPool totalLiquidity : Q) :
  0 < xtzIn -> 0 < totalLiquidity ->
  - (2500000 # 1) < xtzPool -> xtzPool <= 0 ->
  addLiquidityLiquidityCreated false (BN.of_Q xtzIn) (BN.of_Q xtzPool)
    (BN.of_Q totalLiquidity) = None
  /\ (xtzPool == 0 ->
      addLiquidityLiquidityCreated true (BN.of_Q xtzIn) (BN.of_Q xtzPool)
        (BN.of_Q totalLiquidity) = Some (BN.Infinity false))
  /\ (xtzPool < 0 ->
      addLiquidityLiquidityCreated true (BN.of_Q xtzIn) (BN.of_Q xtzPool)
        (BN.of_Q totalLiquidity)
      = Some (BN.Finite true
                (BN.round_half_up
                   (xtzIn * totalLiquidity / - xtzPool)))).
Proof.
  intros Hi HL L U.
  assert (Gi : gtZero (BN.of_Q xtzIn) = true) by now apply gtZero_of_Q.
  assert (GL : gtZero (BN.of_Q totalLiquidity) = true)
    by now apply gtZero_of_Q.
  assert (ZL : eqZero (BN.of_Q totalLiquidity) = false).
  { rewrite of_Q_nonneg by lra. now apply is_zero_mag_pos. }
  assert (P : 0 < xtzIn * totalLiquidity)
    by now apply Qmult_lt_0_compat.
  split; [|split].
  - unfold addLiquidityLiquidityCreated, new_BigNumber.
    assert (G : gtZero (BN.of_Q xtzPool) = false).
    { destruct (Qlt_le_dec xtzPool 0) as [N | N].
      - rewrite of_Q_neg by exact N. apply gtZero_Finite_false.
        cbn [BN.value]. lra.
      - rewrite of_Q_nonneg by exact N. apply gtZero_Finite_false.
        cbn [BN.value]. lra. }
    rewrite G. now rewrite andb_false_r.
  - intros Z.
    unfold addLiquidityLiquidityCreated, new_BigNumber.
    fold (credited true (BN.of_Q xtzPool)).
    rewrite credited_of_Q by lra.
    rewrite (gtZero_pos (credited_Q true xtzPool))
      by (cbn [credited_Q]; change (inject_Z 2500000) with (2500000 # 1);
          lra).
    rewrite Gi, GL, ZL. cbn [andb].
    unfold liquidityCreated_positive_branch, new_BigNumber.
    rewrite !of_Q_nonneg by lra.
    cbn [BN.times BN.dividedBy xorb].
    rewrite (is_zero_mag_true xtzPool Z).
    now rewrite is_zero_mag_pos.
  - intros N.
    unfold addLiquidityLiquidityCreated, new_BigNumber.
    rewrite creditSubsidy_negative by assumption.
    rewrite gtZero_pos
      by (change (inject_Z 2500000) with (2500000 # 1); lra).
    rewrite Gi, GL, ZL. cbn [andb].
    unfold liquidityCreated_positive_branch, new_BigNumber.
    rewrite (of_Q_neg xtzPool N).
    rewrite !of_Q_nonneg by lra.
    cbn [BN.times BN.dividedBy xorb].
    now rewrite is_zero_mag_pos by lra.
Qed.

(** X14 (witness): a pool argument of -1. *)
Lemma liquidity_created_unvalidated_pool_witness :
  addLiquidityLiquidityCreated false (BN.of_Q 1000000) (BN.of_Q (- (1)))
    (BN.of_Q 5000000) = None
  /\ (- (1) == 0 ->
      addLiquidityLiquidityCreated true (BN.of_Q 1000000) (BN.of_Q (- (1)))
        (BN.of_Q 5000000) = Some (BN.Infinity false))
  /\ (- (1) < 0 ->
      addLiquidityLiquidityCreated true (BN.of_Q 1000000) (BN.of_Q (- (1)))
        (BN.of_Q 5000000)
      = Some (BN.Finite true
                (BN.round_half_up (1000000 * 5000000 / - - (1))))).
Proof.
  apply (liquidity_created_on_a_pool_only_the_subsidy_validates
           1000000 (- (1)) 5000000); lra.
Defined.

(** ** The two implementations *)

(** X15.  Given numbers for the two percentages, xtzToTokenTokenOutput,
    xtzToTokenExchangeRate and xtzToTokenExchangeRateForDisplay of
    index-raw.js return what the methods of the class return, the flag of
    the class being the last argument: the default the class takes for a
    percentage of 0 is the multiplier 1000 that 0 gives anyway. *)
Theorem raw_functions_agree_with_the_class
  (includeSubsidy : bool) (xtzIn xtzPool tokenPool decimals : BN.t)
  (feePercent burnPercent : Q) :
  Raw.xtzToTokenTokenOutput xtzIn xtzPool tokenPool feePercent burnPercent
    includeSubsidy
  = xtzToTokenTokenOutput includeSubsidy xtzIn xtzPool tokenPool
      feePercent burnPercent
  /\ Raw.xtzToTokenExchangeRate xtzIn xtzPool tokenPool feePercent
       burnPercent includeSubsidy
     = xtzToTokenExchangeRate includeSubsidy xtzIn xtzPool tokenPool
         feePercent burnPercent
  /\ Raw.xtzToTokenExchangeRateForDisplay xtzIn xtzPool tokenPool decimals
       feePercent burnPercent includeSubsidy
     = xtzToTokenExchangeRateForDisplay includeSubsidy xtzIn xtzPool
         tokenPool decimals feePercent burnPercent.
Proof.
  assert (A : forall a X T,
             Raw.xtzToTokenTokenOutput a X T feePercent burnPercent
               includeSubsidy
             = xtzToTokenTokenOutput includeSubsidy a X T
                 feePercent burnPercent).
  { intros a X T. unfold Raw.xtzToTokenTokenOutput, xtzToTokenTokenOutput.
    now rewrite !multiplier_of_opt_eq. }
  split; [apply A |]. split.
  - unfold Raw.xtzToTokenExchangeRate, xtzToTokenExchangeRate.
    now rewrite A.
  - unfold Raw.xtzToTokenExchangeRateForDisplay,
      xtzToTokenExchangeRateForDisplay.
    now rewrite A.
Qed.

(** ** The sign tests *)

(** X16.  The four sign tests agree with one another: geqZero is gtZero
    or eqZero, eqZero is geqZero and leqZero, and leqZero is the negation
    of gtZero on every value but NaN, which fails all four. *)
Theorem sign_tests_are_consistent (x : BN.t) :
  geqZero x = gtZero x || eqZero x
  /\ eqZero x = geqZero x && leqZero x
  /\ (x <> BN.NaN -> leqZero x = negb (gtZero x))
  /\ (x = BN.NaN ->
      gtZero x = false /\ geqZero x = false
      /\ eqZero x = false /\ leqZero x = false).
Proof.
  destruct x as [| a | a m].
  - repeat split; intros; try reflexivity; congruence.
  - destruct a; repeat split; intros; try reflexivity; discriminate.
  - assert (Z : BN.is_zero_mag m = true <-> BN.value a m == 0).
    { unfold BN.is_zero_mag, BN.Qeqb. rewrite Qeq_bool_iff.
      destruct a; cbn [BN.value]; split; intros H; lra. }
    unfold geqZero, gtZero, eqZero, leqZero, BN.isGreaterThanOrEqualTo,
      BN.isGreaterThan, BN.isLessThanOrEqualTo, BN.isZero.
    change (BN.comparedTo (BN.Finite a m) (BN.of_Z 0))
      with (Some (BN.value a m ?= 0)).
    destruct (BN.value a m ?= 0) eqn:E.
    + apply Qeq_alt in E. rewrite (proj2 Z E).
      repeat split; intros; try reflexivity; discriminate.
    + apply Qlt_alt in E.
      destruct (BN.is_zero_mag m) eqn:M;
        [pose proof (proj1 Z eq_refl); lra |].
      repeat split; intros; try reflexivity; discriminate.
    + apply Qgt_alt in E.
      destruct (BN.is_zero_mag m) eqn:M;
        [pose proof (proj1 Z eq_refl); lra |].
      repeat split; intros; try reflexivity; discriminate.
Qed.

(** ** The range of the price impact *)

(** The quotient both price-impact functions end on, for positive net
    proceeds [net] against an exact quote [quote]. *)
Lemma impact_quotient (quote net : Q) :
  0 <= quote -> 0 < net ->
  (exists r,
     BN.dividedBy (BN.minus (BN.Finite false quote) (BN.Finite false net))
       (BN.Finite false quote) = BN.Finite false r
     /\ 0 <= r /\ r <= 1)
  \/ BN.sign
       (BN.dividedBy
          (BN.minus (BN.Finite false quote) (BN.Finite false net))
          (BN.Finite false quote)) = Some true.
Proof.
  intros Pq Pn. destruct (Qlt_le_dec quote net) as [Lt | Ge].
  - right. rewrite (minus_Finite_lt _ _ Lt). cbn [BN.dividedBy xorb].
    destruct (BN.is_zero_mag quote); [|reflexivity].
    now rewrite is_zero_mag_pos by lra.
  - left. destruct (minus_Finite_ge quote net Ge) as [m [-> Em]].
    rewrite dividedBy_Finite_pos by lra.
    eexists. split; [reflexivity |]. split.
    + apply round_half_up_nonneg, Qdiv_nonneg; lra.
    + apply round_half_up_le_1. apply Qle_shift_div_r; lra.
Qed.

(** X17.  For a positive amount, positive pools and a burn percentage in
    [0, 100], under either subsidy flag, neither price-impact function
    returns a value above 1: the result is a value from 0 to 1, or it
    carries a negative sign (a negative value, minus zero or
    -Infinity). *)
Theorem price_impact_never_above_one
  (lb : bool) (amount xtzPool tokenPool burnPercent : Q) :
  0 < amount -> 0 < xtzPool -> 0 < tokenPool ->
  0 <= burnPercent -> burnPercent <= 100 # 1 ->
  (exists x,
     xtzToTokenPriceImpact lb (BN.of_Q amount) (BN.of_Q xtzPool)
       (BN.of_Q tokenPool) burnPercent = Some x
     /\ ((exists r, x = BN.Finite false r /\ 0 <= r /\ r <= 1)
         \/ BN.sign x = Some true))
  /\ (exists x,
        tokenToXtzPriceImpact lb (BN.of_Q amount) (BN.of_Q xtzPool)
          (BN.of_Q tokenPool) burnPercent = Some x
        /\ ((exists r, x = BN.Finite false r /\ 0 <= r /\ r <= 1)
            \/ BN.sign x = Some true)).
Proof.
  intros Hi HX HT Hb1 Hb2.
  destruct (multiplier_of_range burnPercent Hb1 Hb2) as [B1 B2].
  pose proof (inject_Z_nonneg _ B1) as B.
  pose proof (credited_Q_pos lb xtzPool HX) as HXe.
  assert (Zero : exists r, BN.of_Z 0 = BN.Finite false r /\ 0 <= r /\ r <= 1).
  { exists (inject_Z 0). split; [reflexivity |].
    change (inject_Z 0) with 0. lra. }
  split.
  - unfold xtzToTokenPriceImpact, new_BigNumber.
    fold (credited lb (BN.of_Q xtzPool)). rewrite credited_of_Q by lra.
    rewrite !of_Q_nonneg by lra. rewrite !gtZero_pos by assumption.
    cbn [andb]. unfold xtzToToken_tokensBought.
    rewrite of_Z_nonneg by exact B1.
    change (BN.of_Z 1000) with (BN.Finite false (inject_Z 1000)).
    cbn [BN.times xorb].
    rewrite (dividedBy_Finite_pos _ (inject_Z 1000)) by reflexivity.
    set (nb := BN.round_half_up _).
    assert (Pnb : 0 <= nb).
    { apply round_half_up_nonneg, Qdiv_nonneg; [|reflexivity].
      apply Qmult_le_0_compat; lra. }
    cbn [BN.times BN.plus BN.sign Bool.eqb BN.add_same xorb].
    rewrite dividedBy_Finite_pos by lra.
    set (bought := BN.round_half_up _).
    destruct (leqZero (BN.Finite false bought)) eqn:Z.
    + eexists. split; [reflexivity |]. left. exact Zero.
    + assert (Pb : 0 < bought).
      { destruct (Qlt_le_dec 0 bought) as [P | N]; [exact P |].
        apply leqZero_Finite in N. congruence. }
      eexists. split; [reflexivity |].
      apply impact_quotient; [|exact Pb].
      repeat apply Qmult_le_0_compat; lra.
  - unfold tokenToXtzPriceImpact, new_BigNumber.
    fold (credited lb (BN.of_Q xtzPool)). rewrite credited_of_Q by lra.
    rewrite !of_Q_nonneg by lra. rewrite !gtZero_pos by assumption.
    cbn [andb].
    rewrite tokenToXtz_xtzBoughtNetBurn_value by assumption.
    set (net := BN.round_half_up _).
    destruct (leqZero (BN.Finite false net)) eqn:Z.
    + eexists. split; [reflexivity |]. left. exact Zero.
    + assert (Pn : 0 < net).
      { destruct (Qlt_le_dec 0 net) as [P | N]; [exact P |].
        apply leqZero_Finite in N. congruence. }
      rewrite dividedBy_Finite_pos by exact HT.
      cbn [BN.times xorb].
      eexists. split; [reflexivity |].
      apply impact_quotient; [|exact Pn].
      apply Qmult_le_0_compat; [|lra].
      apply round_half_up_nonneg, Qdiv_nonneg; lra.
Qed.

(** X17 (witness): 100,000,000 tokens against the tzBTC pool of the
    original tests. *)
Lemma price_impact_range_witness :
  (exists x,
     xtzToTokenPriceImpact false (BN.of_Q 100000000) (BN.of_Q 3849181242)
       (BN.of_Q 44365061) 0 = Some x
     /\ ((exists r, x = BN.Finite false r /\ 0 <= r /\ r <= 1)
         \/ BN.sign x = Some true))
  /\ (exists x,
        tokenToXtzPriceImpact false (BN.of_Q 100000000)
          (BN.of_Q 3849181242) (BN.of_Q 44365061) 0 = Some x
        /\ ((exists r, x = BN.Finite false r /\ 0 <= r /\ r <= 1)
            \/ BN.sign x = Some true)).
Proof.
  apply (price_impact_never_above_one
           false 100000000 3849181242 44365061 0); lra.
Defined.
